(** * uart_govee: the serial-to-Govee bridge of [govee_serial.py]

    A shallow embedding of the bridge script: the static device parser,
    the discovery-response normaliser, the start-up device resolution,
    the command fan-out and the body of the listening loop, followed by
    the properties of them that the specification states.

    Python values are modelled as follows.
    - [str] is a list of Unicode code points ([N]); [bytes] is a list of
      [Byte.byte].
    - [int] is [Z] (Python integers do not wrap).
    - decoded JSON is the inductive [json]; a [dict] is an association
      list in insertion order with first-match lookup.
    - [print], the HTTP session and [sys.exit] are effects of the monad
      [M]: a computation threads the outside world, appends to a trace
      of events and either returns or raises. *)

From Stdlib.Strings Require Import String Ascii Byte.
From Stdlib Require Import List ZArith NArith Bool Lia.
Import ListNotations.

Set Implicit Arguments.

(** ** Python strings *)

Module Py.

Local Open Scope N_scope.

Definition char := N.
Definition str := list char.
Definition bytes := list byte.

(** A source literal, as the code points of its characters. *)
Definition lit (s : string) : str := map N_of_ascii (list_ascii_of_string s).

(** A one-character literal. *)
Definition ch (a : ascii) : char := N_of_ascii a.

(** A [bytes] literal. *)
Definition blit (s : string) : bytes := list_byte_of_string s.

Fixpoint str_eqb (a b : str) : bool :=
  match a, b with
  | [], [] => true
  | x :: a', y :: b' => N.eqb x y && str_eqb a' b'
  | _, _ => false
  end.

(** [str.isspace] on one code point: the characters [str.strip()]
    removes. *)
Definition isspace (c : char) : bool :=
  ((0x09 <=? c) && (c <=? 0x0D)) || ((0x1C <=? c) && (c <=? 0x20))
  || (c =? 0x85) || (c =? 0xA0) || (c =? 0x1680)
  || ((0x2000 <=? c) && (c <=? 0x200A))
  || (c =? 0x2028) || (c =? 0x2029) || (c =? 0x202F) || (c =? 0x205F)
  || (c =? 0x3000).

Fixpoint lstrip (s : str) : str :=
  match s with
  | [] => []
  | c :: r => if isspace c then lstrip r else s
  end.

Definition rstrip (s : str) : str := rev (lstrip (rev s)).

(** [s.strip()] *)
Definition strip (s : str) : str := rstrip (lstrip s).

(** [s.upper()] on the ASCII letters; the case tables of the other
    code points are not modelled and leave them as they are. *)
Definition upper_char (c : char) : char :=
  if (0x61 <=? c) && (c <=? 0x7A) then c - 0x20 else c.

Definition upper (s : str) : str := map upper_char s.

(** [s.split(sep)] for a one-character separator: never the empty list,
    adjacent separators give empty tokens. *)
Fixpoint split (sep : char) (s : str) : list str :=
  match s with
  | [] => [[]]
  | c :: r =>
      if c =? sep then [] :: split sep r
      else match split sep r with
           | [] => [[c]]
           | t :: ts => (c :: t) :: ts
           end
  end.

(** [sep.join(parts)] *)
Fixpoint join (sep : char) (parts : list str) : str :=
  match parts with
  | [] => []
  | [t] => t
  | t :: ts => t ++ sep :: join sep ts
  end.

(** *** [bytes.decode("utf-8", errors="ignore")]

    The decoder reads one scalar value at a time.  On an error it skips
    the offending bytes and goes on after them: one byte for an invalid
    start byte, the bytes read so far when a continuation byte is wrong
    (the wrong byte is looked at again as a start byte), and the rest of
    the input when the data ends inside a sequence. *)

Definition is_continuation (b : N) : bool := (0x80 <=? b) && (b <=? 0xBF).

Fixpoint decode_utf8_ignore (bs : bytes) : str :=
  match bs with
  | [] => []
  | b0 :: r1 =>
    let c0 := Byte.to_N b0 in
    if c0 <? 0x80 then c0 :: decode_utf8_ignore r1
    else if c0 <? 0xC2 then decode_utf8_ignore r1
    else if c0 <? 0xE0 then
      match r1 with
      | [] => []
      | b1 :: r2 =>
        let c1 := Byte.to_N b1 in
        if is_continuation c1
        then ((c0 - 0xC0) * 64 + (c1 - 0x80)) :: decode_utf8_ignore r2
        else decode_utf8_ignore r1
      end
    else if c0 <? 0xF0 then
      match r1 with
      | [] => []
      | b1 :: r2 =>
        let c1 := Byte.to_N b1 in
        if negb (is_continuation c1)
           || ((c0 =? 0xE0) && (c1 <? 0xA0))
           || ((c0 =? 0xED) && (0xA0 <=? c1))
        then decode_utf8_ignore r1
        else
          match r2 with
          | [] => []
          | b2 :: r3 =>
            let c2 := Byte.to_N b2 in
            if is_continuation c2
            then ((c0 - 0xE0) * 4096 + (c1 - 0x80) * 64 + (c2 - 0x80))
                   :: decode_utf8_ignore r3
            else decode_utf8_ignore r2
          end
      end
    else if c0 <? 0xF5 then
      match r1 with
      | [] => []
      | b1 :: r2 =>
        let c1 := Byte.to_N b1 in
        if negb (is_continuation c1)
           || ((c0 =? 0xF0) && (c1 <? 0x90))
           || ((c0 =? 0xF4) && (0x90 <=? c1))
        then decode_utf8_ignore r1
        else
          match r2 with
          | [] => []
          | b2 :: r3 =>
            let c2 := Byte.to_N b2 in
            if negb (is_continuation c2) then decode_utf8_ignore r2
            else
              match r3 with
              | [] => []
              | b3 :: r4 =>
                let c3 := Byte.to_N b3 in
                if is_continuation c3
                then ((c0 - 0xF0) * 262144 + (c1 - 0x80) * 4096
                      + (c2 - 0x80) * 64 + (c3 - 0x80))
                       :: decode_utf8_ignore r4
                else decode_utf8_ignore r3
              end
          end
      end
    else decode_utf8_ignore r1
  end.

Arguments lit s%_string.
Arguments ch a%_char.
Arguments blit s%_string.

End Py.

Import Py.

(** ** Decoded JSON

    What [resp.json()] returns.  Numbers are modelled by integer values. *)

Unset Elimination Schemes.
Inductive json : Type :=
| JNull
| JBool (b : bool)
| JNum (z : Z)
| JStr (s : str)
| JList (l : list json)
| JDict (kv : list (str * json)).
Set Elimination Schemes.

(** Truth value of a Python object, as [or], [not] and [if] take it. *)
Definition truthy (v : json) : bool :=
  match v with
  | JNull => false
  | JBool b => b
  | JNum z => negb (z =? 0)%Z
  | JStr s => match s with [] => false | _ => true end
  | JList l => match l with [] => false | _ => true end
  | JDict kv => match kv with [] => false | _ => true end
  end.

(** [a or b] *)
Definition py_or (a b : json) : json := if truthy a then a else b.

Fixpoint dict_lookup (k : str) (kv : list (str * json)) : option json :=
  match kv with
  | [] => None
  | (k', v) :: r => if str_eqb k' k then Some v else dict_lookup k r
  end.

(** [k in d] *)
Definition has_key (k : str) (kv : list (str * json)) : bool :=
  match dict_lookup k kv with Some _ => true | None => false end.

(** [d.get(k)], and [d[k]] where the source has checked [k in d]. *)
Definition dict_get (kv : list (str * json)) (k : str) : json :=
  match dict_lookup k kv with Some v => v | None => JNull end.

(** [list(d.keys())] *)
Definition dict_keys (kv : list (str * json)) : list str := map fst kv.

Definition is_dict (v : json) : bool :=
  match v with JDict _ => true | _ => false end.

Definition is_list (v : json) : bool :=
  match v with JList _ => true | _ => false end.

(** [k in v] for a [v] known to be a dict. *)
Definition contains (v : json) (k : str) : bool :=
  match v with JDict kv => has_key k kv | _ => false end.

(** [v[k]] for a [v] known to be a dict holding [k]. *)
Definition item (v : json) (k : str) : json :=
  match v with JDict kv => dict_get kv k | _ => JNull end.

Inductive pytype : Type :=
| NoneType | bool_t | int_t | str_t | list_t | dict_t.

(** [type(v)] *)
Definition type_of (v : json) : pytype :=
  match v with
  | JNull => NoneType
  | JBool _ => bool_t
  | JNum _ => int_t
  | JStr _ => str_t
  | JList _ => list_t
  | JDict _ => dict_t
  end.

(** ** Effects *)

(** A device of the registry, [(device_id, model)], at the type the
    source declares for it: [Tuple[str, str]]. *)
Definition Device : Type := str * str.

(** The body of a control request, [json.dumps(payload)]:
    [{"device": .., "model": .., "cmd": {"name": "turn", "value": ..}}]. *)
Record payload : Type := Payload {
  p_device : str;
  p_model : str;
  p_value : str
}.

(** The lines the script prints, one constructor per format string. *)
Inductive line : Type :=
| WarnFetchFailed (e : str)
    (* [WARN] Could not fetch devices from Govee API: {e} *)
| WarnShapeDict (keys : list str)
    (* [WARN] Unexpected API response shape (dict). Keys: {keys} *)
| WarnShapeType (t : pytype)
    (* [WARN] Unexpected API response type: {type(data)} *)
| WarnMalformedEntry (chunk : str)
    (* [WARN] Skipping malformed device entry: {chunk} *)
| InfoTryingApi
    (* [INFO] GOVEE_DEVICES env empty; trying Govee API to discover devices... *)
| InfoFetched (n : nat)
    (* [INFO] Fetched {n} devices from API *)
| ErrNoDevices
    (* [ERR] GOVEE_DEVICES empty and API fetch failed or returned no devices
       (on stderr) *)
| InfoFiltered (model : str) (kept ignored : nat)
    (* [INFO] Filtered devices to only model {model}: {kept} kept, {ignored} ignored *)
| InfoNotFiltering
    (* [INFO] ALLOWED_MODEL not set; not filtering devices. *)
| WarnNoDevicesOfModel (model : str)
    (* [WARN] No devices of model {model} found. Continuing without devices; ...
       (on stderr) *)
| OkTurned (device model VALUE : str)
    (* [OK] {device} ({model}) -> {value.upper()} *)
| ErrHttp (device model : str) (status : Z) (text : str)
    (* [ERR] {device} ({model}) HTTP {status}: {text} *)
| ErrRequestFailed (device model e : str)
    (* [ERR] {device} ({model}) request failed: {e} *)
| SkipCooldown (msg : str)
    (* [SKIP] {msg} (cooldown) *)
| Uart (msg : str).
    (* [UART] {msg} *)

(** What a run does that the outside can see, in order. *)
Inductive event : Type :=
| Print (l : line)
| HttpPut (p : payload)     (* SESSION.put(GOVEE_CONTROL_URL, ..., timeout=8) *)
| HttpGet                   (* SESSION.get(GOVEE_DEVICES_URL, ..., timeout=10) *)
| Discovery.                (* the call fetch_devices_from_api() at start-up *)

Inductive exn : Type :=
| RequestException (e : str)
| TypeError
| AttributeError
| ValueError
| SystemExit (code : Z).

Inductive result (A : Type) : Type :=
| Returned (a : A)
| Raised (e : exn).

Arguments Raised {A} e.

(** What the vendor answers to a control request: a response with its
    status code and text, or a failure of the transport, which
    [requests] raises as a [RequestException]. *)
Inductive put_outcome : Type :=
| PutResponse (status_code : Z) (text : str)
| PutFailed (e : str).

(** What the listing request gives: the decoded body, or a failure of
    the transport, of [raise_for_status] or of the decoding, each a
    [RequestException]. *)
Inductive get_outcome : Type :=
| GetBody (data : json)
| GetFailed (e : str).

(** The state of the listening loop. *)
Record loop_state : Type := LoopState {
  lights_on_state : option bool;
  last_action_ms : Z
}.

(** [os.getenv(name, default)], given the variable's value if it is set. *)
Definition getenv (value : option str) (default : str) : str :=
  match value with Some v => v | None => default end.

Definition TRIGGER_ON : str := lit "LIGHTS_ON".
Definition TRIGGER_OFF : str := lit "LIGHTS_OFF".

(** [normalize_line]: handle CRLF/CR/UTF-8 issues robustly. *)
Definition normalize_line (b : bytes) : str := strip (decode_utf8_ignore b).

Section Bridge.

(** The world outside the process (network, vendor cloud), threaded
    through every computation. *)
Variable World : Type.

Definition M (A : Type) : Type := World -> result A * list event * World.

Definition ret {A} (a : A) : M A := fun w => (Returned a, [], w).

Definition bind {A B} (m : M A) (k : A -> M B) : M B := fun w =>
  match m w with
  | (Returned a, t, w1) =>
      match k a w1 with (r, t', w2) => (r, t ++ t', w2) end
  | (Raised e, t, w1) => (Raised e, t, w1)
  end.

Notation "x <- c1 ;; c2" := (bind c1 (fun x => c2))
  (at level 61, c1 at next level, right associativity).
Notation "c1 ;; c2" := (bind c1 (fun _ => c2))
  (at level 61, right associativity).

Definition raise {A} (e : exn) : M A := fun w => (Raised e, [], w).

Definition print (l : line) : M unit := fun w => (Returned tt, [Print l], w).

(** [try: body / except requests.RequestException as e: handler] *)
Definition except_RequestException {A} (body : M A) (handler : str -> M A)
  : M A := fun w =>
  match body w with
  | (Raised (RequestException e), t, w1) =>
      match handler e w1 with (r, t', w2) => (r, t ++ t', w2) end
  | other => other
  end.

(** [for x in xs: body], the variables the body assigns passed along;
    a [continue] returns them as they are. *)
Fixpoint for_each {A S} (xs : list A) (body : A -> S -> M S) (s : S) : M S :=
  match xs with
  | [] => ret s
  | x :: r => s' <- body x s ;; for_each r body s'
  end.

(** The vendor's answers. *)
Variable put : World -> payload -> put_outcome * World.
Variable get : World -> get_outcome * World.

(** [str.upper], the full Unicode case mapping of text. *)
Variable str_upper : str -> str.

Definition SESSION_put (p : payload) : M (Z * str) := fun w =>
  match put w p with
  | (PutResponse status_code text, w') =>
      (Returned (status_code, text), [HttpPut p], w')
  | (PutFailed e, w') => (Raised (RequestException e), [HttpPut p], w')
  end.

(** [resp = SESSION.get(..); resp.raise_for_status(); data = resp.json()] *)
Definition SESSION_get_json : M json := fun w =>
  match get w with
  | (GetBody data, w') => (Returned data, [HttpGet], w')
  | (GetFailed e, w') => (Raised (RequestException e), [HttpGet], w')
  end.

(** *** [fetch_devices_from_api] *)

(** Lines 49-64: normalize the possible response shapes. *)
Definition devices_raw_of (data : json) : M json :=
  match data with
  | JDict kv =>
      if has_key (lit "data") kv && is_dict (dict_get kv (lit "data"))
         && contains (dict_get kv (lit "data")) (lit "devices")
      then ret (py_or (item (dict_get kv (lit "data")) (lit "devices"))
                      (JList []))
      else if has_key (lit "devices") kv
              && is_list (dict_get kv (lit "devices"))
      then ret (dict_get kv (lit "devices"))
      else if has_key (lit "data") kv && is_list (dict_get kv (lit "data"))
      then ret (dict_get kv (lit "data"))
      else print (WarnShapeDict (dict_keys kv)) ;; ret (JList [])
  | JList _ => ret data
  | _ => print (WarnShapeType (type_of data)) ;; ret (JList [])
  end.

(** What [for d in v] goes through: the items of a list, the characters
    of a string, the keys of a dict; other objects are not iterable. *)
Definition iterate (v : json) : M (list json) :=
  match v with
  | JList l => ret l
  | JStr s => ret (map (fun c => JStr [c]) s)
  | JDict kv => ret (map JStr (dict_keys kv))
  | _ => raise TypeError
  end.

(** Lines 68-75: the body of the loop over the raw records. *)
Definition collect_device (d : json) (out : list (json * json))
  : M (list (json * json)) :=
  match d with
  | JDict r =>
      let device_id :=
        py_or (py_or (dict_get r (lit "device")) (dict_get r (lit "deviceId")))
              (dict_get r (lit "id")) in
      let model :=
        py_or (py_or (py_or (dict_get r (lit "model")) (dict_get r (lit "sku")))
                     (dict_get r (lit "productModel")))
              (JStr []) in
      if negb (truthy device_id) || negb (truthy model) then ret out
      else ret (out ++ [(device_id, model)])
  | _ => ret out
  end.

Definition fetch_devices_from_api : M (list (json * json)) :=
  fetched <- except_RequestException
               (data <- SESSION_get_json ;; ret (Some data))
               (fun e => print (WarnFetchFailed e) ;; ret None) ;;
  match fetched with
  | None => ret []
  | Some data =>
      devices_raw <- devices_raw_of data ;;
      records <- iterate devices_raw ;;
      for_each records collect_device []
  end.

(** *** [parse_devices] *)

Definition parse_chunk (chunk : str) (out : list Device) : M (list Device) :=
  let chunk := strip chunk in
  match chunk with
  | [] => ret out
  | _ =>
      let parts := split (ch ":") chunk in
      if (length parts <? 7)%nat
      then print (WarnMalformedEntry chunk) ;; ret out
      else
        let device := join (ch ":") (firstn 6 parts) in
        let model := nth 6 parts [] in
        ret (out ++ [(device, model)])
  end.

Definition parse_devices (s : str) : M (list Device) :=
  match s with
  | [] => ret []
  | _ => for_each (split (ch ";") s) parse_chunk []
  end.

(** *** Start-up: the device registry (lines 102-127)

    The global [GOVEE_DEVICES] holds the tuples the code puts there:
    pairs of strings when they come from [parse_devices], pairs of
    whatever truthy values the records of the response hold when they
    come from [fetch_devices_from_api], which checks no type. *)

Definition as_tuple (dm : Device) : json * json :=
  (JStr (fst dm), JStr (snd dm)).

(** The call of line 105, which no [try] surrounds. *)
Definition call_fetch_devices : M (list (json * json)) := fun w =>
  match fetch_devices_from_api w with
  | (r, t, w') => (r, Discovery :: t, w')
  end.

(** Lines 102-111: try the environment first, fall back to the API. *)
Definition configured_devices (GOVEE_DEVICES_env : option str)
  : M (list (json * json)) :=
  let GOVEE_DEVICES_RAW := strip (getenv GOVEE_DEVICES_env []) in
  GOVEE_DEVICES <- parse_devices GOVEE_DEVICES_RAW ;;
  match GOVEE_DEVICES with
  | [] =>
      print InfoTryingApi ;;
      fetched <- call_fetch_devices ;;
      match fetched with
      | [] => print ErrNoDevices ;; raise (SystemExit 1)
      | _ => print (InfoFetched (length fetched)) ;; ret fetched
      end
  | _ => ret (map as_tuple GOVEE_DEVICES)
  end.

(** [(m or "").upper()]: a string has the method, so has the [""] that
    stands in for a falsy model; another truthy object has not. *)
Definition model_upper (m : json) : M str :=
  match py_or m (JStr []) with
  | JStr s => ret (str_upper s)
  | _ => raise AttributeError
  end.

(** One turn of the comprehension of line 118. *)
Definition keep_if_allowed (ALLOWED_MODEL : str) (dm : json * json)
  (kept : list (json * json)) : M (list (json * json)) :=
  u <- model_upper (snd dm) ;;
  if str_eqb u ALLOWED_MODEL then ret (kept ++ [dm]) else ret kept.

(** Lines 115-127: keep the devices of the allowed model only. *)
Definition filter_allowed (ALLOWED_MODEL_env : option str)
  (GOVEE_DEVICES : list (json * json)) : M (list (json * json)) :=
  let ALLOWED_MODEL :=
    str_upper (strip (getenv ALLOWED_MODEL_env (lit "H6006"))) in
  let orig_count := length GOVEE_DEVICES in
  GOVEE_DEVICES <-
    match ALLOWED_MODEL with
    | [] => print InfoNotFiltering ;; ret GOVEE_DEVICES
    | _ =>
        kept <- for_each GOVEE_DEVICES (keep_if_allowed ALLOWED_MODEL) [] ;;
        (if (length kept <? orig_count)%nat
         then print (InfoFiltered ALLOWED_MODEL (length kept)
                                  (orig_count - length kept))
         else ret tt) ;;
        ret kept
    end ;;
  match GOVEE_DEVICES with
  | [] => print (WarnNoDevicesOfModel ALLOWED_MODEL) ;; ret GOVEE_DEVICES
  | _ => ret GOVEE_DEVICES
  end.

Definition resolve_devices (GOVEE_DEVICES_env ALLOWED_MODEL_env : option str)
  : M (list (json * json)) :=
  GOVEE_DEVICES <- configured_devices GOVEE_DEVICES_env ;;
  filter_allowed ALLOWED_MODEL_env GOVEE_DEVICES.

(** *** [govee_turn_all] *)

(** The body of the loop over the devices; [ok_all] is passed along. *)
Definition turn_device (value : str) (dm : Device) (ok_all : bool) : M bool :=
  let '(device, model) := dm in
  let payload := Payload device model value in
  except_RequestException
    (resp <- SESSION_put payload ;;
     let '(status_code, text) := resp in
     if (status_code =? 200)%Z
     then print (OkTurned device model (upper value)) ;; ret ok_all
     else print (ErrHttp device model status_code text) ;; ret false)
    (fun e => print (ErrRequestFailed device model e) ;; ret false).

Definition govee_turn_all (GOVEE_DEVICES : list Device) (value : str)
  : M bool :=
  for_each GOVEE_DEVICES (turn_device value) true.

(** *** [main]: one turn of the listening loop (lines 173-197)

    [raw] is what [ser.readline()] returned and [now_ms] what
    [int(time.time() * 1000)] gives in this turn; a [continue] returns
    the loop's variables as they are. *)
Definition listen_once (GOVEE_DEVICES : list Device) (COOLDOWN_MS : Z)
  (raw : bytes) (now_ms : Z) (st : loop_state) : M loop_state :=
  match raw with
  | [] => ret st
  | _ =>
    let msg := normalize_line raw in
    match msg with
    | [] => ret st
    | _ =>
      if (COOLDOWN_MS >? 0)%Z && (now_ms - last_action_ms st <? COOLDOWN_MS)%Z
      then print (SkipCooldown msg) ;; ret st
      else if str_eqb msg TRIGGER_ON then
        govee_turn_all GOVEE_DEVICES (lit "on") ;;
        ret (LoopState (Some true) now_ms)
      else if str_eqb msg TRIGGER_OFF then
        govee_turn_all GOVEE_DEVICES (lit "off") ;;
        ret (LoopState (Some false) now_ms)
      else print (Uart msg) ;; ret st
    end
  end.

(** The loop over the lines read, each with the clock at its turn. *)
Definition listen (GOVEE_DEVICES : list Device) (COOLDOWN_MS : Z)
  (reads : list (bytes * Z)) (st : loop_state) : M loop_state :=
  for_each reads
    (fun rd st => listen_once GOVEE_DEVICES COOLDOWN_MS (fst rd) (snd rd) st)
    st.

End Bridge.

(** The state [main] starts the loop in. *)
Definition initial_state : loop_state := LoopState None 0.

Arguments ret {World A} a _.
Arguments raise {World A} e _.
Arguments print {World} l _.
Arguments parse_chunk {World} chunk out _.
Arguments parse_devices {World} s _.
Arguments model_upper {World} str_upper m _.
Arguments keep_if_allowed {World} str_upper ALLOWED_MODEL dm kept _.
Arguments filter_allowed {World} str_upper ALLOWED_MODEL_env GOVEE_DEVICES _.
Arguments devices_raw_of {World} data _.
Arguments iterate {World} v _.
Arguments collect_device {World} d out _.

(** ** The vocabulary of the specification *)

(** The three parts of a run. *)
Definition outcome {A W} (r : result A * list event * W) : result A :=
  fst (fst r).
Definition trace {A W} (r : result A * list event * W) : list event :=
  snd (fst r).
Definition world {A W} (r : result A * list event * W) : W := snd r.

(** The list a run returned; the empty list if it raised. *)
Definition returned_list {A B W} (r : result (list A) * B * W) : list A :=
  match fst (fst r) with Returned l => l | Raised _ => [] end.

(** The control requests of a trace, in order. *)
Definition puts (t : list event) : list payload :=
  flat_map (fun e => match e with HttpPut p => [p] | _ => [] end) t.

(** The lines of a trace, in order. *)
Definition prints (t : list event) : list line :=
  flat_map (fun e => match e with Print l => [l] | _ => [] end) t.

(** How often discovery was called. *)
Definition discoveries (t : list event) : nat :=
  length (filter (fun e => match e with Discovery => true | _ => false end) t).

(** *** The dispatcher *)

Definition payload_of (value : str) (dm : Device) : payload :=
  Payload (fst dm) (snd dm) value.

(** A per-device result succeeded: the answer was HTTP 200. *)
Definition succeeded (o : put_outcome) : bool :=
  match o with
  | PutResponse status_code _ => (status_code =? 200)%Z
  | PutFailed _ => false
  end.

(** The log line of one device's result. *)
Definition report (value : str) (dm : Device) (o : put_outcome) : line :=
  match o with
  | PutResponse status_code text =>
      if (status_code =? 200)%Z then OkTurned (fst dm) (snd dm) (upper value)
      else ErrHttp (fst dm) (snd dm) status_code text
  | PutFailed e => ErrRequestFailed (fst dm) (snd dm) e
  end.

(** What one device's turn leaves in the trace: its request, then the
    line of its result. *)
Definition device_events (value : str) (dmo : Device * put_outcome)
  : list event :=
  [HttpPut (payload_of value (fst dmo)); Print (report value (fst dmo) (snd dmo))].

(** The vendor's answers to a sequence of requests sent one after the
    other, and the world after the last. *)
Fixpoint answers {World} (put : World -> payload -> put_outcome * World)
  (w : World) (ps : list payload) : list put_outcome * World :=
  match ps with
  | [] => ([], w)
  | p :: r =>
      let '(o, w1) := put w p in
      let '(os, w2) := answers put w1 r in
      (o :: os, w2)
  end.

(** *** The trigger decoder of the specification, in its words: decode
    lossily, trim, an empty result is no event ([None]), the two
    literal trigger strings give ON and OFF, any other text OTHER. *)

Inductive Trigger : Type :=
| ON
| OFF
| OTHER (text : str).

Definition TriggerDecoder (rawBytes : bytes) : option Trigger :=
  let text := strip (decode_utf8_ignore rawBytes) in
  match text with
  | [] => None
  | _ =>
      if str_eqb text (lit "LIGHTS_ON") then Some ON
      else if str_eqb text (lit "LIGHTS_OFF") then Some OFF
      else Some (OTHER text)
  end.

(** An ON or OFF trigger. *)
Definition switch (t : Trigger) : Prop :=
  match t with OTHER _ => False | _ => True end.

(** The command the dispatcher is given for a trigger. *)
Definition command_of (t : Trigger) : str :=
  match t with ON => lit "on" | _ => lit "off" end.

Definition lights_of (t : Trigger) : bool :=
  match t with ON => true | _ => false end.

(** The cooldown gate is closed: the window is positive and less than
    the window has passed since the last action. *)
Definition in_cooldown (cooldownWindow now : Z) (st : loop_state) : bool :=
  (0 <? cooldownWindow)%Z && (now - last_action_ms st <? cooldownWindow)%Z.

(** A byte that is a whole ASCII character. *)
Definition ascii_byte (b : byte) : Prop := (Byte.to_N b < 0x80)%N.

(** A byte no UTF-8 sequence starts with. *)
Definition invalid_start (b : byte) : Prop :=
  (0x80 <= Byte.to_N b < 0xC2)%N \/ (0xF5 <= Byte.to_N b)%N.

(** *** The allow-list *)

Definition lower_char (c : char) : char :=
  if (0x41 <=? c)%N && (c <=? 0x5A)%N then (c + 0x20)%N else c.

(** Two strings match case-insensitively: they are equal once the case
    of their letters is folded. *)
Definition same_ignoring_case (a b : str) : bool :=
  str_eqb (map lower_char a) (map lower_char b).

(** A string of ASCII characters. *)
Definition ascii_text (s : str) : Prop := Forall (fun c => (c < 128)%N) s.

(** The text of a model: the string it is, none when it is [None] or
    another falsy value. *)
Definition model_text (m : json) : str :=
  match m with JStr s => s | _ => [] end.

(** A model the registry can hold at its declared type: a string, or a
    falsy value. *)
Definition textual (m : json) : bool :=
  match m with JStr _ => true | _ => negb (truthy m) end.

(** The devices the allow-list [allow] keeps when letters are
    upper-cased by [to_upper]: all of them when it is empty, else those
    whose model is [allow] once both are upper-cased, in their order. *)
Definition allowed (to_upper : str -> str) (allow : str)
  (devices : list (json * json)) : list (json * json) :=
  match allow with
  | [] => devices
  | _ =>
      filter (fun dm =>
                str_eqb (to_upper (model_text (snd dm))) (to_upper allow))
             devices
  end.

(** An event that is a printed line. *)
Definition printed (e : event) : Prop := exists l, e = Print l.

(** *** Static entries *)

(** A string without the separator [c]. *)
Definition free_of (c : char) (s : str) : Prop := ~ In c s.

(** *** Discovery records *)

(** The first truthy value a record holds under one of [keys]. *)
Fixpoint first_truthy (r : list (str * json)) (keys : list str) : option json :=
  match keys with
  | [] => None
  | k :: ks =>
      match dict_lookup k r with
      | Some v => if truthy v then Some v else first_truthy r ks
      | None => first_truthy r ks
      end
  end.

Definition id_keys : list str := [lit "device"; lit "deviceId"; lit "id"].
Definition model_keys : list str := [lit "model"; lit "sku"; lit "productModel"].

(** The devices one raw record gives: one, or none when it is not an
    object or has no identifier or no model. *)
Definition record_devices (d : json) : list (json * json) :=
  match d with
  | JDict r =>
      match first_truthy r id_keys, first_truthy r model_keys with
      | Some device_id, Some model => [(device_id, model)]
      | _, _ => []
      end
  | _ => []
  end.

(** [nested kv]: the object has a ["data"] object with a ["devices"] key. *)
Definition nested (kv : list (str * json)) : Prop :=
  exists inner v, dict_lookup (lit "data") kv = Some (JDict inner)
                  /\ dict_lookup (lit "devices") inner = Some v.

(** [picks data records warnings]: the raw records the normaliser takes
    from a response, by the first rule that applies, and the lines it
    prints. *)
Inductive picks : json -> list json -> list line -> Prop :=
| pick_nested kv inner l :
    dict_lookup (lit "data") kv = Some (JDict inner) ->
    dict_lookup (lit "devices") inner = Some (JList l) ->
    picks (JDict kv) l []
| pick_nested_empty kv inner v :
    dict_lookup (lit "data") kv = Some (JDict inner) ->
    dict_lookup (lit "devices") inner = Some v ->
    truthy v = false ->
    picks (JDict kv) [] []
| pick_devices kv l :
    ~ nested kv ->
    dict_lookup (lit "devices") kv = Some (JList l) ->
    picks (JDict kv) l []
| pick_data kv l :
    (forall l', dict_lookup (lit "devices") kv <> Some (JList l')) ->
    dict_lookup (lit "data") kv = Some (JList l) ->
    picks (JDict kv) l []
| pick_list l :
    picks (JList l) l []
| pick_other_dict kv :
    ~ nested kv ->
    (forall l', dict_lookup (lit "devices") kv <> Some (JList l')) ->
    (forall l', dict_lookup (lit "data") kv <> Some (JList l')) ->
    picks (JDict kv) [] [WarnShapeDict (dict_keys kv)]
| pick_other_type data :
    is_dict data = false -> is_list data = false ->
    picks data [] [WarnShapeType (type_of data)].

(** One of the four response shapes of the specification. *)
Definition listed_shape (data : json) : Prop :=
  (exists kv inner l, data = JDict kv
     /\ dict_lookup (lit "data") kv = Some (JDict inner)
     /\ dict_lookup (lit "devices") inner = Some (JList l))
  \/ (exists kv l, data = JDict kv
        /\ dict_lookup (lit "devices") kv = Some (JList l))
  \/ (exists kv l, data = JDict kv
        /\ dict_lookup (lit "data") kv = Some (JList l))
  \/ (exists l, data = JList l).

(** *** Worlds to run the bridge in *)

(** A vendor that accepts every request. *)
Definition put_ok (w : unit) (p : payload) : put_outcome * unit :=
  (PutResponse 200 [], w).

(** A vendor that answers the requests it gets with: 200, a timeout, 500,
    and 200 from then on.  The world counts the requests. *)
Definition put_flaky (w : nat) (p : payload) : put_outcome * nat :=
  (match w with
   | 0%nat => PutResponse 200 []
   | 1%nat => PutFailed (lit "timeout")
   | 2%nat => PutResponse 500 (lit "busy")
   | _ => PutResponse 200 []
   end, S w).

(** A listing endpoint that answers [data]. *)
Definition get_body (data : json) (w : unit) : get_outcome * unit :=
  (GetBody data, w).

Definition CR : byte := "013"%byte.
Definition LF : byte := "010"%byte.
Definition xFF : byte := "255"%byte.

(** A registry of two lamps. *)
Definition two_lamps : list Device :=
  [(lit "aa:bb:cc:dd:ee:ff", lit "H6006"); (lit "11:22:33:44:55:66", lit "H6006")].

(** Four raw records: two devices, a number, and a record without a
    model. *)
Definition sample_records : list json :=
  [JDict [(lit "device", JStr (lit "AA:01")); (lit "model", JStr (lit "H6006"))];
   JNum 3;
   JDict [(lit "device", JStr []); (lit "deviceId", JStr (lit "BB:02"));
          (lit "sku", JStr (lit "H6003"))];
   JDict [(lit "id", JStr (lit "CC:03"))]].

(** A listing response of the nested shape with these records. *)
Definition nested_listing : json :=
  JDict [(lit "code", JNum 200);
         (lit "data", JDict [(lit "devices", JList sample_records)])].

(** [str.upper] on text of the characters up to U+00FF: the letters a
    to z, and those from U+00E0 to U+00FE but the division sign U+00F7,
    go 32 down; U+00B5, U+00DF and U+00FF have images of their own.  A
    character beyond U+00FF is left as it is. *)
Definition upper_latin1_char (c : char) : str :=
  if (0x61 <=? c)%N && (c <=? 0x7A)%N then [(c - 0x20)%N]
  else if (c =? 0xB5)%N then [0x39C%N]
  else if (c =? 0xDF)%N then [0x53%N; 0x53%N]
  else if (c =? 0xFF)%N then [0x178%N]
  else if (0xE0 <=? c)%N && (c <=? 0xFE)%N && negb (c =? 0xF7)%N
       then [(c - 0x20)%N]
  else [c].

Definition upper_latin1 (s : str) : str := flat_map upper_latin1_char s.

(** Python's [int] on the texts the examples give it: 115200 and 800
    are integers; the word fast, the one other text they ask about, is
    not. *)
Definition example_int (s : str) : option Z :=
  if str_eqb s (lit "115200") then Some 115200%Z
  else if str_eqb s (lit "800") then Some 800%Z
  else None.

(** A listing response whose record gives the model as a number. *)
Definition numeric_listing : json :=
  JDict [(lit "data",
          JDict [(lit "devices",
                  JList [JDict [(lit "device", JStr (lit "AA:01"));
                                (lit "model", JNum 6006)]])])].

(** A listing response whose nested "devices" is null. *)
Definition null_listing : json :=
  JDict [(lit "data", JDict [(lit "devices", JNull)])].

(** ** The rest of the script *)

(** *** Module start-up (lines 16-24, then 102-127)

    The settings are read in the order of lines 16 to 20: [int] raises
    a [ValueError] on a text that is no integer, before the key is
    looked at.  [py_int] is Python's [int] on a string: the integer it
    reads, or none. *)

Inductive startup_event : Type :=
| PrintKeyMissing          (* [ERR] GOVEE_API_KEY missing in .env (on stderr) *)
| Resolving (e : event).

(** The globals the module has bound when start-up is through. *)
Record settings : Type := Settings {
  the_SERIAL_PORT : str;
  the_BAUDRATE : Z;
  the_COOLDOWN_MS : Z;
  the_GOVEE_DEVICES : list (json * json)
}.

Definition module_startup {World : Type}
  (get : World -> get_outcome * World)
  (str_upper : str -> str) (py_int : str -> option Z)
  (SERIAL_PORT_env BAUDRATE_env GOVEE_API_KEY_env GOVEE_DEVICES_env
     COOLDOWN_MS_env ALLOWED_MODEL_env : option str)
  (w : World) : result settings * list startup_event * World :=
  let SERIAL_PORT := getenv SERIAL_PORT_env (lit "COM5") in
  match py_int (getenv BAUDRATE_env (lit "115200")) with
  | None => (Raised ValueError, [], w)
  | Some BAUDRATE =>
      let GOVEE_API_KEY := strip (getenv GOVEE_API_KEY_env []) in
      match py_int (getenv COOLDOWN_MS_env (lit "800")) with
      | None => (Raised ValueError, [], w)
      | Some COOLDOWN_MS =>
          match GOVEE_API_KEY with
          | [] => (Raised (SystemExit 1), [PrintKeyMissing], w)
          | _ =>
              match resolve_devices get str_upper GOVEE_DEVICES_env
                      ALLOWED_MODEL_env w with
              | (Returned GOVEE_DEVICES, t, w') =>
                  (Returned (Settings SERIAL_PORT BAUDRATE COOLDOWN_MS
                                      GOVEE_DEVICES),
                   map Resolving t, w')
              | (Raised e, t, w') => (Raised e, map Resolving t, w')
              end
          end
      end
  end.

(** *** [main]: the reconnecting loop (lines 159-204)

    What the serial port and the keyboard do is given as a list of
    attempts to connect.  An attempt fails to open the port, or opens
    it, delivers lines (each with the clock at its turn; an empty line
    is a read that timed out) and ends in a [SerialException] of
    [readline] or in a [KeyboardInterrupt] while waiting for a line.
    A [KeyboardInterrupt] can also arrive while the port is being
    opened, and during the [time.sleep(3)] of the handler of a
    [SerialException], where no handler of [main] catches it.  When the
    list is used up the loop is still trying. *)

Inductive ending : Type :=
| SerialException (e : str)
| SerialExceptionThenInterrupt (e : str)  (* interrupted in the sleep *)
| KeyboardInterrupt.

Inductive attempt : Type :=
| OpenFails (e : str)
| OpenFailsThenInterrupt (e : str)        (* interrupted in the sleep *)
| OpenInterrupted                         (* interrupted in serial.Serial(..) *)
| Session (reads : list (bytes * Z)) (how : ending).

Inductive main_line : Type :=
| InfoStarting                          (* [INFO] Starting Govee serial bridge. *)
| InfoSerial (port : str) (baudrate : Z) (* [INFO] Serial: {port} @ {baudrate} *)
| InfoDevices (devices : list Device)   (* [INFO] Devices: d(m), d(m), ... *)
| InfoCommands                          (* [INFO] Commands: LIGHTS_ON | LIGHTS_OFF *)
| InfoListening                         (* [INFO] Listening... *)
| WarnSerial (e : str)       (* [WARN] Serial error: {e}. Reconnecting in 3s... *)
| InfoExiting.                          (* [INFO] Exiting. *)

Inductive main_event : Type :=
| Say (l : main_line)
| SerialOpen                (* serial.Serial(SERIAL_PORT, BAUDRATE, timeout=1) *)
| SerialClose               (* leaving the with block *)
| Sleep (seconds : Z)       (* time.sleep(3) *)
| Bridge (e : event).       (* what a turn of the listening loop does *)

Inductive main_result : Type :=
| Exited                    (* main returned *)
| Retrying (st : loop_state) (* the loop goes on with these variables *)
| Interrupted               (* a KeyboardInterrupt left main *)
| Uncaught (e : exn).       (* another exception left main *)

Section Main.

Variable World : Type.
Variable put : World -> payload -> put_outcome * World.
Variable SERIAL_PORT : str.
Variable BAUDRATE : Z.
Variable GOVEE_DEVICES : list Device.
Variable COOLDOWN_MS : Z.

(** The outer [while True], from the loop variables [st]. *)
Fixpoint reconnect_loop (attempts : list attempt) (st : loop_state) (w : World)
  : main_result * list main_event * World :=
  match attempts with
  | [] => (Retrying st, [], w)
  | OpenFails e :: rest =>
      let '(r, t, w') := reconnect_loop rest st w in
      (r, Say (WarnSerial e) :: Sleep 3 :: t, w')
  | OpenFailsThenInterrupt e :: _ =>
      (Interrupted, [Say (WarnSerial e); Sleep 3], w)
  | OpenInterrupted :: _ => (Exited, [Say InfoExiting], w)
  | Session reads how :: rest =>
      match listen put GOVEE_DEVICES COOLDOWN_MS reads st w with
      | (Raised e, t, w1) =>
          (Uncaught e,
           SerialOpen :: Say InfoListening :: map Bridge t ++ [SerialClose],
           w1)
      | (Returned st1, t, w1) =>
          match how with
          | SerialException e =>
              let '(r, t', w') := reconnect_loop rest st1 w1 in
              (r,
               SerialOpen :: Say InfoListening :: map Bridge t
                 ++ SerialClose :: Say (WarnSerial e) :: Sleep 3 :: t',
               w')
          | SerialExceptionThenInterrupt e =>
              (Interrupted,
               SerialOpen :: Say InfoListening :: map Bridge t
                 ++ [SerialClose; Say (WarnSerial e); Sleep 3],
               w1)
          | KeyboardInterrupt =>
              (Exited,
               SerialOpen :: Say InfoListening :: map Bridge t
                 ++ [SerialClose; Say InfoExiting],
               w1)
          end
      end
  end.

Definition main (attempts : list attempt) (w : World)
  : main_result * list main_event * World :=
  let '(r, t, w') := reconnect_loop attempts (LoopState None 0) w in
  (r,
   Say InfoStarting :: Say (InfoSerial SERIAL_PORT BAUDRATE)
     :: Say (InfoDevices GOVEE_DEVICES) :: Say InfoCommands :: t,
   w').

End Main.

(** *** More vocabulary *)

(** The turns of the listening loop in a trace of [main]. *)
Definition bridge_events (t : list main_event) : list event :=
  flat_map (fun e => match e with Bridge b => [b] | _ => [] end) t.

(** How often [main] slept. *)
Definition sleeps (t : list main_event) : nat :=
  length (filter (fun e => match e with Sleep _ => true | _ => false end) t).

(** How often the port was opened, and closed. *)
Definition opens (t : list main_event) : nat :=
  length (filter (fun e => match e with SerialOpen => true | _ => false end) t).
Definition closes (t : list main_event) : nat :=
  length (filter (fun e => match e with SerialClose => true | _ => false end) t).

(** An attempt that ends in an interrupt. *)
Definition interrupts (a : attempt) : bool :=
  match a with
  | OpenFailsThenInterrupt _ | OpenInterrupted
  | Session _ (SerialExceptionThenInterrupt _)
  | Session _ KeyboardInterrupt => true
  | _ => false
  end.

(** An attempt whose interrupt arrives during the sleep that follows a
    serial error. *)
Definition interrupted_asleep (a : attempt) : bool :=
  match a with
  | OpenFailsThenInterrupt _
  | Session _ (SerialExceptionThenInterrupt _) => true
  | _ => false
  end.

(** The lines an attempt delivers. *)
Definition reads_of (a : attempt) : list (bytes * Z) :=
  match a with Session reads _ => reads | _ => [] end.

(** The lines [main] gets to see: those of the attempts up to the first
    that ends in an interrupt, that one included. *)
Fixpoint lines_seen (attempts : list attempt) : list (bytes * Z) :=
  match attempts with
  | [] => []
  | a :: rest =>
      if interrupts a then reads_of a else reads_of a ++ lines_seen rest
  end.

(** An ASCII whitespace byte. *)
Definition space_byte (b : byte) : Prop :=
  isspace (Byte.to_N b) = true /\ ascii_byte b.

(** A string of whitespace only. *)
Definition blank (s : str) : Prop := Forall (fun c => isspace c = true) s.

(** A string that neither starts nor ends with whitespace. *)
Definition trimmed (s : str) : Prop :=
  match s with
  | [] => True
  | c :: _ => isspace c = false /\ isspace (last s c) = false
  end.

(** How often [c] occurs in [s]. *)
Definition count_char (c : char) (s : str) : nat :=
  length (filter (N.eqb c) s).

(** A line of the trace that warns of a malformed entry. *)
Definition malformed_warning (e : event) : Prop :=
  exists chunk, e = Print (WarnMalformedEntry chunk).

(** A read whose line is an ON or OFF trigger. *)
Definition switches (rd : bytes * Z) : bool :=
  match TriggerDecoder (fst rd) with
  | Some ON | Some OFF => true
  | _ => false
  end.

(** What [for d in v] can go through. *)
Definition iterable (v : json) : bool :=
  match v with JList _ | JStr _ | JDict _ => true | _ => false end.

(** The value the normaliser takes under the nested "devices" key, if
    the response has one. *)
Definition nested_devices (data : json) : option json :=
  match data with
  | JDict kv =>
      match dict_lookup (lit "data") kv with
      | Some (JDict inner) => dict_lookup (lit "devices") inner
      | _ => None
      end
  | _ => None
  end.

(** What one entry of the static configuration adds to the devices,
    and what it prints: [parse_chunk] run on it alone. *)
Definition entry_devices (entry : str) : list Device :=
  returned_list (parse_chunk (World:=unit) entry [] tt).
Definition entry_lines (entry : str) : list event :=
  trace (parse_chunk (World:=unit) entry [] tt).

(** An entry with something in it besides whitespace. *)
Definition nonblank (entry : str) : bool :=
  match strip entry with [] => false | _ => true end.

(** *** UTF-8, the other way

    The encoding of a string of Unicode scalar values
    ([str.encode("utf-8")]), which the decoder is checked against. *)

Definition byte_of (n : N) : byte :=
  match Byte.of_N n with Some b => b | None => "000"%byte end.

Definition encode_utf8_char (c : char) : bytes :=
  (if c <? 0x80 then [byte_of c]
   else if c <? 0x800 then
     [byte_of (0xC0 + c / 64); byte_of (0x80 + c mod 64)]
   else if c <? 0x10000 then
     [byte_of (0xE0 + c / 4096); byte_of (0x80 + (c / 64) mod 64);
      byte_of (0x80 + c mod 64)]
   else
     [byte_of (0xF0 + c / 262144); byte_of (0x80 + (c / 4096) mod 64);
      byte_of (0x80 + (c / 64) mod 64); byte_of (0x80 + c mod 64)])%N.

Definition encode_utf8 (s : str) : bytes := flat_map encode_utf8_char s.

(** A Unicode scalar value: a code point that is not a surrogate. *)
Definition scalar (c : char) : Prop :=
  (c < 0xD800 \/ (0xE000 <= c /\ c < 0x110000))%N.

(** * Properties *)

Unset Implicit Arguments.

(** ** Strings *)

Lemma str_eqb_refl (a : str) : str_eqb a a = true.
Proof.
  induction a as [|x a IH]; simpl; [reflexivity|].
  now rewrite N.eqb_refl, IH.
Qed.

Lemma str_eqb_eq (a b : str) : str_eqb a b = true <-> a = b.
Proof.
  split; [|intros ->; apply str_eqb_refl].
  revert b; induction a as [|x a IH]; intros [|y b]; simpl; try discriminate; auto.
  intros H; apply andb_true_iff in H as [Hx Hr].
  apply N.eqb_eq in Hx; subst; f_equal; auto.
Qed.

Lemma str_eqb_neq (a b : str) : str_eqb a b = false <-> a <> b.
Proof.
  rewrite <- str_eqb_eq. destruct (str_eqb a b); split; congruence.
Qed.

Lemma case_fold_char (x y : char) :
  (upper_char x =? upper_char y)%N = (lower_char x =? lower_char y)%N.
Proof.
  apply eq_true_iff_eq. rewrite !N.eqb_eq.
  unfold upper_char, lower_char.
  destruct (0x61 <=? x)%N eqn:A1; destruct (x <=? 0x7A)%N eqn:A2;
  destruct (0x61 <=? y)%N eqn:B1; destruct (y <=? 0x7A)%N eqn:B2;
  destruct (0x41 <=? x)%N eqn:C1; destruct (x <=? 0x5A)%N eqn:C2;
  destruct (0x41 <=? y)%N eqn:D1; destruct (y <=? 0x5A)%N eqn:D2;
  simpl;
  rewrite ?N.leb_le, ?N.leb_gt in *; lia.
Qed.

Lemma case_fold (a b : str) :
  str_eqb (upper a) (upper b) = same_ignoring_case a b.
Proof.
  unfold same_ignoring_case, upper.
  revert b; induction a as [|x a IH]; intros [|y b]; simpl; auto.
  now rewrite case_fold_char, IH.
Qed.

Lemma upper_nil (a : str) : upper a = [] <-> a = [].
Proof. destruct a; simpl; split; congruence. Qed.

Lemma split_not_nil (sep : char) (s : str) : split sep s <> [].
Proof.
  induction s as [|c r IH]; simpl; [discriminate|].
  destruct (c =? sep)%N; [discriminate|].
  destruct (split sep r); [contradiction|discriminate].
Qed.

Lemma split_free (sep : char) (t : str) : free_of sep t -> split sep t = [t].
Proof.
  unfold free_of. induction t as [|c r IH]; simpl; intros H; [reflexivity|].
  destruct (N.eqb_spec c sep) as [->|_]; [exfalso; auto|].
  rewrite IH by tauto. reflexivity.
Qed.

Lemma split_app (sep : char) (t rest : str) :
  free_of sep t -> split sep (t ++ sep :: rest) = t :: split sep rest.
Proof.
  unfold free_of. induction t as [|c r IH]; simpl; intros H.
  - now rewrite N.eqb_refl.
  - destruct (N.eqb_spec c sep) as [->|_]; [exfalso; auto|].
    rewrite IH by tauto. reflexivity.
Qed.

(** [split] undoes [join] on tokens without the separator. *)
Lemma split_join (sep : char) (tokens : list str) :
  tokens <> [] -> Forall (free_of sep) tokens ->
  split sep (join sep tokens) = tokens.
Proof.
  induction tokens as [|t ts IH]; [congruence|].
  intros _ H. inversion_clear H as [|? ? Ht Hts].
  destruct ts as [|t' ts'].
  - simpl. now apply split_free.
  - change (join sep (t :: t' :: ts')) with (t ++ sep :: join sep (t' :: ts')).
    rewrite split_app by assumption.
    rewrite IH; [reflexivity|discriminate|assumption].
Qed.

Lemma join_free (sep c : char) (tokens : list str) :
  c <> sep -> Forall (free_of c) tokens -> free_of c (join sep tokens).
Proof.
  unfold free_of. intros Hc. induction tokens as [|t ts IH]; intros H.
  - simpl; tauto.
  - inversion_clear H as [|? ? Ht Hts]. destruct ts as [|t' ts'].
    + exact Ht.
    + change (join sep (t :: t' :: ts')) with (t ++ sep :: join sep (t' :: ts')).
      rewrite in_app_iff. simpl. intros [?|[?|?]]; [tauto|congruence|].
      now apply IH.
Qed.

(** ** Loops in the monad *)

Section Loops.

Context {World : Type}.

Lemma bind_assoc {A B C} (m : M World A) (f : A -> M World B)
  (g : B -> M World C) (w : World) :
  bind (bind m f) g w = bind m (fun a => bind (f a) g) w.
Proof.
  unfold bind. destruct (m w) as [[[a|e] t] w1]; [|reflexivity].
  destruct (f a w1) as [[[b|e] t1] w2]; [|reflexivity].
  destruct (g b w2) as [[r t2] w3]. now rewrite app_assoc.
Qed.

Lemma bind_ext {A B} (m : M World A) (f g : A -> M World B) (w : World) :
  (forall a w', f a w' = g a w') -> bind m f w = bind m g w.
Proof.
  intros H. unfold bind. destruct (m w) as [[[a|e] t] w1]; [|reflexivity].
  now rewrite H.
Qed.

Lemma bind_ret_l {A B} (a : A) (f : A -> M World B) (w : World) :
  bind (ret a) f w = f a w.
Proof. unfold bind, ret. now destruct (f a w) as [[r t] w']. Qed.

Lemma bind_returned {A B} (m : M World A) (k : A -> M World B)
  (w w1 : World) (a : A) (t : list event) :
  m w = (Returned a, t, w1) ->
  bind m k w = (fst (fst (k a w1)), t ++ snd (fst (k a w1)), snd (k a w1)).
Proof.
  intros H. unfold bind. rewrite H. now destruct (k a w1) as [[r t'] w2].
Qed.

Lemma bind_raised {A B} (m : M World A) (k : A -> M World B)
  (w w1 : World) (e : exn) (t : list event) :
  m w = (Raised e, t, w1) -> bind m k w = (Raised e, t, w1).
Proof. intros H. unfold bind. now rewrite H. Qed.

Lemma for_each_app {A S} (xs ys : list A) (body : A -> S -> M World S)
  (s : S) (w : World) :
  for_each (xs ++ ys) body s w =
  bind (for_each xs body s) (for_each ys body) w.
Proof.
  revert s w; induction xs as [|x xs IH]; intros s w.
  - simpl. now rewrite bind_ret_l.
  - simpl. rewrite bind_assoc. apply bind_ext. intros s' w'. apply IH.
Qed.

End Loops.

(** ** The dispatcher *)

Section Dispatcher.

Context {World : Type}.
Variable put : World -> payload -> put_outcome * World.

Lemma turn_device_run (value : str) (dm : Device) (ok_all : bool) (w : World) :
  turn_device put value dm ok_all w =
  (Returned (ok_all && succeeded (fst (put w (payload_of value dm)))),
   device_events value (dm, fst (put w (payload_of value dm))),
   snd (put w (payload_of value dm))).
Proof.
  destruct dm as [device model].
  unfold turn_device, except_RequestException, bind, SESSION_put, payload_of,
    device_events, report, succeeded. simpl.
  destruct (put w (Payload device model value)) as [[status_code text|e] w1];
    simpl.
  - destruct (status_code =? 200)%Z; simpl;
      [now rewrite andb_true_r | now rewrite andb_false_r].
  - now rewrite andb_false_r.
Qed.

Lemma answers_length (w : World) (ps : list payload) :
  length (fst (answers put w ps)) = length ps.
Proof.
  revert w; induction ps as [|p ps IH]; intros w; simpl; [reflexivity|].
  destruct (put w p) as [o w1]. specialize (IH w1).
  destruct (answers put w1 ps) as [os w2]. simpl in *. now rewrite IH.
Qed.

(** The loop of [govee_turn_all] from any [ok_all]. *)
Lemma turn_all_run (value : str) (devices : list Device) (ok_all : bool)
  (w : World) :
  for_each devices (turn_device put value) ok_all w =
  let os := fst (answers put w (map (payload_of value) devices)) in
  (Returned (ok_all && forallb succeeded os),
   flat_map (device_events value) (combine devices os),
   snd (answers put w (map (payload_of value) devices))).
Proof.
  revert ok_all w; induction devices as [|dm devices IH]; intros ok_all w.
  - simpl. unfold ret. now rewrite andb_true_r.
  - simpl for_each. unfold bind. rewrite turn_device_run, IH.
    cbn [map answers].
    destruct (put w (payload_of value dm)) as [o w1]. cbn [fst snd].
    destruct (answers put w1 (map (payload_of value) devices)) as [os w2].
    simpl. now rewrite andb_assoc.
Qed.

Lemma puts_device_events (value : str) (devices : list Device)
  (os : list put_outcome) :
  length os = length devices ->
  puts (flat_map (device_events value) (combine devices os))
  = map (payload_of value) devices.
Proof.
  revert os; induction devices as [|dm devices IH]; intros [|o os]; simpl;
    try discriminate; auto.
  intros H. f_equal. apply IH. lia.
Qed.

Lemma prints_device_events (value : str) (devices : list Device)
  (os : list put_outcome) :
  prints (flat_map (device_events value) (combine devices os))
  = map (fun dmo => report value (fst dmo) (snd dmo)) (combine devices os).
Proof.
  revert os; induction devices as [|dm devices IH]; intros [|o os]; simpl; auto.
  f_equal. apply IH.
Qed.

(** C3.  [govee_turn_all] never raises: whatever the devices, the
    command and the vendor's answers, it returns.  It sends exactly one
    request per device, in registry order; each device's log line is
    that of its own answer (HTTP 200 succeeds, any other status and any
    transport exception fails) and the loop goes on to the next device;
    the returned flag is true if and only if every request succeeded. *)
Theorem govee_turn_all_aggregates (devices : list Device) (value : str)
  (w : World) :
  let run := govee_turn_all put devices value w in
  let os := fst (answers put w (map (payload_of value) devices)) in
  length os = length devices
  /\ (exists ok_all, outcome run = Returned ok_all
        /\ (ok_all = true <-> Forall (fun o => succeeded o = true) os))
  /\ puts (trace run) = map (payload_of value) devices
  /\ prints (trace run)
     = map (fun dmo => report value (fst dmo) (snd dmo)) (combine devices os)
  /\ trace run = flat_map (device_events value) (combine devices os)
  /\ world run = snd (answers put w (map (payload_of value) devices)).
Proof.
  intros run os. subst run. unfold govee_turn_all. rewrite turn_all_run.
  fold os. unfold outcome, trace, world. simpl.
  assert (Hlen : length os = length devices).
  { subst os. rewrite answers_length. apply length_map. }
  repeat split; auto.
  - exists (forallb succeeded os). split; [reflexivity|].
    rewrite forallb_forall, Forall_forall. reflexivity.
  - now apply puts_device_events.
  - apply prints_device_events.
Qed.

End Dispatcher.

(** ** The lossy decoder *)

Lemma decode_ascii (b : byte) (r : bytes) :
  ascii_byte b -> decode_utf8_ignore (b :: r) = Byte.to_N b :: decode_utf8_ignore r.
Proof.
  unfold ascii_byte. intros H. apply N.ltb_lt in H.
  unfold decode_utf8_ignore; fold decode_utf8_ignore. cbv zeta.
  now rewrite H.
Qed.

(** A byte that starts no sequence is dropped, and nothing else. *)
Lemma decode_invalid_start (b : byte) (r : bytes) :
  invalid_start b -> decode_utf8_ignore (b :: r) = decode_utf8_ignore r.
Proof.
  unfold invalid_start. intros H.
  unfold decode_utf8_ignore; fold decode_utf8_ignore. cbv zeta.
  destruct H as [[H1 H2]|H].
  - apply N.ltb_ge in H1. apply N.ltb_lt in H2. now rewrite H1, H2.
  - assert (E1 : (Byte.to_N b <? 0x80)%N = false) by (apply N.ltb_ge; lia).
    assert (E2 : (Byte.to_N b <? 0xC2)%N = false) by (apply N.ltb_ge; lia).
    assert (E3 : (Byte.to_N b <? 0xE0)%N = false) by (apply N.ltb_ge; lia).
    assert (E4 : (Byte.to_N b <? 0xF0)%N = false) by (apply N.ltb_ge; lia).
    assert (E5 : (Byte.to_N b <? 0xF5)%N = false) by (apply N.ltb_ge; lia).
    now rewrite E1, E2, E3, E4, E5.
Qed.

Lemma decode_ascii_app (pre rest : bytes) :
  Forall ascii_byte pre ->
  decode_utf8_ignore (pre ++ rest)
  = map Byte.to_N pre ++ decode_utf8_ignore rest.
Proof.
  induction 1 as [|b pre Hb _ IH]; [reflexivity|].
  simpl app. rewrite decode_ascii by assumption. simpl. now rewrite IH.
Qed.

(** ** The listening loop *)


(** What the decoder makes of a line is decided by its trimmed text. *)
Lemma decoder_some (raw : bytes) (t : Trigger) :
  TriggerDecoder raw = Some t ->
  normalize_line raw <> []
  /\ match t with
     | ON => normalize_line raw = TRIGGER_ON
     | OFF => normalize_line raw = TRIGGER_OFF
     | OTHER text => text = normalize_line raw
                     /\ text <> TRIGGER_ON /\ text <> TRIGGER_OFF
     end.
Proof.
  unfold TriggerDecoder, normalize_line, TRIGGER_ON, TRIGGER_OFF.
  destruct (strip (decode_utf8_ignore raw)) as [|c m]; [discriminate|].
  destruct (str_eqb (c :: m) (lit "LIGHTS_ON")) eqn:Eon.
  - intros [= <-]. apply str_eqb_eq in Eon. split; [discriminate|assumption].
  - destruct (str_eqb (c :: m) (lit "LIGHTS_OFF")) eqn:Eoff.
    + intros [= <-]. apply str_eqb_eq in Eoff. split; [discriminate|assumption].
    + intros [= <-]. apply str_eqb_neq in Eon, Eoff.
      split; [discriminate|]. repeat split; assumption.
Qed.

Lemma no_skip_in_device_events (value : str) (dmos : list (Device * put_outcome))
  (m : str) :
  ~ In (Print (SkipCooldown m)) (flat_map (device_events value) dmos).
Proof.
  rewrite in_flat_map. intros ((dm & o) & _ & H).
  unfold device_events, report in H. simpl in H.
  destruct H as [H|[H|[]]]; [discriminate|].
  destruct o as [status_code text|e]; [destruct (status_code =? 200)%Z|];
    discriminate.
Qed.

Section Listening.

Context {World : Type}.
Variable put : World -> payload -> put_outcome * World.
Variable GOVEE_DEVICES : list Device.
Variable COOLDOWN_MS : Z.

(** One turn of the loop, by what the line decodes to. *)
Lemma listen_once_run (raw : bytes) (now : Z) (st : loop_state) (w : World) :
  listen_once put GOVEE_DEVICES COOLDOWN_MS raw now st w =
  match TriggerDecoder raw with
  | None => (Returned st, [], w)
  | Some t =>
      if in_cooldown COOLDOWN_MS now st
      then (Returned st, [Print (SkipCooldown (normalize_line raw))], w)
      else
        match t with
        | OTHER text => (Returned st, [Print (Uart text)], w)
        | _ =>
            let sent := govee_turn_all put GOVEE_DEVICES (command_of t) w in
            (Returned (LoopState (Some (lights_of t)) now),
             trace sent, world sent)
        end
  end.
Proof.
  unfold listen_once, TriggerDecoder, normalize_line, in_cooldown,
    TRIGGER_ON, TRIGGER_OFF.
  destruct raw as [|b raw']; [reflexivity|].
  destruct (strip (decode_utf8_ignore (b :: raw'))) as [|c m]; [reflexivity|].
  rewrite Z.gtb_ltb.
  destruct ((0 <? COOLDOWN_MS)%Z && (now - last_action_ms st <? COOLDOWN_MS)%Z).
  - destruct (str_eqb (c :: m) (lit "LIGHTS_ON"));
      [|destruct (str_eqb (c :: m) (lit "LIGHTS_OFF"))]; reflexivity.
  - destruct (str_eqb (c :: m) (lit "LIGHTS_ON")).
    + unfold bind, govee_turn_all, command_of, lights_of.
      rewrite turn_all_run. simpl. now rewrite app_nil_r.
    + destruct (str_eqb (c :: m) (lit "LIGHTS_OFF")).
      * unfold bind, govee_turn_all, command_of, lights_of.
        rewrite turn_all_run. simpl. now rewrite app_nil_r.
      * reflexivity.
Qed.

Lemma listen_once_returns (raw : bytes) (now : Z) (st : loop_state) (w : World) :
  exists st', outcome (listen_once put GOVEE_DEVICES COOLDOWN_MS raw now st w)
              = Returned st'.
Proof.
  rewrite listen_once_run.
  destruct (TriggerDecoder raw) as [[| |text]|];
    destruct (in_cooldown COOLDOWN_MS now st); eexists; reflexivity.
Qed.

(** C1.  The cooldown gate.  Let T1 and T2 be ON/OFF lines, T1 acted
    on at time [t] (the gate was open for it).  T1 sets the time of the
    last action to [t].  If T2 comes at [t + d] with [0 < d <
    COOLDOWN_MS], the turn only prints the skip line: no request is
    sent, and the state, so the time of the last action, stays as T1
    left it.  If [COOLDOWN_MS <= d], the turn calls the dispatcher with
    T2's command and sets the time of the last action to [t + d],
    whatever the vendor answered. *)
Theorem cooldown_gate (T1 T2 : bytes) (c1 c2 : Trigger) (t d : Z)
  (st : loop_state) (w : World) :
  TriggerDecoder T1 = Some c1 -> switch c1 ->
  TriggerDecoder T2 = Some c2 -> switch c2 ->
  in_cooldown COOLDOWN_MS t st = false ->
  let first := listen_once put GOVEE_DEVICES COOLDOWN_MS T1 t st w in
  exists st1,
    outcome first = Returned st1
    /\ last_action_ms st1 = t
    /\ ((0 < d < COOLDOWN_MS)%Z ->
        listen_once put GOVEE_DEVICES COOLDOWN_MS T2 (t + d) st1 (world first)
        = (Returned st1, [Print (SkipCooldown (normalize_line T2))],
           world first))
    /\ ((COOLDOWN_MS <= d)%Z ->
        let second :=
          listen_once put GOVEE_DEVICES COOLDOWN_MS T2 (t + d) st1
            (world first) in
        let sent :=
          govee_turn_all put GOVEE_DEVICES (command_of c2) (world first) in
        outcome second = Returned (LoopState (Some (lights_of c2)) (t + d))
        /\ trace second = trace sent
        /\ world second = world sent
        /\ puts (trace second) = map (payload_of (command_of c2)) GOVEE_DEVICES).
Proof.
  intros D1 S1 D2 S2 Hopen first.
  exists (LoopState (Some (lights_of c1)) t).
  assert (Hfirst : outcome first
                   = Returned (LoopState (Some (lights_of c1)) t)).
  { subst first. rewrite listen_once_run, D1, Hopen.
    destruct c1; [reflexivity|reflexivity|contradiction]. }
  split; [exact Hfirst|]. split; [reflexivity|]. split.
  - intros Hd. rewrite listen_once_run, D2.
    unfold in_cooldown. simpl last_action_ms.
    replace (0 <? COOLDOWN_MS)%Z with true by (symmetry; apply Z.ltb_lt; lia).
    replace (t + d - t <? COOLDOWN_MS)%Z with true
      by (symmetry; apply Z.ltb_lt; lia).
    reflexivity.
  - intros Hd second sent.
    assert (Hsecond : second
                      = (Returned (LoopState (Some (lights_of c2)) (t + d)),
                         trace sent, world sent)).
    { subst second. rewrite listen_once_run, D2.
      unfold in_cooldown. simpl last_action_ms.
      replace (t + d - t <? COOLDOWN_MS)%Z with false
        by (symmetry; apply Z.ltb_ge; lia).
      rewrite andb_false_r.
      destruct c2; [reflexivity|reflexivity|contradiction]. }
    rewrite Hsecond. unfold outcome, trace, world. simpl.
    repeat split.
    subst sent. unfold govee_turn_all. rewrite turn_all_run. simpl.
    apply puts_device_events. rewrite answers_length. apply length_map.
Qed.

(** C2, as the code has it.  A line that is neither trigger string never
    changes the state of the loop and never reaches the dispatcher; it
    is printed as passthrough text when the cooldown gate is open, and
    as a cooldown skip when the gate is closed. *)
Theorem other_line_keeps_state (raw : bytes) (text : str) (now : Z)
  (st : loop_state) (w : World) :
  TriggerDecoder raw = Some (OTHER text) ->
  listen_once put GOVEE_DEVICES COOLDOWN_MS raw now st w
  = (Returned st,
     [Print (if in_cooldown COOLDOWN_MS now st
             then SkipCooldown text else Uart text)],
     w).
Proof.
  intros D. rewrite listen_once_run, D.
  apply decoder_some in D as (_ & -> & _).
  now destruct (in_cooldown COOLDOWN_MS now st).
Qed.

Lemma listen_once_no_skip (raw : bytes) (now : Z) (st : loop_state)
  (w : World) (m : str) :
  (COOLDOWN_MS <= 0)%Z ->
  ~ In (Print (SkipCooldown m))
       (trace (listen_once put GOVEE_DEVICES COOLDOWN_MS raw now st w)).
Proof.
  intros HC. rewrite listen_once_run.
  assert (Hgate : in_cooldown COOLDOWN_MS now st = false).
  { unfold in_cooldown.
    replace (0 <? COOLDOWN_MS)%Z with false by (symmetry; apply Z.ltb_ge; lia).
    reflexivity. }
  rewrite Hgate.
  destruct (TriggerDecoder raw) as [[| |text]|]; unfold trace; simpl.
  - unfold govee_turn_all. rewrite turn_all_run. simpl.
    apply no_skip_in_device_events.
  - unfold govee_turn_all. rewrite turn_all_run. simpl.
    apply no_skip_in_device_events.
  - intros [H|[]]. discriminate.
  - tauto.
Qed.

(** C9.  With a cooldown window of zero or less the gate is off: over
    any sequence of reads, however close their times, the loop handles
    every line and never prints a cooldown skip; each turn on a line
    that decodes to a trigger acts on it, whatever the time and the
    state. *)
Theorem cooldown_disabled (reads : list (bytes * Z)) (st : loop_state)
  (w : World) :
  (COOLDOWN_MS <= 0)%Z ->
  let run := listen put GOVEE_DEVICES COOLDOWN_MS reads st w in
  (exists st', outcome run = Returned st')
  /\ (forall m, ~ In (Print (SkipCooldown m)) (trace run))
  /\ (forall raw t now st0 w0,
        TriggerDecoder raw = Some t ->
        listen_once put GOVEE_DEVICES COOLDOWN_MS raw now st0 w0
        = match t with
          | OTHER text => (Returned st0, [Print (Uart text)], w0)
          | _ =>
              let sent := govee_turn_all put GOVEE_DEVICES (command_of t) w0 in
              (Returned (LoopState (Some (lights_of t)) now),
               trace sent, world sent)
          end).
Proof.
  intros HC run. subst run.
  assert (Hgate : forall now st0, in_cooldown COOLDOWN_MS now st0 = false).
  { intros now st0. unfold in_cooldown.
    replace (0 <? COOLDOWN_MS)%Z with false by (symmetry; apply Z.ltb_ge; lia).
    reflexivity. }
  split; [|split].
  - revert st w. induction reads as [|[raw now] reads IH]; intros st w.
    + exists st. reflexivity.
    + unfold listen. simpl for_each. unfold bind.
      destruct (listen_once_returns raw now st w) as (st1 & H1).
      destruct (listen_once put GOVEE_DEVICES COOLDOWN_MS raw now st w)
        as [[r1 t1] w1].
      unfold outcome in H1. simpl in H1. subst r1.
      destruct (IH st1 w1) as (st' & H'). unfold listen in H'.
      destruct (for_each reads _ st1 w1) as [[r2 t2] w2].
      exists st'. exact H'.
  - intros m. revert st w. induction reads as [|[raw now] reads IH]; intros st w.
    + simpl. tauto.
    + unfold listen. simpl for_each. unfold bind.
      pose proof (listen_once_no_skip raw now st w m HC) as H1.
      destruct (listen_once put GOVEE_DEVICES COOLDOWN_MS raw now st w)
        as [[[st1|e] t1] w1]; [|exact H1].
      pose proof (IH st1 w1) as H2. unfold listen in H2.
      destruct (for_each reads _ st1 w1) as [[r2 t2] w2].
      unfold trace in *. simpl in *. rewrite in_app_iff. tauto.
  - intros raw t now st0 w0 D. now rewrite listen_once_run, D, Hgate.
Qed.


End Listening.

(** ** Start-up: the registry *)

Lemma printed_no_discovery (t : list event) :
  Forall printed t -> discoveries t = 0%nat.
Proof.
  unfold discoveries. induction 1 as [|e t (l & ->) _ IH]; simpl; auto.
Qed.

Lemma discoveries_app (t1 t2 : list event) :
  discoveries (t1 ++ t2) = (discoveries t1 + discoveries t2)%nat.
Proof. unfold discoveries. now rewrite filter_app, length_app. Qed.

Section Registry.

Context {World : Type}.

(** A loop whose body only appends to its accumulator and prints does
    the same from any accumulator, and leaves the world alone. *)
Lemma for_each_prints {A B} (body : A -> list B -> M World (list B))
  (xs : list A) (w : World) :
  (forall x, exists ds t, Forall printed t /\
      forall out, body x out w = (Returned (out ++ ds), t, w)) ->
  exists ds t, Forall printed t /\
    forall out, for_each xs body out w = (Returned (out ++ ds), t, w).
Proof.
  intros Hbody. induction xs as [|x xs (ds & t & Ht & IH)].
  - exists [], []. split; [constructor|].
    intros out. simpl. unfold ret. now rewrite app_nil_r.
  - destruct (Hbody x) as (d1 & t1 & Ht1 & H1).
    exists (d1 ++ ds), (t1 ++ t). split; [now apply Forall_app|].
    intros out. simpl. unfold bind.
    rewrite H1, IH. now rewrite app_assoc.
Qed.

Lemma parse_chunk_blank (chunk : str) (out : list Device) (w : World) :
  strip chunk = [] -> parse_chunk chunk out w = (Returned out, [], w).
Proof. intros H. unfold parse_chunk. now rewrite H. Qed.

Lemma parse_chunk_short (chunk : str) (out : list Device) (w : World) :
  strip chunk <> [] ->
  (length (split (ch ":") (strip chunk)) < 7)%nat ->
  parse_chunk chunk out w
  = (Returned out, [Print (WarnMalformedEntry (strip chunk))], w).
Proof.
  intros Hne Hlen. unfold parse_chunk.
  destruct (strip chunk) as [|c m]; [congruence|].
  apply Nat.ltb_lt in Hlen. now rewrite Hlen.
Qed.

Lemma parse_chunk_long (chunk : str) (out : list Device) (w : World) :
  strip chunk <> [] ->
  (7 <= length (split (ch ":") (strip chunk)))%nat ->
  parse_chunk chunk out w
  = (Returned (out ++ [(join (ch ":") (firstn 6 (split (ch ":") (strip chunk))),
                        nth 6 (split (ch ":") (strip chunk)) [])]),
     [], w).
Proof.
  intros Hne Hlen. unfold parse_chunk.
  destruct (strip chunk) as [|c m]; [congruence|].
  apply Nat.ltb_ge in Hlen. now rewrite Hlen.
Qed.

Lemma parse_chunk_appends (chunk : str) (w : World) :
  exists ds t, Forall printed t /\
    forall out, parse_chunk chunk out w = (Returned (out ++ ds), t, w).
Proof.
  destruct (strip chunk) as [|c m] eqn:E.
  - exists [], []. split; [constructor|]. intros out.
    rewrite parse_chunk_blank by assumption. now rewrite app_nil_r.
  - destruct (Nat.lt_ge_cases (length (split (ch ":") (strip chunk))) 7)
      as [Hlen|Hlen].
    + exists [], [Print (WarnMalformedEntry (strip chunk))].
      split; [repeat constructor; eexists; reflexivity|]. intros out.
      rewrite parse_chunk_short by (assumption || congruence).
      now rewrite app_nil_r.
    + eexists _, []. split; [constructor|]. intros out.
      rewrite parse_chunk_long by (assumption || congruence). reflexivity.
Qed.

(** [parse_devices] is its loop over the chunks, also on the empty
    string. *)
Lemma parse_devices_split (s : str) (w : World) :
  parse_devices s w = for_each (split (ch ";") s) parse_chunk [] w.
Proof. destruct s; reflexivity. Qed.

(** [parse_devices] returns, only prints, and leaves the world alone. *)
Lemma parse_devices_run (s : str) (w : World) :
  exists ds t, Forall printed t /\ parse_devices s w = (Returned ds, t, w).
Proof.
  rewrite parse_devices_split.
  destruct (for_each_prints parse_chunk (split (ch ";") s) w
              (fun c => parse_chunk_appends c w)) as (ds & t & Ht & H).
  exists ds, t. split; [assumption|]. now rewrite H.
Qed.

Variable str_upper : str -> str.

(** What [str.upper] is known to do: it maps only the empty string to
    the empty string, and on ASCII text it upper-cases the letters a to
    z and leaves the rest. *)
Hypothesis str_upper_nil : forall s, str_upper s = [] <-> s = [].
Hypothesis str_upper_ascii : forall s, ascii_text s -> str_upper s = upper s.

Lemma model_upper_run (m : json) (w : World) :
  model_upper str_upper m w
  = if textual m then (Returned (str_upper (model_text m)), [], w)
    else (Raised AttributeError, [], w).
Proof.
  unfold model_upper, py_or, textual, model_text, ret, raise.
  destruct m as [|[]|z|[|c s]|[|x l]|[|x kv]]; try reflexivity.
  cbn. now destruct (z =? 0)%Z.
Qed.

(** The comprehension of line 118: it keeps the devices of the model,
    and stops at the first model that has no [upper]. *)
Lemma keep_allowed_run (ALLOWED_MODEL : str) (devices kept : list (json * json))
  (w : World) :
  for_each devices (keep_if_allowed str_upper ALLOWED_MODEL) kept w
  = if forallb (fun dm => textual (snd dm)) devices
    then (Returned
            (kept ++ filter (fun dm => str_eqb (str_upper (model_text (snd dm)))
                                               ALLOWED_MODEL) devices),
          [], w)
    else (Raised AttributeError, [], w).
Proof.
  revert kept. induction devices as [|dm devices IH]; intros kept.
  - simpl. unfold ret. now rewrite app_nil_r.
  - simpl for_each. cbn [forallb filter].
    assert (Hstep :
      keep_if_allowed str_upper ALLOWED_MODEL dm kept w
      = if textual (snd dm)
        then (Returned
                (if str_eqb (str_upper (model_text (snd dm))) ALLOWED_MODEL
                 then kept ++ [dm] else kept), [], w)
        else (Raised AttributeError, [], w)).
    { unfold keep_if_allowed, bind. rewrite model_upper_run.
      destruct (textual (snd dm)); [|reflexivity].
      now destruct (str_eqb _ ALLOWED_MODEL). }
    destruct (textual (snd dm)) eqn:T.
    + erewrite bind_returned by exact Hstep. rewrite IH. cbn [andb].
      destruct (forallb _ devices); cbn [fst snd app]; [|reflexivity].
      destruct (str_eqb _ ALLOWED_MODEL); [|reflexivity].
      now rewrite <- app_assoc.
    + now erewrite bind_raised by exact Hstep.
Qed.

(** Filtering only prints and leaves the world alone.  It returns,
    unless the allow-list is not empty and a model has no [upper]: then
    it ends in an [AttributeError] before anything is printed. *)
Lemma filter_allowed_ends (ALLOWED_MODEL_env : option str)
  (devices : list (json * json)) (w : World) :
  let ALLOWED_MODEL :=
    str_upper (strip (getenv ALLOWED_MODEL_env (lit "H6006"))) in
  (exists kept t,
     Forall printed t
     /\ filter_allowed str_upper ALLOWED_MODEL_env devices w
        = (Returned kept, t, w)
     /\ (ALLOWED_MODEL = []
         \/ forallb (fun dm => textual (snd dm)) devices = true)
     /\ (kept = [] -> In (Print (WarnNoDevicesOfModel ALLOWED_MODEL)) t))
  \/ (ALLOWED_MODEL <> []
      /\ forallb (fun dm => textual (snd dm)) devices = false
      /\ filter_allowed str_upper ALLOWED_MODEL_env devices w
         = (Raised AttributeError, [], w)).
Proof.
  intros ALLOWED_MODEL. unfold filter_allowed. fold ALLOWED_MODEL.
  assert (Hp : forall l, printed (Print l)) by (intros l; now exists l).
  destruct ALLOWED_MODEL as [|u0 u'] eqn:Eu.
  - left. unfold bind, print, ret. destruct devices as [|dm devices]; simpl;
      (eexists _, _;
       split; [|split; [reflexivity
                       |split; [now left
                               |try discriminate; intros _; simpl; auto]]]);
      repeat constructor; apply Hp.
  - rewrite <- Eu. rewrite bind_assoc.
    destruct (forallb (fun dm => textual (snd dm)) devices) eqn:T.
    + left. erewrite bind_returned
        by (rewrite keep_allowed_run, T; reflexivity).
      cbn [app]. set (kept := filter _ devices).
      unfold bind, print, ret.
      destruct (length kept <? length devices)%nat;
        destruct kept as [|dm kept']; simpl;
        (eexists _, _;
         split; [|split; [reflexivity
                         |split; [now right
                                 |try discriminate; intros _; simpl; auto]]]);
        repeat constructor; apply Hp.
    + right. split; [congruence|]. split; [reflexivity|].
      erewrite bind_raised by (rewrite keep_allowed_run, T; reflexivity).
      reflexivity.
Qed.

Lemma filter_allowed_run (ALLOWED_MODEL_env : option str)
  (devices : list (json * json)) (w : World) :
  let allow := strip (getenv ALLOWED_MODEL_env (lit "H6006")) in
  allow = [] \/ Forall (fun dm => textual (snd dm) = true) devices ->
  exists t, Forall printed t
    /\ filter_allowed str_upper ALLOWED_MODEL_env devices w
       = (Returned (allowed str_upper allow devices), t, w)
    /\ (allowed str_upper allow devices = [] ->
        In (Print (WarnNoDevicesOfModel (str_upper allow))) t).
Proof.
  intros allow Hok. unfold filter_allowed. fold allow. unfold allowed.
  assert (Hp : forall l, printed (Print l)) by (intros l; now exists l).
  destruct allow as [|a0 a'] eqn:Ea.
  - assert (Hnil : str_upper [] = []) by now apply str_upper_nil.
    rewrite Hnil. simpl. unfold bind, print, ret.
    destruct devices as [|dm devices]; simpl.
    + eexists. split; [|split; [reflexivity|intros _; simpl; auto]].
      repeat constructor; apply Hp.
    + eexists. split; [|split; [reflexivity|discriminate]].
      repeat constructor; apply Hp.
  - destruct Hok as [Hok|Hok]; [discriminate|].
    rewrite <- Ea.
    assert (Hup : str_upper allow <> [])
      by (rewrite str_upper_nil; congruence).
    assert (T : forallb (fun dm => textual (snd dm)) devices = true)
      by (apply forallb_forall; now apply Forall_forall).
    destruct (str_upper allow) as [|u0 u'] eqn:Eu; [congruence|]. rewrite <- Eu.
    rewrite bind_assoc.
    erewrite bind_returned by (rewrite keep_allowed_run, T; reflexivity).
    cbn [app].
    set (kept := filter _ devices).
    unfold bind, print, ret.
    destruct (length kept <? length devices)%nat;
      destruct kept as [|dm kept']; simpl;
      (eexists; split; [|split; [reflexivity|]];
       [repeat constructor; apply Hp | try discriminate; intros _; simpl; auto]).
Qed.

(** On ASCII text, being equal once upper-cased is matching
    case-insensitively. *)
Lemma allowed_ascii (allow : str) (devices : list (json * json)) :
  allow <> [] -> ascii_text allow ->
  Forall (fun dm => ascii_text (model_text (snd dm))) devices ->
  allowed str_upper allow devices
  = filter (fun dm => same_ignoring_case (model_text (snd dm)) allow) devices.
Proof.
  intros Hne Ha Hd. unfold allowed.
  destruct allow as [|a0 a'] eqn:Ea; [congruence|]. rewrite <- Ea in *.
  apply filter_ext_in. intros dm Hin.
  rewrite Forall_forall in Hd.
  rewrite (str_upper_ascii _ (Hd dm Hin)), (str_upper_ascii _ Ha).
  apply case_fold.
Qed.

(** C5.  Allow-list filtering.  With [allow] the configured allow-list
    value (trimmed; H6006 when the variable is not set) and a device
    list whose models are text: if [allow] is not empty the registry is
    exactly the devices whose model is [allow] once both are upper-cased
    by [str.upper], in their order; on ASCII text that is matching
    case-insensitively.  If [allow] is empty the registry is the device
    list itself, whatever it holds.  With allow-list H6006 and the
    models H6006, H6003, h6006 the first and the third device are
    kept. *)
Theorem allow_list_filtering (ALLOWED_MODEL_env : option str)
  (devices : list (json * json)) (w : World) :
  let allow := strip (getenv ALLOWED_MODEL_env (lit "H6006")) in
  let run := filter_allowed str_upper ALLOWED_MODEL_env devices w in
  (Forall (fun dm => textual (snd dm) = true) devices ->
   outcome run
   = Returned
       (match allow with
        | [] => devices
        | _ =>
            filter (fun dm => str_eqb (str_upper (model_text (snd dm)))
                                      (str_upper allow)) devices
        end)
   /\ (allow <> [] -> ascii_text allow ->
       Forall (fun dm => ascii_text (model_text (snd dm))) devices ->
       outcome run
       = Returned
           (filter (fun dm => same_ignoring_case (model_text (snd dm)) allow)
                   devices)))
  /\ (allow = [] -> outcome run = Returned devices)
  /\ world run = w
  /\ (forall d1 d2 d3,
        outcome (filter_allowed str_upper (Some (lit "H6006"))
                   [(d1, JStr (lit "H6006")); (d2, JStr (lit "H6003"));
                    (d3, JStr (lit "h6006"))] w)
        = Returned [(d1, JStr (lit "H6006")); (d3, JStr (lit "h6006"))])
  /\ outcome (filter_allowed str_upper (Some []) devices w) = Returned devices.
Proof.
  intros allow run. subst run.
  split; [|split; [|split; [|split]]].
  - intros Hok.
    destruct (filter_allowed_run ALLOWED_MODEL_env devices w (or_intror Hok))
      as (t & _ & H & _).
    fold allow in H. rewrite H. unfold outcome. cbn [fst].
    split; [reflexivity|].
    intros Hne Ha Hd. now rewrite (allowed_ascii allow devices Hne Ha Hd).
  - intros Hnil.
    destruct (filter_allowed_run ALLOWED_MODEL_env devices w (or_introl Hnil))
      as (t & _ & H & _).
    fold allow in H. rewrite H, Hnil. reflexivity.
  - destruct (filter_allowed_ends ALLOWED_MODEL_env devices w)
      as [(kept & t & _ & H & _)|(_ & _ & H)]; now rewrite H.
  - intros d1 d2 d3.
    set (devs := [(d1, JStr (lit "H6006")); (d2, JStr (lit "H6003"));
                  (d3, JStr (lit "h6006"))]).
    assert (Hok : Forall (fun dm => textual (snd dm) = true) devs)
      by (repeat constructor).
    destruct (filter_allowed_run (Some (lit "H6006")) devs w (or_intror Hok))
      as (t' & _ & H' & _).
    rewrite H'. unfold outcome. cbn [fst].
    change (strip (getenv (Some (lit "H6006")) (lit "H6006")))
      with (lit "H6006").
    rewrite allowed_ascii.
    + reflexivity.
    + discriminate.
    + repeat (constructor; [reflexivity|]). constructor.
    + repeat (constructor; [repeat (constructor; [reflexivity|]); constructor|]).
      constructor.
  - destruct (filter_allowed_run (Some []) devices w (or_introl eq_refl))
      as (t' & _ & H' & _).
    rewrite H'. reflexivity.
Qed.

End Registry.

Section Resolution.

Context {World : Type}.
Variable get : World -> get_outcome * World.
Variable str_upper : str -> str.

(** Lines 102-111: the static configuration first; discovery only when
    it gives no device, and whatever discovery raises goes through. *)
Lemma configured_devices_run (GOVEE_DEVICES_env : option str) (w : World) :
  let parsing := parse_devices (strip (getenv GOVEE_DEVICES_env [])) w in
  let fetching := fetch_devices_from_api get w in
  outcome parsing = Returned (returned_list parsing)
  /\ Forall printed (trace parsing)
  /\ configured_devices get GOVEE_DEVICES_env w
     = match returned_list parsing with
       | [] =>
           match outcome fetching with
           | Raised e =>
               (Raised e,
                trace parsing
                  ++ Print InfoTryingApi :: Discovery :: trace fetching,
                world fetching)
           | Returned [] =>
               (Raised (SystemExit 1),
                trace parsing
                  ++ Print InfoTryingApi :: Discovery :: trace fetching
                  ++ [Print ErrNoDevices],
                world fetching)
           | Returned found =>
               (Returned found,
                trace parsing
                  ++ Print InfoTryingApi :: Discovery :: trace fetching
                  ++ [Print (InfoFetched (length found))],
                world fetching)
           end
       | static => (Returned (map as_tuple static), trace parsing, w)
       end.
Proof.
  intros parsing fetching.
  destruct (parse_devices_run (strip (getenv GOVEE_DEVICES_env [])) w)
    as (ds & tp & Hp & Hparse).
  fold parsing in Hparse.
  unfold configured_devices. fold parsing.
  erewrite bind_returned by exact Hparse.
  rewrite Hparse. unfold returned_list, outcome, trace, world. cbn [fst snd].
  split; [reflexivity|]. split; [exact Hp|].
  destruct ds as [|dm ds']; [|cbn [fst snd ret]; now rewrite app_nil_r].
  unfold bind, print, call_fetch_devices, raise, ret. fold fetching.
  destruct fetching as [[[fd|e] t] w1]; cbn [fst snd app]; [|reflexivity].
  destruct fd; cbn [fst snd app]; now rewrite ?app_nil_r.
Qed.

Lemma resolve_devices_run (GOVEE_DEVICES_env ALLOWED_MODEL_env : option str)
  (w : World) :
  resolve_devices get str_upper GOVEE_DEVICES_env ALLOWED_MODEL_env w
  = match configured_devices get GOVEE_DEVICES_env w with
    | (Returned ds, t, w') =>
        let filtering := filter_allowed str_upper ALLOWED_MODEL_env ds w' in
        (outcome filtering, t ++ trace filtering, world filtering)
    | (Raised e, t, w') => (Raised e, t, w')
    end.
Proof.
  unfold resolve_devices, bind.
  destruct (configured_devices get GOVEE_DEVICES_env w) as [[[ds|e] t] w'];
    [|reflexivity].
  now destruct (filter_allowed str_upper ALLOWED_MODEL_env ds w')
    as [[r t'] w''].
Qed.

End Resolution.

(** C4.  Device resolution: a start-up the code does not survive
    although discovery gave a device.  Nothing is configured statically
    and the allow-list is the default H6006 (on which upper-casing is
    exact); the vendor lists one device and gives its model as the
    number 6006.  Discovery returns that device, with the number as its
    model; the filter's [(m or "").upper()] then raises an
    [AttributeError], which nothing catches: the process ends there,
    after the line that reports one fetched device, and no registry is
    built. *)
Theorem resolution_dies_on_numeric_model :
  let fetching := fetch_devices_from_api (get_body numeric_listing) tt in
  let run := resolve_devices (get_body numeric_listing) upper None None tt in
  returned_list (parse_devices (strip (getenv None [])) tt) = []
  /\ outcome fetching = Returned [(JStr (lit "AA:01"), JNum 6006)]
  /\ run = (Raised AttributeError,
            [Print InfoTryingApi; Discovery; HttpGet; Print (InfoFetched 1)],
            tt).
Proof. repeat split. Qed.

(** ** The static configuration *)

Section StaticConfig.

Context {World : Type}.

(** On entries without a semicolon, [parse_devices] of their
    concatenation is the loop over them. *)
Lemma parse_entries (entries : list str) (w : World) :
  Forall (free_of (ch ";")) entries ->
  parse_devices (join (ch ";") entries) w = for_each entries parse_chunk [] w.
Proof.
  intros H. rewrite parse_devices_split.
  destruct entries as [|e es]; [reflexivity|].
  rewrite split_join; [reflexivity|discriminate|assumption].
Qed.

(** One entry among others: what comes before and after it is parsed as
    it would be alone, and the entry adds its devices and lines in its
    place. *)
Lemma parse_devices_around (before after : list str) (w : World) :
  Forall (free_of (ch ";")) before -> Forall (free_of (ch ";")) after ->
  exists ds1 ws1 ds2 ws2,
    parse_devices (join (ch ";") before) w = (Returned ds1, ws1, w)
    /\ parse_devices (join (ch ";") after) w = (Returned ds2, ws2, w)
    /\ forall entry d t,
         free_of (ch ";") entry ->
         (forall out, parse_chunk entry out w = (Returned (out ++ d), t, w)) ->
         parse_devices (join (ch ";") (before ++ entry :: after)) w
         = (Returned (ds1 ++ d ++ ds2), ws1 ++ t ++ ws2, w).
Proof.
  intros Hb Ha.
  destruct (for_each_prints parse_chunk before w
              (fun c => parse_chunk_appends c w)) as (ds1 & ws1 & _ & H1).
  destruct (for_each_prints parse_chunk after w
              (fun c => parse_chunk_appends c w)) as (ds2 & ws2 & _ & H2).
  exists ds1, ws1, ds2, ws2.
  split; [rewrite parse_entries by assumption; now rewrite H1|].
  split; [rewrite parse_entries by assumption; now rewrite H2|].
  intros entry d t He Hentry.
  rewrite parse_entries
    by (apply Forall_app; split; [assumption|now constructor]).
  rewrite for_each_app.
  erewrite bind_returned by apply H1.
  simpl for_each.
  erewrite bind_returned by apply Hentry.
  rewrite H2. cbn [fst snd]. now rewrite <- app_assoc.
Qed.

(** An entry of seven or more tokens gives the device of its first six
    tokens and its seventh. *)
Lemma parse_chunk_tokens (t0 t1 t2 t3 t4 t5 t6 : str) (extra : list str)
  (out : list Device) (w : World) :
  let tokens := t0 :: t1 :: t2 :: t3 :: t4 :: t5 :: t6 :: extra in
  Forall (free_of (ch ":")) tokens ->
  strip (join (ch ":") tokens) = join (ch ":") tokens ->
  parse_chunk (join (ch ":") tokens) out w
  = (Returned (out ++ [(join (ch ":") [t0; t1; t2; t3; t4; t5], t6)]), [], w).
Proof.
  intros tokens Hfree Hstrip.
  assert (Hne : join (ch ":") tokens <> []).
  { subst tokens. cbn [join]. destruct t0; discriminate. }
  assert (Hsplit : split (ch ":") (join (ch ":") tokens) = tokens)
    by (apply split_join; [discriminate|assumption]).
  rewrite parse_chunk_long; rewrite Hstrip, ?Hsplit; try assumption.
  - reflexivity.
  - subst tokens. simpl. lia.
Qed.

Lemma semicolon_not_colon : ch ";" <> ch ":".
Proof. discriminate. Qed.

Lemma both_free (tokens : list str) :
  Forall (fun t => free_of (ch ":") t /\ free_of (ch ";") t) tokens ->
  Forall (free_of (ch ":")) tokens /\ free_of (ch ";") (join (ch ":") tokens).
Proof.
  intros H. apply Forall_and_inv in H as [H1 H2].
  split; [assumption|]. apply join_free; [exact semicolon_not_colon|assumption].
Qed.

(** C6.  Static configuration.  In a semicolon-separated string, a
    well-formed entry b0:b1:b2:b3:b4:b5:MODEL gives the device
    (b0:b1:b2:b3:b4:b5, MODEL) at its place among the devices of the
    entries before and after it, without a warning; an entry with fewer
    than seven tokens gives no device and one warning at its place, and
    the entries after it are parsed as before.  The two strings of the
    specification give two devices, and one device. *)
Theorem static_config_parsing (before after : list str)
  (b0 b1 b2 b3 b4 b5 MODEL bad : str) (w : World) :
  let entry := join (ch ":") [b0; b1; b2; b3; b4; b5; MODEL] in
  Forall (free_of (ch ";")) before -> Forall (free_of (ch ";")) after ->
  Forall (fun t => free_of (ch ":") t /\ free_of (ch ";") t)
         [b0; b1; b2; b3; b4; b5; MODEL] ->
  strip entry = entry ->
  free_of (ch ";") bad -> strip bad <> [] ->
  (length (split (ch ":") (strip bad)) < 7)%nat ->
  exists ds1 ws1 ds2 ws2,
    parse_devices (join (ch ";") before) w = (Returned ds1, ws1, w)
    /\ parse_devices (join (ch ";") after) w = (Returned ds2, ws2, w)
    /\ parse_devices (join (ch ";") (before ++ entry :: after)) w
       = (Returned (ds1 ++ (join (ch ":") [b0; b1; b2; b3; b4; b5], MODEL) :: ds2),
          ws1 ++ ws2, w)
    /\ parse_devices (join (ch ";") (before ++ bad :: after)) w
       = (Returned (ds1 ++ ds2),
          ws1 ++ Print (WarnMalformedEntry (strip bad)) :: ws2, w)
    /\ parse_devices (lit "aa:bb:cc:dd:ee:ff:H6104;11:22:33:44:55:66:H6003") w
       = (Returned [(lit "aa:bb:cc:dd:ee:ff", lit "H6104");
                    (lit "11:22:33:44:55:66", lit "H6003")], [], w)
    /\ parse_devices (lit "bad;aa:bb:cc:dd:ee:ff:H6104") w
       = (Returned [(lit "aa:bb:cc:dd:ee:ff", lit "H6104")],
          [Print (WarnMalformedEntry (lit "bad"))], w).
Proof.
  intros entry Hb Ha Htok Hstrip Hbad Hne Hshort.
  destruct (parse_devices_around before after w Hb Ha)
    as (ds1 & ws1 & ds2 & ws2 & H1 & H2 & Hmid).
  exists ds1, ws1, ds2, ws2.
  apply both_free in Htok as [Hcolon Hsemi].
  split; [exact H1|]. split; [exact H2|]. split; [|split; [|split]].
  - rewrite (Hmid entry [(join (ch ":") [b0; b1; b2; b3; b4; b5], MODEL)] []).
    + reflexivity.
    + exact Hsemi.
    + intros out. now apply parse_chunk_tokens.
  - rewrite (Hmid bad [] [Print (WarnMalformedEntry (strip bad))]).
    + reflexivity.
    + exact Hbad.
    + intros out. rewrite parse_chunk_short by assumption.
      now rewrite app_nil_r.
  - reflexivity.
  - reflexivity.
Qed.

(** C10.  An entry of more than seven tokens is not malformed: it
    gives the device of its first six tokens joined by colons and its
    seventh token as the model, without a warning, and what follows the
    seventh token is dropped. *)
Theorem extra_tokens_ignored (before after : list str)
  (t0 t1 t2 t3 t4 t5 t6 : str) (extra : list str) (w : World) :
  let tokens := t0 :: t1 :: t2 :: t3 :: t4 :: t5 :: t6 :: extra in
  extra <> [] ->
  Forall (free_of (ch ";")) before -> Forall (free_of (ch ";")) after ->
  Forall (fun t => free_of (ch ":") t /\ free_of (ch ";") t) tokens ->
  strip (join (ch ":") tokens) = join (ch ":") tokens ->
  (7 < length (split (ch ":") (strip (join (ch ":") tokens))))%nat
  /\ exists ds1 ws1 ds2 ws2,
    parse_devices (join (ch ";") before) w = (Returned ds1, ws1, w)
    /\ parse_devices (join (ch ";") after) w = (Returned ds2, ws2, w)
    /\ parse_devices (join (ch ";") (before ++ join (ch ":") tokens :: after)) w
       = (Returned (ds1 ++ (join (ch ":") [t0; t1; t2; t3; t4; t5], t6) :: ds2),
          ws1 ++ ws2, w)
    /\ parse_devices (lit "aa:bb:cc:dd:ee:ff:H6104:extra:more") w
       = (Returned [(lit "aa:bb:cc:dd:ee:ff", lit "H6104")], [], w).
Proof.
  intros tokens Hextra Hb Ha Htok Hstrip.
  apply both_free in Htok as [Hcolon Hsemi].
  split.
  { rewrite Hstrip, split_join by (assumption || discriminate).
    subst tokens. destruct extra; [congruence|]. simpl. lia. }
  destruct (parse_devices_around before after w Hb Ha)
    as (ds1 & ws1 & ds2 & ws2 & H1 & H2 & Hmid).
  exists ds1, ws1, ds2, ws2.
  split; [exact H1|]. split; [exact H2|]. split; [|reflexivity].
  rewrite (Hmid (join (ch ":") tokens)
             [(join (ch ":") [t0; t1; t2; t3; t4; t5], t6)] []).
  - reflexivity.
  - exact Hsemi.
  - intros out. now apply parse_chunk_tokens.
Qed.

End StaticConfig.

(** ** Discovery *)

Lemma has_key_lookup (k : str) (kv : list (str * json)) :
  has_key k kv = true <-> exists v, dict_lookup k kv = Some v.
Proof.
  unfold has_key. destruct (dict_lookup k kv) as [v|].
  - split; [now exists v|reflexivity].
  - split; [discriminate|intros (v & H); discriminate].
Qed.

(** The first test of the normaliser holds exactly on [nested] objects. *)
Lemma nested_test (kv : list (str * json)) :
  has_key (lit "data") kv && is_dict (dict_get kv (lit "data"))
  && contains (dict_get kv (lit "data")) (lit "devices") = true
  <-> nested kv.
Proof.
  unfold nested, has_key, dict_get, contains, has_key.
  destruct (dict_lookup (lit "data") kv) as [[| | | | |inner]|] eqn:E; simpl;
    try (split; [discriminate|intros (i & v & H & _); discriminate]).
  destruct (dict_lookup (lit "devices") inner) as [v|] eqn:E2.
  - split; [intros _; now exists inner, v|reflexivity].
  - split; [discriminate|]. intros (i & v & [= <-] & H). congruence.
Qed.

(** The second and third tests hold exactly when the key holds a list. *)
Lemma list_test (k : str) (kv : list (str * json)) :
  has_key k kv && is_list (dict_get kv k) = true
  <-> exists l, dict_lookup k kv = Some (JList l).
Proof.
  unfold has_key, dict_get.
  destruct (dict_lookup k kv) as [[| | | |l|]|]; simpl;
    try (split; [discriminate|intros (l' & H); discriminate]).
  split; [intros _; now exists l|reflexivity].
Qed.

Lemma list_test_false (k : str) (kv : list (str * json)) :
  (forall l, dict_lookup k kv <> Some (JList l)) ->
  has_key k kv && is_list (dict_get kv k) = false.
Proof.
  intros H. apply not_true_is_false. rewrite list_test.
  intros (l & Hl). exact (H l Hl).
Qed.

(** An [or]-chain over three keys takes the first truthy value. *)
Lemma or_chain (r : list (str * json)) (k1 k2 k3 : str) :
  let v := py_or (py_or (dict_get r k1) (dict_get r k2)) (dict_get r k3) in
  first_truthy r [k1; k2; k3] = if truthy v then Some v else None.
Proof.
  unfold py_or, dict_get. simpl.
  destruct (dict_lookup k1 r) as [v1|]; [destruct (truthy v1) eqn:E1|];
  (destruct (dict_lookup k2 r) as [v2|]; [destruct (truthy v2) eqn:E2|]);
  (destruct (dict_lookup k3 r) as [v3|]; [destruct (truthy v3) eqn:E3|]);
  simpl; rewrite ?E1, ?E2, ?E3; simpl; rewrite ?E1, ?E2, ?E3; reflexivity.
Qed.

Section DiscoveryRecords.

Context {World : Type}.

Lemma collect_device_run (d : json) (out : list (json * json)) (w : World) :
  collect_device d out w = (Returned (out ++ record_devices d), [], w).
Proof.
  unfold collect_device, record_devices, ret.
  destruct d as [| | | | |r]; try now rewrite app_nil_r.
  unfold id_keys, model_keys. rewrite !or_chain.
  set (device_id := py_or (py_or _ _) _).
  set (m := py_or (py_or (dict_get r (lit "model")) _) _).
  assert (Hm : truthy (py_or m (JStr [])) = truthy m
               /\ (truthy m = true -> py_or m (JStr []) = m)).
  { unfold py_or. destruct (truthy m) eqn:E; simpl; rewrite ?E;
      (split; [reflexivity|congruence]). }
  destruct Hm as [Hm1 Hm2]. rewrite Hm1.
  destruct (truthy device_id); destruct (truthy m) eqn:E; simpl;
    rewrite ?app_nil_r; try reflexivity.
  now rewrite Hm2.
Qed.

Lemma collect_devices_run (records : list json) (out : list (json * json))
  (w : World) :
  for_each records collect_device out w
  = (Returned (out ++ flat_map record_devices records), [], w).
Proof.
  revert out; induction records as [|d records IH]; intros out.
  - simpl. unfold ret. now rewrite app_nil_r.
  - simpl for_each. erewrite bind_returned by apply collect_device_run.
    rewrite IH. cbn [fst snd flat_map app]. now rewrite <- app_assoc.
Qed.

(** The normaliser takes what [picks] tells. *)
Lemma devices_raw_of_picks (data : json) (records : list json)
  (warnings : list line) (w : World) :
  picks data records warnings ->
  devices_raw_of data w = (Returned (JList records), map Print warnings, w).
Proof.
  intros H. destruct H as
    [kv inner l Hd Hv | kv inner v Hd Hv Hf | kv l Hn Hl | kv l Hnl Hl
    | l | kv Hn Hnl Hnd | data Hd Hl]; unfold devices_raw_of.
  - assert (T : nested kv) by (now exists inner, (JList l)).
    apply nested_test in T. rewrite T.
    unfold dict_get, item, dict_get. rewrite Hd, Hv.
    unfold py_or, ret. now destruct l.
  - assert (T : nested kv) by (now exists inner, v).
    apply nested_test in T. rewrite T.
    unfold dict_get, item, dict_get. rewrite Hd, Hv.
    unfold py_or, ret. now rewrite Hf.
  - assert (T : has_key (lit "data") kv && is_dict (dict_get kv (lit "data"))
                && contains (dict_get kv (lit "data")) (lit "devices") = false)
      by (apply not_true_is_false; now rewrite nested_test).
    rewrite T.
    assert (T2 : has_key (lit "devices") kv
                 && is_list (dict_get kv (lit "devices")) = true)
      by (apply list_test; now exists l).
    rewrite T2. unfold dict_get. now rewrite Hl.
  - assert (T : has_key (lit "data") kv && is_dict (dict_get kv (lit "data"))
                && contains (dict_get kv (lit "data")) (lit "devices") = false).
    { apply not_true_is_false. rewrite nested_test.
      intros (inner & v & H & _). congruence. }
    rewrite T, (list_test_false _ _ Hnl).
    assert (T3 : has_key (lit "data") kv
                 && is_list (dict_get kv (lit "data")) = true)
      by (apply list_test; now exists l).
    rewrite T3. unfold dict_get. now rewrite Hl.
  - reflexivity.
  - assert (T : has_key (lit "data") kv && is_dict (dict_get kv (lit "data"))
                && contains (dict_get kv (lit "data")) (lit "devices") = false)
      by (apply not_true_is_false; now rewrite nested_test).
    rewrite T, (list_test_false _ _ Hnl), (list_test_false _ _ Hnd).
    reflexivity.
  - destruct data; try discriminate; reflexivity.
Qed.

Variable get : World -> get_outcome * World.

(** C7, as the code has it.  From the body of the listing response the
    raw records are those of the first rule that applies: an object
    whose "data" is an object with a "devices" key gives that list (and
    no record, without a warning, when the value is null or otherwise
    falsy); else a top-level "devices" list; else a "data" list; a bare
    list gives itself; an object under none of these, and a value that
    is neither object nor list, give no record and one warning naming
    the keys or the type.  Each record that is an object with a truthy
    value under one of "device", "deviceId", "id" and one under "model",
    "sku", "productModel" gives the device of the first such values;
    every other record is dropped and the rest goes on. *)
Theorem discovery_normalization (data : json) (records : list json)
  (warnings : list line) (w w' : World) :
  get w = (GetBody data, w') ->
  picks data records warnings ->
  fetch_devices_from_api get w
  = (Returned (flat_map record_devices records),
     HttpGet :: map Print warnings, w').
Proof.
  intros Hget Hpick. unfold fetch_devices_from_api.
  assert (Hfetch :
    except_RequestException
      (bind (SESSION_get_json get) (fun data => ret (Some data)))
      (fun e => bind (print (WarnFetchFailed e)) (fun _ => ret None)) w
    = (Returned (Some data), [HttpGet], w')).
  { unfold except_RequestException, bind, SESSION_get_json, ret.
    now rewrite Hget. }
  assert (Hrest :
    bind (devices_raw_of data)
      (fun devices_raw =>
         bind (iterate devices_raw)
           (fun records => for_each records collect_device [])) w'
    = (Returned (flat_map record_devices records), map Print warnings, w')).
  { erewrite bind_returned by (apply devices_raw_of_picks; exact Hpick).
    unfold iterate. rewrite bind_ret_l, collect_devices_run.
    cbn [fst snd app]. now rewrite app_nil_r. }
  erewrite bind_returned by exact Hfetch.
  cbv beta iota. rewrite Hrest. reflexivity.
Qed.

End DiscoveryRecords.

(** ** The properties on concrete runs *)

Ltac free_of_tac :=
  repeat constructor; repeat split;
  cbv; intros H; repeat (destruct H as [H|H]); try discriminate H; try exact H.

Lemma govee_turn_all_aggregates_witness :
  let devices := two_lamps ++ two_lamps in
  let run := govee_turn_all put_flaky devices (lit "on") 0%nat in
  outcome run = Returned false
  /\ puts (trace run) = map (payload_of (lit "on")) devices
  /\ length (prints (trace run)) = 4%nat
  /\ world run = 4%nat.
Proof.
  intros devices run.
  destruct (govee_turn_all_aggregates put_flaky devices (lit "on") 0%nat)
    as (_ & _ & Hputs & _ & _ & _).
  split; [reflexivity|]. split; [exact Hputs|]. split; reflexivity.
Defined.

Lemma cooldown_gate_witness :
  let T1 := blit "LIGHTS_ON" ++ [CR; LF] in
  let T2 := blit "LIGHTS_OFF" ++ [LF] in
  TriggerDecoder T1 = Some ON /\ switch ON
  /\ TriggerDecoder T2 = Some OFF /\ switch OFF
  /\ in_cooldown 800 1000 initial_state = false
  /\ (0 < 300 < 800)%Z /\ (800 <= 800)%Z
  /\ exists st1,
       outcome (listen_once put_flaky two_lamps 800 T1 1000 initial_state 0%nat)
       = Returned st1
       /\ last_action_ms st1 = 1000%Z
       /\ listen_once put_flaky two_lamps 800 T2 1300 st1 2%nat
          = (Returned st1, [Print (SkipCooldown (lit "LIGHTS_OFF"))], 2%nat)
       /\ outcome (listen_once put_flaky two_lamps 800 T2 1800 st1 2%nat)
          = Returned (LoopState (Some false) 1800).
Proof.
  intros T1 T2.
  split; [reflexivity|]. split; [exact I|].
  split; [reflexivity|]. split; [exact I|].
  split; [reflexivity|]. split; [lia|]. split; [lia|].
  destruct (cooldown_gate put_flaky two_lamps 800 T1 T2 ON OFF 1000 300
              initial_state 0%nat eq_refl I eq_refl I eq_refl)
    as (st1 & H1 & H2 & H3 & _).
  destruct (cooldown_gate put_flaky two_lamps 800 T1 T2 ON OFF 1000 800
              initial_state 0%nat eq_refl I eq_refl I eq_refl)
    as (st1' & H1' & _ & _ & H4).
  assert (E : st1' = st1) by congruence. subst st1'.
  exists st1. split; [exact H1|]. split; [exact H2|]. split.
  - apply H3. lia.
  - apply H4. lia.
Defined.

(** C2 fails as stated: inside the cooldown window a line that is
    neither trigger string goes through the gate like any other and is
    printed as a cooldown skip, not as passthrough text.  Here the last
    action was at 1000, the window is 800, and "42cm" comes at 1100. *)
Lemma other_line_skipped_in_cooldown :
  let st := LoopState (Some true) 1000 in
  let turn := listen_once put_ok two_lamps 800 (blit "42cm" ++ [LF]) 1100 st tt in
  TriggerDecoder (blit "42cm" ++ [LF]) = Some (OTHER (lit "42cm"))
  /\ turn = (Returned st, [Print (SkipCooldown (lit "42cm"))], tt)
  /\ prints (trace turn) <> [Uart (lit "42cm")].
Proof.
  intros st turn. split; [reflexivity|]. split; [reflexivity|].
  vm_compute. discriminate.
Qed.

Lemma other_line_keeps_state_witness :
  let st := LoopState (Some true) 1000 in
  TriggerDecoder (blit "42cm" ++ [LF]) = Some (OTHER (lit "42cm"))
  /\ listen_once put_ok two_lamps 800 (blit "42cm" ++ [LF]) 1100 st tt
     = (Returned st, [Print (SkipCooldown (lit "42cm"))], tt)
  /\ listen_once put_ok two_lamps 800 (blit "42cm" ++ [LF]) 1800 st tt
     = (Returned st, [Print (Uart (lit "42cm"))], tt).
Proof.
  intros st. split; [reflexivity|]. split.
  - exact (other_line_keeps_state put_ok two_lamps 800 (blit "42cm" ++ [LF])
             (lit "42cm") 1100 st tt eq_refl).
  - exact (other_line_keeps_state put_ok two_lamps 800 (blit "42cm" ++ [LF])
             (lit "42cm") 1800 st tt eq_refl).
Defined.

Lemma cooldown_disabled_witness :
  let reads := [(blit "LIGHTS_ON" ++ [LF], 5%Z); (blit "LIGHTS_OFF" ++ [LF], 6%Z);
                (blit "42cm" ++ [LF], 6%Z)] in
  let run := listen put_ok two_lamps 0 reads initial_state tt in
  (0 <= 0)%Z
  /\ outcome run = Returned (LoopState (Some false) 6)
  /\ (forall m, ~ In (Print (SkipCooldown m)) (trace run))
  /\ length (puts (trace run)) = 4%nat.
Proof.
  intros reads run. split; [lia|].
  destruct (cooldown_disabled put_ok two_lamps 0 reads initial_state tt
              ltac:(lia)) as (_ & Hskip & _).
  split; [reflexivity|]. split; [exact Hskip|reflexivity].
Defined.


Lemma upper_latin1_nil (s : str) : upper_latin1 s = [] <-> s = [].
Proof.
  destruct s as [|c s]; [tauto|]. split; [|discriminate].
  unfold upper_latin1. cbn [flat_map]. unfold upper_latin1_char.
  repeat match goal with
         | |- context [if ?b then _ else _] => destruct b
         end; discriminate.
Qed.

Lemma upper_latin1_ascii (s : str) : ascii_text s -> upper_latin1 s = upper s.
Proof.
  induction 1 as [|c s Hc _ IH]; [reflexivity|].
  unfold upper_latin1, upper in *. cbn [flat_map map]. rewrite IH.
  replace (upper_latin1_char c) with [upper_char c]; [reflexivity|].
  unfold upper_latin1_char, upper_char.
  destruct ((0x61 <=? c) && (c <=? 0x7A))%N; [reflexivity|].
  destruct (c =? 0xB5)%N eqn:E1; [apply N.eqb_eq in E1; lia|].
  destruct (c =? 0xDF)%N eqn:E2; [apply N.eqb_eq in E2; lia|].
  destruct (c =? 0xFF)%N eqn:E3; [apply N.eqb_eq in E3; lia|].
  destruct (0xE0 <=? c)%N eqn:E4; [apply N.leb_le in E4; lia|].
  reflexivity.
Qed.

Lemma allow_list_filtering_witness :
  let devices :=
    [(JStr (lit "AA:01"), JStr [0xC9%N]); (JStr (lit "BB:02"), JStr [0xE9%N]);
     (JStr (lit "CC:03"), JStr (lit "h6006")); (JStr (lit "DD:04"), JNull)] in
  (forall s, upper_latin1 s = [] <-> s = [])
  /\ (forall s, ascii_text s -> upper_latin1 s = upper s)
  /\ Forall (fun dm => textual (snd dm) = true) devices
  /\ outcome (filter_allowed upper_latin1 (Some [0xE9%N]) devices tt)
     = Returned [(JStr (lit "AA:01"), JStr [0xC9%N]);
                 (JStr (lit "BB:02"), JStr [0xE9%N])]
  /\ outcome (filter_allowed upper_latin1 None devices tt)
     = Returned [(JStr (lit "CC:03"), JStr (lit "h6006"))]
  /\ outcome (filter_allowed upper_latin1 (Some (lit "  ")) devices tt)
     = Returned devices.
Proof.
  intros devices.
  assert (Hok : Forall (fun dm => textual (snd dm) = true) devices)
    by (repeat constructor).
  destruct (allow_list_filtering upper_latin1 upper_latin1_nil
              upper_latin1_ascii (Some [0xE9%N]) devices tt) as (He & _).
  destruct (allow_list_filtering upper_latin1 upper_latin1_nil
              upper_latin1_ascii None devices tt) as (Hd & _).
  destruct (allow_list_filtering upper_latin1 upper_latin1_nil
              upper_latin1_ascii (Some (lit "  ")) devices tt)
    as (_ & Hn & _).
  split; [exact upper_latin1_nil|]. split; [exact upper_latin1_ascii|].
  split; [exact Hok|].
  split; [exact (proj1 (He Hok))|]. split; [exact (proj1 (Hd Hok))|].
  exact (Hn eq_refl).
Defined.

Lemma static_config_parsing_witness :
  let entry := lit "aa:bb:cc:dd:ee:ff:H6104" in
  let next := lit "11:22:33:44:55:66:H6003" in
  Forall (free_of (ch ";")) [lit "bad"] /\ Forall (free_of (ch ";")) [next]
  /\ strip entry = entry
  /\ free_of (ch ";") (lit " x:y ") /\ strip (lit " x:y ") <> []
  /\ (length (split (ch ":") (strip (lit " x:y "))) < 7)%nat
  /\ parse_devices (lit "bad;aa:bb:cc:dd:ee:ff:H6104;11:22:33:44:55:66:H6003") tt
     = (Returned [(lit "aa:bb:cc:dd:ee:ff", lit "H6104");
                  (lit "11:22:33:44:55:66", lit "H6003")],
        [Print (WarnMalformedEntry (lit "bad"))], tt)
  /\ parse_devices (lit "bad; x:y ;11:22:33:44:55:66:H6003") tt
     = (Returned [(lit "11:22:33:44:55:66", lit "H6003")],
        [Print (WarnMalformedEntry (lit "bad"));
         Print (WarnMalformedEntry (lit "x:y"))], tt).
Proof.
  intros entry next.
  assert (Hb : Forall (free_of (ch ";")) [lit "bad"]) by free_of_tac.
  assert (Ha : Forall (free_of (ch ";")) [next]) by free_of_tac.
  assert (Htok : Forall (fun t => free_of (ch ":") t /\ free_of (ch ";") t)
                   [lit "aa"; lit "bb"; lit "cc"; lit "dd"; lit "ee"; lit "ff";
                    lit "H6104"]) by free_of_tac.
  assert (Hbad : free_of (ch ";") (lit " x:y ")) by free_of_tac.
  assert (Hne : strip (lit " x:y ") <> []) by (cbv; discriminate).
  assert (Hshort : (length (split (ch ":") (strip (lit " x:y "))) < 7)%nat)
    by (cbv; lia).
  destruct (static_config_parsing [lit "bad"] [next]
              (lit "aa") (lit "bb") (lit "cc") (lit "dd") (lit "ee") (lit "ff")
              (lit "H6104") (lit " x:y ") tt Hb Ha Htok eq_refl Hbad Hne Hshort)
    as (ds1 & ws1 & ds2 & ws2 & H1 & H2 & Hgood & Hmal & _ & _).
  change (parse_devices (join (ch ";") [lit "bad"]) tt)
    with (Returned (@nil Device), [Print (WarnMalformedEntry (lit "bad"))], tt)
    in H1.
  change (parse_devices (join (ch ";") [next]) tt)
    with (Returned [(lit "11:22:33:44:55:66", lit "H6003")],
          @nil event, tt) in H2.
  injection H1 as <- <-. injection H2 as <- <-.
  split; [exact Hb|]. split; [exact Ha|]. split; [reflexivity|].
  split; [exact Hbad|]. split; [exact Hne|]. split; [exact Hshort|].
  split; [exact Hgood|exact Hmal].
Defined.

Lemma extra_tokens_ignored_witness :
  let tokens := [lit "aa"; lit "bb"; lit "cc"; lit "dd"; lit "ee"; lit "ff";
                 lit "H6104"; lit "extra"; lit "more"] in
  [lit "extra"; lit "more"] <> []
  /\ strip (join (ch ":") tokens) = join (ch ":") tokens
  /\ (7 < length (split (ch ":") (lit "aa:bb:cc:dd:ee:ff:H6104:extra:more")))%nat
  /\ parse_devices (lit "aa:bb:cc:dd:ee:ff:H6104:extra:more") tt
     = (Returned [(lit "aa:bb:cc:dd:ee:ff", lit "H6104")], [], tt).
Proof.
  intros tokens.
  assert (Hextra : [lit "extra"; lit "more"] <> []) by discriminate.
  assert (Htok : Forall (fun t => free_of (ch ":") t /\ free_of (ch ";") t)
                   tokens) by free_of_tac.
  destruct (extra_tokens_ignored [] [] (lit "aa") (lit "bb") (lit "cc")
              (lit "dd") (lit "ee") (lit "ff") (lit "H6104")
              [lit "extra"; lit "more"] tt Hextra (Forall_nil _) (Forall_nil _)
              Htok eq_refl)
    as (Hlen & ds1 & ws1 & ds2 & ws2 & H1 & H2 & Hrun & _).
  change (parse_devices (join (ch ";") []) tt)
    with (Returned (@nil Device), @nil event, tt) in H1, H2.
  injection H1 as <- <-. injection H2 as <- <-.
  split; [exact Hextra|]. split; [reflexivity|]. split; [exact Hlen|exact Hrun].
Defined.

(** C7 fails as stated: a response whose nested "devices" is null is
    none of the four shapes, and the normaliser returns no device for
    it without printing a warning. *)
Lemma null_devices_without_warning :
  ~ listed_shape null_listing
  /\ fetch_devices_from_api (get_body null_listing) tt
     = (Returned [], [HttpGet], tt)
  /\ prints (trace (fetch_devices_from_api (get_body null_listing) tt)) = [].
Proof.
  split; [|split; reflexivity].
  unfold listed_shape, null_listing.
  intros [(kv & inner & l & E & Hd & Hv)|[(kv & l & E & H)|[(kv & l & E & H)
         |(l & E)]]]; try discriminate E;
    injection E as <-; try discriminate H.
  injection Hd as <-. discriminate Hv.
Qed.

Lemma discovery_normalization_witness :
  get_body nested_listing tt = (GetBody nested_listing, tt)
  /\ (exists records, picks nested_listing records [])
  /\ fetch_devices_from_api (get_body nested_listing) tt
     = (Returned [(JStr (lit "AA:01"), JStr (lit "H6006"));
                  (JStr (lit "BB:02"), JStr (lit "H6003"))],
        [HttpGet], tt)
  /\ fetch_devices_from_api (get_body null_listing) tt
     = (Returned [], [HttpGet], tt)
  /\ fetch_devices_from_api (get_body (JStr (lit "oops"))) tt
     = (Returned [], [HttpGet; Print (WarnShapeType str_t)], tt).
Proof.
  split; [reflexivity|]. split; [|split; [|split]].
  - eexists. eapply pick_nested; reflexivity.
  - refine (discovery_normalization (get_body nested_listing) nested_listing
              sample_records [] tt tt eq_refl _).
    eapply pick_nested; reflexivity.
  - refine (discovery_normalization (get_body null_listing) null_listing
              [] [] tt tt eq_refl _).
    eapply pick_nested_empty; reflexivity.
  - refine (discovery_normalization (get_body (JStr (lit "oops")))
              (JStr (lit "oops")) [] [WarnShapeType str_t] tt tt eq_refl _).
    exact (pick_other_type (JStr (lit "oops")) eq_refl eq_refl).
Defined.

(** * More properties of the script *)

(** ** Trimming *)

Lemma lstrip_snoc (l : str) (c : char) :
  isspace c = false -> lstrip (l ++ [c]) = lstrip l ++ [c].
Proof.
  intros Hc. induction l as [|x l IH]; simpl.
  - now rewrite Hc.
  - destruct (isspace x); [exact IH|reflexivity].
Qed.

Lemma lstrip_snoc_space (l : str) (c : char) :
  isspace c = true ->
  lstrip (l ++ [c]) = match lstrip l with [] => [] | _ => lstrip l ++ [c] end.
Proof.
  intros Hc. induction l as [|x l IH]; simpl.
  - now rewrite Hc.
  - destruct (isspace x); [exact IH|reflexivity].
Qed.

(** [rstrip], from the front. *)
Lemma rstrip_cons (c : char) (r : str) :
  rstrip (c :: r) =
  match rstrip r with
  | [] => if isspace c then [] else [c]
  | _ => c :: rstrip r
  end.
Proof.
  unfold rstrip. simpl rev. destruct (isspace c) eqn:Hc.
  - rewrite lstrip_snoc_space by assumption.
    destruct (lstrip (rev r)) as [|x l] eqn:E; [reflexivity|].
    rewrite rev_app_distr. simpl. destruct (rev l ++ [x]) eqn:E2; [|reflexivity].
    now destruct (rev l).
  - rewrite lstrip_snoc by assumption. rewrite rev_app_distr. simpl.
    now destruct (rev (lstrip (rev r))).
Qed.

Lemma lstrip_blank_app (ws s : str) : blank ws -> lstrip (ws ++ s) = lstrip s.
Proof.
  induction 1 as [|c ws Hc _ IH]; simpl; [reflexivity|]. now rewrite Hc.
Qed.

Lemma rstrip_blank (ws : str) : blank ws -> rstrip ws = [].
Proof.
  induction 1 as [|c ws Hc _ IH]; [reflexivity|].
  now rewrite rstrip_cons, IH, Hc.
Qed.

Lemma rstrip_app_blank (s ws : str) : blank ws -> rstrip (s ++ ws) = rstrip s.
Proof.
  intros Hw. induction s as [|c s IH]; simpl app.
  - now apply rstrip_blank.
  - now rewrite !rstrip_cons, IH.
Qed.

Lemma lstrip_head (s : str) :
  match lstrip s with [] => True | c :: _ => isspace c = false end.
Proof.
  induction s as [|x s IH]; simpl; [exact I|].
  destruct (isspace x) eqn:Hx; [exact IH|exact Hx].
Qed.

Lemma rstrip_keeps_head (c : char) (r : str) :
  isspace c = false -> rstrip (c :: r) = c :: rstrip r.
Proof.
  intros Hc. rewrite rstrip_cons, Hc. now destruct (rstrip r).
Qed.

Lemma rstrip_last (s : str) (d : char) :
  rstrip s <> [] -> isspace (last (rstrip s) d) = false.
Proof.
  induction s as [|c s IH]; [intros H; now contradiction H|].
  rewrite rstrip_cons. destruct (rstrip s) as [|x l] eqn:E.
  - destruct (isspace c) eqn:Hc; [intros H; now contradiction H|].
    intros _. exact Hc.
  - intros _. change (last (c :: x :: l) d) with (last (x :: l) d).
    apply IH. discriminate.
Qed.

Lemma rstrip_trimmed (s : str) (d : char) :
  s <> [] -> isspace (last s d) = false -> rstrip s = s.
Proof.
  induction s as [|c s IH]; [intros H; now contradiction H|].
  intros _ Hl. rewrite rstrip_cons. destruct s as [|x l].
  - simpl in *. now rewrite Hl.
  - change (last (c :: x :: l) d) with (last (x :: l) d) in Hl.
    rewrite IH by (assumption || discriminate). reflexivity.
Qed.

(** What [strip] returns neither starts nor ends with whitespace. *)
Lemma strip_trimmed (s : str) : trimmed (strip s).
Proof.
  unfold strip. pose proof (lstrip_head s) as Hh.
  destruct (lstrip s) as [|c r]; [exact I|].
  rewrite rstrip_keeps_head by assumption. unfold trimmed.
  split; [assumption|].
  rewrite <- rstrip_keeps_head by assumption.
  apply rstrip_last. rewrite rstrip_keeps_head by assumption. discriminate.
Qed.

(** [strip] leaves a trimmed string as it is. *)
Lemma strip_of_trimmed (s : str) : trimmed s -> strip s = s.
Proof.
  destruct s as [|c r]; [reflexivity|]. intros [Hc Hl].
  unfold strip. simpl lstrip. rewrite Hc.
  now apply (rstrip_trimmed (c :: r) c).
Qed.

Lemma strip_blank (ws : str) : blank ws -> strip ws = [].
Proof.
  intros H. unfold strip.
  rewrite <- (app_nil_r ws), lstrip_blank_app by assumption. reflexivity.
Qed.

(** Whitespace around a trimmed text is all [strip] removes. *)
Lemma strip_padded (ws1 body ws2 : str) :
  blank ws1 -> blank ws2 -> trimmed body -> strip (ws1 ++ body ++ ws2) = body.
Proof.
  intros H1 H2 Hb. unfold strip. rewrite lstrip_blank_app by assumption.
  destruct body as [|c r].
  - simpl app. rewrite <- (app_nil_r ws2), lstrip_blank_app by assumption.
    reflexivity.
  - destruct Hb as [Hc Hl]. simpl. rewrite Hc.
    change (c :: r ++ ws2) with ((c :: r) ++ ws2).
    rewrite rstrip_app_blank by assumption.
    now apply (rstrip_trimmed (c :: r) c).
Qed.

Lemma decode_ascii_all (bs : bytes) :
  Forall ascii_byte bs -> decode_utf8_ignore bs = map Byte.to_N bs.
Proof.
  intros H. rewrite <- (app_nil_r bs) at 1.
  rewrite decode_ascii_app by assumption. simpl. apply app_nil_r.
Qed.

(** X1.  Whatever bytes the port delivers, the text the loop compares
    with the trigger strings is trimmed: it neither starts nor ends with
    whitespace, and trimming it again changes nothing. *)
Theorem normalize_line_trimmed (raw : bytes) :
  trimmed (normalize_line raw)
  /\ strip (normalize_line raw) = normalize_line raw.
Proof.
  unfold normalize_line. split; [apply strip_trimmed|].
  apply strip_of_trimmed, strip_trimmed.
Qed.

(** X2.  ASCII whitespace and line endings around an ASCII text do not
    matter: the line normalizes to the text itself.  So the trigger
    strings are recognised with any such padding. *)
Theorem normalize_line_padding (ws1 body ws2 : bytes) :
  Forall space_byte ws1 -> Forall space_byte ws2 ->
  Forall ascii_byte body -> trimmed (map Byte.to_N body) ->
  normalize_line (ws1 ++ body ++ ws2) = map Byte.to_N body
  /\ TriggerDecoder (ws1 ++ blit "LIGHTS_ON" ++ ws2) = Some ON
  /\ TriggerDecoder (ws1 ++ blit "LIGHTS_OFF" ++ ws2) = Some OFF.
Proof.
  intros H1 H2 Hbody Htrim.
  assert (Hpad : forall b, Forall ascii_byte b -> trimmed (map Byte.to_N b) ->
            normalize_line (ws1 ++ b ++ ws2) = map Byte.to_N b).
  { intros b Hb Ht. unfold normalize_line.
    assert (A1 : Forall ascii_byte ws1)
      by (eapply Forall_impl; [|exact H1]; now intros x [_ Hx]).
    assert (A2 : Forall ascii_byte ws2)
      by (eapply Forall_impl; [|exact H2]; now intros x [_ Hx]).
    rewrite decode_ascii_all
      by (apply Forall_app; split; [|apply Forall_app; split]; assumption).
    rewrite !map_app. apply strip_padded; [| |assumption].
    - unfold blank. rewrite Forall_map.
      eapply Forall_impl; [|exact H1]. now intros x [Hx _].
    - unfold blank. rewrite Forall_map.
      eapply Forall_impl; [|exact H2]. now intros x [Hx _]. }
  split; [now apply Hpad|].
  split.
  - unfold TriggerDecoder. fold (normalize_line (ws1 ++ blit "LIGHTS_ON" ++ ws2)).
    rewrite Hpad; [reflexivity|repeat constructor; reflexivity|].
    split; reflexivity.
  - unfold TriggerDecoder. fold (normalize_line (ws1 ++ blit "LIGHTS_OFF" ++ ws2)).
    rewrite Hpad; [reflexivity|repeat constructor; reflexivity|].
    split; reflexivity.
Qed.

(** ** Decoding what was encoded *)

Ltac div_lia := zify; Z.to_euclidean_division_equations; lia.

Lemma to_N_byte_of (n : N) : (n < 256)%N -> Byte.to_N (byte_of n) = n.
Proof.
  intros H. unfold byte_of. destruct (Byte.of_N n) as [b|] eqn:E.
  - now apply Byte.to_of_N.
  - apply Byte.of_N_None_iff in E. lia.
Qed.

Ltac decide_tests :=
  repeat match goal with
    | |- context [(?a <? ?b)%N] =>
        let H := fresh in
        destruct (N.ltb_spec a b) as [H|H]; try (exfalso; div_lia)
    | |- context [(?a <=? ?b)%N] =>
        let H := fresh in
        destruct (N.leb_spec a b) as [H|H]; try (exfalso; div_lia)
    | |- context [(?a =? ?b)%N] =>
        let H := fresh in
        destruct (N.eqb_spec a b) as [H|H]; try (exfalso; div_lia)
    end.

(** The decoder reads back one encoded scalar value. *)
Lemma decode_encode_char (c : char) (rest : bytes) :
  scalar c ->
  decode_utf8_ignore (encode_utf8_char c ++ rest) = c :: decode_utf8_ignore rest.
Proof.
  unfold scalar, encode_utf8_char. intros Hc.
  destruct (N.ltb_spec c 0x80) as [H1|H1];
    [|destruct (N.ltb_spec c 0x800) as [H2|H2];
      [|destruct (N.ltb_spec c 0x10000) as [H3|H3]]];
    cbn [app]; unfold decode_utf8_ignore; fold decode_utf8_ignore; cbv zeta;
    unfold is_continuation;
    rewrite !to_N_byte_of by div_lia;
    decide_tests; cbn [andb orb negb]; f_equal; div_lia.
Qed.

Lemma decode_encode_app (s : str) (rest : bytes) :
  Forall scalar s ->
  decode_utf8_ignore (encode_utf8 s ++ rest) = s ++ decode_utf8_ignore rest.
Proof.
  unfold encode_utf8. induction 1 as [|c s Hc _ IH]; [reflexivity|].
  simpl flat_map. rewrite <- app_assoc, decode_encode_char by assumption.
  simpl. now rewrite IH.
Qed.

(** X3.  Valid UTF-8 is decoded exactly: the UTF-8 encoding of any
    string of Unicode scalar values decodes to that string, so the line
    normalizes to the string trimmed; and a byte that starts no sequence,
    put between two encoded strings, is dropped without a trace. *)
Theorem normalize_line_utf8 (s s' : str) (b : byte) :
  Forall scalar s -> Forall scalar s' -> invalid_start b ->
  decode_utf8_ignore (encode_utf8 s) = s
  /\ normalize_line (encode_utf8 s) = strip s
  /\ decode_utf8_ignore (encode_utf8 s ++ b :: encode_utf8 s') = s ++ s'.
Proof.
  intros Hs Hs' Hb.
  assert (H : forall x, Forall scalar x -> decode_utf8_ignore (encode_utf8 x) = x).
  { intros x Hx. rewrite <- (app_nil_r (encode_utf8 x)).
    rewrite decode_encode_app by assumption. apply app_nil_r. }
  split; [now apply H|]. split.
  - unfold normalize_line. now rewrite H.
  - rewrite decode_encode_app by assumption.
    rewrite decode_invalid_start by assumption. now rewrite H.
Qed.

(** ** More on the static configuration *)

Lemma split_tokens_free (sep : char) (s : str) :
  Forall (free_of sep) (split sep s).
Proof.
  unfold free_of. induction s as [|c r IH]; simpl.
  - repeat constructor. tauto.
  - destruct (N.eqb_spec c sep) as [->|Hc].
    + constructor; [simpl; tauto|exact IH].
    + destruct (split sep r) as [|t ts]; [repeat constructor; simpl; intuition|].
      inversion_clear IH as [|? ? Ht Hts]. constructor; [|assumption].
      simpl. intros [?|?]; [congruence|tauto].
Qed.

(** A character of a token is a character of the string split. *)
Lemma split_sub (sep c : char) (s t : str) :
  In t (split sep s) -> In c t -> In c s.
Proof.
  revert t; induction s as [|x r IH]; simpl; intros t Ht Hc.
  - destruct Ht as [<-|[]]. exact Hc.
  - destruct (x =? sep)%N.
    + destruct Ht as [<-|Ht]; [contradiction|]. right. now apply (IH t).
    + destruct (split sep r) as [|t0 ts] eqn:E.
      * destruct Ht as [<-|[]]. destruct Hc as [->|[]]. now left.
      * destruct Ht as [<-|Ht].
        -- destruct Hc as [->|Hc]; [now left|]. right. apply (IH t0); simpl; auto.
        -- right. apply (IH t); simpl; auto.
Qed.

Lemma lstrip_sub (c : char) (s : str) : In c (lstrip s) -> In c s.
Proof.
  induction s as [|x r IH]; simpl; [tauto|].
  destruct (isspace x); [intros H; right; auto|simpl; tauto].
Qed.

Lemma strip_sub (c : char) (s : str) : In c (strip s) -> In c s.
Proof.
  unfold strip, rstrip. rewrite <- in_rev. intros H.
  apply lstrip_sub in H. rewrite <- in_rev in H. now apply lstrip_sub.
Qed.

Lemma join_cons (sep : char) (t : str) (ts : list str) :
  join sep (t :: ts)
  = t ++ match ts with [] => [] | _ => sep :: join sep ts end.
Proof. destruct ts; simpl; [now rewrite app_nil_r|reflexivity]. Qed.

Lemma join_app (sep : char) (xs ys : list str) :
  xs <> [] -> ys <> [] ->
  join sep (xs ++ ys) = join sep xs ++ sep :: join sep ys.
Proof.
  induction xs as [|x xs IH]; [congruence|]. intros _ Hy.
  destruct xs as [|x' xs'].
  - simpl app. rewrite join_cons. destruct ys; [congruence|reflexivity].
  - change ((x :: x' :: xs') ++ ys) with (x :: (x' :: xs') ++ ys).
    rewrite (join_cons sep x ((x' :: xs') ++ ys)).
    rewrite IH by (assumption || discriminate).
    change (join sep (x :: x' :: xs')) with (x ++ sep :: join sep (x' :: xs')).
    simpl app at 1. now rewrite <- app_assoc.
Qed.

(** [join] undoes [split]. *)
Lemma join_split (sep : char) (s : str) : join sep (split sep s) = s.
Proof.
  induction s as [|c r IH]; cbn [split]; [reflexivity|].
  destruct (N.eqb_spec c sep) as [E0|Hc].
  - subst c. rewrite join_cons.
    destruct (split sep r) as [|t ts] eqn:E;
      [now destruct (split_not_nil sep r)|].
    simpl. f_equal. exact IH.
  - destruct (split sep r) as [|t ts] eqn:E;
      [now destruct (split_not_nil sep r)|].
    change (join sep ((c :: t) :: ts) = c :: r).
    etransitivity; [apply join_cons|].
    rewrite <- IH. etransitivity; [|symmetry; apply f_equal, join_cons].
    reflexivity.
Qed.

Lemma count_char_app (c : char) (a b : str) :
  count_char c (a ++ b) = (count_char c a + count_char c b)%nat.
Proof. unfold count_char. now rewrite filter_app, length_app. Qed.

Lemma count_char_free (c : char) (t : str) : free_of c t -> count_char c t = 0%nat.
Proof.
  unfold free_of, count_char. induction t as [|x r IH]; simpl; [reflexivity|].
  intros H. destruct (N.eqb_spec c x) as [->|_]; [exfalso; auto|]. apply IH. tauto.
Qed.

Lemma count_char_join (sep : char) (tokens : list str) :
  Forall (free_of sep) tokens ->
  count_char sep (join sep tokens) = pred (length tokens).
Proof.
  induction 1 as [|t ts Ht Hts IH]; [reflexivity|].
  rewrite join_cons, count_char_app, (count_char_free sep t Ht).
  destruct ts as [|t' ts']; [reflexivity|].
  change (sep :: join sep (t' :: ts')) with ([sep] ++ join sep (t' :: ts')).
  rewrite count_char_app, IH. unfold count_char. simpl filter.
  rewrite N.eqb_refl. reflexivity.
Qed.

Lemma join_sub (sep c : char) (tokens : list str) :
  In c (join sep tokens) -> c = sep \/ exists t, In t tokens /\ In c t.
Proof.
  induction tokens as [|t ts IH]; [simpl; tauto|].
  rewrite join_cons, in_app_iff. intros [H|H].
  - right. exists t. simpl. auto.
  - destruct ts as [|t' ts']; [contradiction|].
    destruct H as [H|H]; [now left|].
    destruct (IH H) as [?|(u & Hu & Hc)]; [now left|].
    right. exists u. simpl in *. tauto.
Qed.

Lemma firstn_sub {A} (n : nat) (l : list A) (x : A) :
  In x (firstn n l) -> In x l.
Proof.
  intros H. rewrite <- (firstn_skipn n l). apply in_or_app. now left.
Qed.

Lemma seventh_token {A} (parts : list A) (d : A) :
  (7 <= length parts)%nat ->
  parts = firstn 6 parts ++ nth 6 parts d :: skipn 7 parts.
Proof.
  intros Hlen. rewrite <- (firstn_skipn 6 parts) at 1. f_equal.
  rewrite <- (Nat.add_0_r 6) at 2. rewrite <- nth_skipn.
  change 7%nat with (1 + 6)%nat. rewrite <- skipn_skipn.
  destruct (skipn 6 parts) as [|x l] eqn:E; [|reflexivity].
  apply (f_equal (@length _)) in E. rewrite length_skipn in E. simpl in E. lia.
Qed.

Section StaticConfigMore.

Context {World : Type}.

(** What an entry adds does not depend on what was collected before it
    nor on the world. *)
Lemma parse_chunk_at (chunk : str) (out : list Device) (w : World) :
  parse_chunk chunk out w
  = (Returned (out ++ entry_devices chunk), entry_lines chunk, w).
Proof.
  unfold entry_devices, entry_lines, returned_list, trace.
  destruct (strip chunk) as [|c m] eqn:E.
  - rewrite !parse_chunk_blank by assumption. simpl. now rewrite app_nil_r.
  - destruct (Nat.lt_ge_cases (length (split (ch ":") (strip chunk))) 7)
      as [Hlen|Hlen].
    + rewrite !parse_chunk_short by (assumption || congruence).
      simpl. now rewrite app_nil_r.
    + rewrite !parse_chunk_long by (assumption || congruence). reflexivity.
Qed.

Lemma parse_chunks_at (chunks : list str) (out : list Device) (w : World) :
  for_each chunks parse_chunk out w
  = (Returned (out ++ flat_map entry_devices chunks),
     flat_map entry_lines chunks, w).
Proof.
  revert out; induction chunks as [|c cs IH]; intros out.
  - simpl. unfold ret. now rewrite app_nil_r.
  - simpl for_each. erewrite bind_returned by apply parse_chunk_at.
    rewrite IH. cbn [fst snd flat_map]. now rewrite <- app_assoc.
Qed.

(** The devices and lines of a string are those of its entries, in order. *)
Lemma parse_devices_flat (s : str) (w : World) :
  parse_devices s w
  = (Returned (flat_map entry_devices (split (ch ";") s)),
     flat_map entry_lines (split (ch ";") s), w).
Proof. rewrite parse_devices_split. apply parse_chunks_at. Qed.

Lemma entry_cases (entry : str) :
  (strip entry = [] /\ entry_devices entry = [] /\ entry_lines entry = [])
  \/ (strip entry <> []
      /\ (length (split (ch ":") (strip entry)) < 7)%nat
      /\ entry_devices entry = []
      /\ entry_lines entry = [Print (WarnMalformedEntry (strip entry))])
  \/ (strip entry <> []
      /\ (7 <= length (split (ch ":") (strip entry)))%nat
      /\ entry_devices entry
         = [(join (ch ":") (firstn 6 (split (ch ":") (strip entry))),
             nth 6 (split (ch ":") (strip entry)) [])]
      /\ entry_lines entry = []).
Proof.
  unfold entry_devices, entry_lines, returned_list, trace.
  destruct (strip entry) as [|c m] eqn:E.
  - left. rewrite !parse_chunk_blank by assumption. auto.
  - right. rewrite <- E.
    assert (Hne : strip entry <> []) by congruence.
    destruct (Nat.lt_ge_cases (length (split (ch ":") (strip entry))) 7)
      as [Hlen|Hlen].
    + left. rewrite !parse_chunk_short by assumption. auto.
    + right. rewrite !parse_chunk_long by assumption. auto.
Qed.

(** X4.  Nothing is lost and nothing is made up: for every string, the
    devices returned and the warnings printed together are as many as
    the entries that are not blank (each gives one device or one
    warning); only malformed-entry warnings are printed, and the world
    is left alone. *)
Theorem parse_devices_accounts (s : str) (w : World) :
  let run := parse_devices s w in
  (length (returned_list run) + length (trace run)
   = length (filter nonblank (split (ch ";") s)))%nat
  /\ outcome run = Returned (returned_list run)
  /\ Forall malformed_warning (trace run)
  /\ world run = w.
Proof.
  intros run. subst run. rewrite parse_devices_flat.
  unfold returned_list, outcome, trace, world. cbn [fst snd].
  split; [|split; [reflexivity|split; [|reflexivity]]].
  - induction (split (ch ";") s) as [|c cs IH]; [reflexivity|].
    cbn [flat_map filter]. rewrite !length_app.
    unfold nonblank at 1.
    destruct (entry_cases c) as [(E & -> & ->)|[(E & _ & -> & ->)|(E & _ & -> & ->)]].
    + rewrite E. simpl. exact IH.
    + destruct (strip c); [congruence|]. simpl. lia.
    + destruct (strip c); [congruence|]. simpl. lia.
  - rewrite Forall_flat_map. apply Forall_forall. intros c _.
    destruct (entry_cases c) as [(_ & _ & ->)|[(_ & _ & _ & ->)|(_ & _ & _ & ->)]];
      repeat constructor. now eexists.
Qed.

(** X5.  Every device [parse_devices] returns has an identifier with
    exactly five colons (six tokens) and a model without a colon, and
    neither holds a semicolon: this for every input string. *)
Theorem parse_devices_shape (s : str) (w : World) :
  Forall (fun dm =>
            count_char (ch ":") (fst dm) = 5%nat
            /\ free_of (ch ":") (snd dm)
            /\ free_of (ch ";") (fst dm)
            /\ free_of (ch ";") (snd dm))
         (returned_list (parse_devices s w)).
Proof.
  rewrite parse_devices_flat. unfold returned_list. cbn [fst snd].
  rewrite Forall_flat_map. apply Forall_forall. intros c Hc.
  assert (Hsemi : free_of (ch ";") (strip c)).
  { pose proof (split_tokens_free (ch ";") s) as H.
    rewrite Forall_forall in H. intros Hin. apply (H c Hc).
    now apply strip_sub. }
  destruct (entry_cases c) as [(_ & -> & _)|[(_ & _ & -> & _)|(_ & Hlen & -> & _)]];
    try constructor; [|constructor].
  set (parts := split (ch ":") (strip c)) in *.
  assert (Hfree : Forall (free_of (ch ":")) parts)
    by apply split_tokens_free.
  assert (Hpart : forall t x, In t parts -> In x t -> In x (strip c))
    by (intros t x Ht Hx; now apply (split_sub (ch ":") x (strip c) t)).
  cbn [fst snd]. split; [|split; [|split]].
  - rewrite count_char_join.
    + rewrite length_firstn. lia.
    + rewrite Forall_forall in *. intros t Ht. apply Hfree.
      now apply (firstn_sub 6).
  - rewrite Forall_forall in Hfree. apply Hfree. apply nth_In. lia.
  - intros Hin. apply join_sub in Hin as [Hin|(t & Ht & Hx)]; [discriminate|].
    apply Hsemi. apply (Hpart t); [|assumption].
    now apply (firstn_sub 6).
  - intros Hin. apply Hsemi. apply (Hpart (nth 6 parts [])); [|assumption].
    apply nth_In. lia.
Qed.

(** X6.  Every device comes from the text: for each device (d, m)
    returned there is an entry of the string whose trimmed text is
    d:m, or starts with d:m followed by a colon. *)
Theorem parse_devices_provenance (s : str) (w : World) (d m : str) :
  In (d, m) (returned_list (parse_devices s w)) ->
  exists entry rest,
    In entry (split (ch ";") s)
    /\ strip entry = d ++ ch ":" :: m ++ rest
    /\ (rest = [] \/ exists r, rest = ch ":" :: r).
Proof.
  rewrite parse_devices_flat. unfold returned_list. cbn [fst snd].
  rewrite in_flat_map. intros (c & Hc & Hin).
  destruct (entry_cases c) as [(_ & E & _)|[(_ & _ & E & _)|(_ & Hlen & E & _)]];
    rewrite E in Hin; try contradiction.
  destruct Hin as [[= <- <-]|[]].
  set (parts := split (ch ":") (strip c)) in *.
  exists c.
  assert (Hparts : parts = firstn 6 parts ++ nth 6 parts [] :: skipn 7 parts)
    by (now apply seventh_token).
  assert (Hjoin : strip c = join (ch ":") parts)
    by (symmetry; apply join_split).
  rewrite Hparts in Hjoin.
  rewrite join_app in Hjoin.
  - rewrite join_cons in Hjoin.
    eexists. split; [exact Hc|]. split; [exact Hjoin|].
    destruct (skipn 7 parts); [now left|right; eexists; reflexivity].
  - intros H. apply (f_equal (@length _)) in H.
    rewrite length_firstn in H. cbn [length] in H. lia.
  - discriminate.
Qed.

(** X7.  A string of nothing but whitespace and semicolons (the empty
    string too) gives no device and no warning. *)
Theorem parse_devices_blank (s : str) (w : World) :
  Forall (fun c => isspace c = true \/ c = ch ";") s ->
  parse_devices s w = (Returned [], [], w).
Proof.
  intros H. rewrite parse_devices_flat.
  assert (Hblank : Forall blank (split (ch ";") s)).
  { induction H as [|c r Hc _ IH]; cbn [split]; [repeat constructor|].
    destruct (N.eqb_spec c (ch ";")) as [->|Hne].
    - constructor; [constructor|exact IH].
    - destruct Hc as [Hc|Hc]; [|congruence].
      destruct (split (ch ";") r) as [|t ts]; [repeat constructor; assumption|].
      inversion_clear IH as [|? ? Ht Hts].
      constructor; [now constructor|assumption]. }
  assert (Hnone : forall c, blank c ->
            entry_devices c = [] /\ entry_lines c = []).
  { intros c Hc. apply strip_blank in Hc.
    destruct (entry_cases c) as [(_ & E1 & E2)|[(E & _)|(E & _)]];
      [auto|congruence|congruence]. }
  induction Hblank as [|c cs Hc _ IH]; [reflexivity|].
  cbn [flat_map]. destruct (Hnone c Hc) as [-> ->].
  exact IH.
Qed.

End StaticConfigMore.

(** ** More on the dispatcher *)

Section DispatcherMore.

Context {World : Type}.
Variable put : World -> payload -> put_outcome * World.

Lemma govee_turn_all_run (devices : list Device) (value : str) (w : World) :
  govee_turn_all put devices value w =
  (Returned (forallb succeeded
               (fst (answers put w (map (payload_of value) devices)))),
   flat_map (device_events value)
     (combine devices (fst (answers put w (map (payload_of value) devices)))),
   snd (answers put w (map (payload_of value) devices))).
Proof. unfold govee_turn_all. now rewrite turn_all_run. Qed.

(** X8.  Sending to a registry [xs ++ ys] is sending to [xs] and then to
    [ys] from the world [xs] left: the traces follow each other, and the
    result is the conjunction of the two results.  So what happens with
    the first devices does not depend on the devices after them, and a
    failure among the first does not stop the rest. *)
Theorem govee_turn_all_app (xs ys : list Device) (value : str) (w : World) :
  let first := govee_turn_all put xs value w in
  let second := govee_turn_all put ys value (world first) in
  exists ok1 ok2,
    outcome first = Returned ok1
    /\ outcome second = Returned ok2
    /\ govee_turn_all put (xs ++ ys) value w
       = (Returned (ok1 && ok2), trace first ++ trace second, world second).
Proof.
  intros first second. subst second first.
  rewrite (govee_turn_all_run xs).
  unfold outcome, trace, world. cbn [fst snd].
  rewrite (govee_turn_all_run ys). cbn [fst snd].
  eexists _, _. split; [reflexivity|]. split; [reflexivity|].
  unfold govee_turn_all. rewrite for_each_app.
  erewrite bind_returned by apply turn_all_run.
  rewrite turn_all_run. cbn [fst snd]. reflexivity.
Qed.

End DispatcherMore.

(** ** More on discovery *)

Lemma first_truthy_truthy (r : list (str * json)) (keys : list str) (v : json) :
  first_truthy r keys = Some v -> truthy v = true.
Proof.
  induction keys as [|k ks IH]; simpl; [discriminate|].
  destruct (dict_lookup k r) as [x|]; [|exact IH].
  destruct (truthy x) eqn:E; [|exact IH]. now intros [= <-].
Qed.

(** A record gives at most one device, and its identifier and model are
    truthy values the record holds under the keys. *)
Lemma record_devices_truthy (d : json) (i m : json) :
  In (i, m) (record_devices d) ->
  truthy i = true /\ truthy m = true
  /\ exists r, d = JDict r /\ first_truthy r id_keys = Some i
               /\ first_truthy r model_keys = Some m.
Proof.
  unfold record_devices. destruct d as [| | | | |r]; try contradiction.
  destruct (first_truthy r id_keys) as [i'|] eqn:Ei; [|contradiction].
  destruct (first_truthy r model_keys) as [m'|] eqn:Em; [|contradiction].
  intros [[= <- <-]|[]].
  split; [now apply first_truthy_truthy in Ei|].
  split; [now apply first_truthy_truthy in Em|].
  now exists r.
Qed.

Lemma no_devices_from_strings (l : list str) :
  flat_map record_devices (map JStr l) = [].
Proof. induction l as [|s l IH]; [reflexivity|exact IH]. Qed.

Lemma no_devices_from_chars (s : str) :
  flat_map record_devices (map (fun c => JStr [c]) s) = [].
Proof. induction s as [|c s IH]; [reflexivity|exact IH]. Qed.

Section DiscoveryMore.

Context {World : Type}.

(** What the normaliser returns: under a nested "devices" key the value
    found there (or the empty list for a falsy one), without a line;
    else always a list. *)
Lemma devices_raw_of_cases (data : json) (w : World) :
  match nested_devices data with
  | Some v => devices_raw_of data w = (Returned (py_or v (JList [])), [], w)
  | None =>
      exists l t, Forall printed t
                  /\ devices_raw_of data w = (Returned (JList l), t, w)
  end.
Proof.
  assert (Hp : forall l, printed (Print l)) by (intros l; now exists l).
  unfold nested_devices, devices_raw_of.
  destruct data as [| | | |l|kv];
    try (eexists _, _; split; [|reflexivity]; repeat constructor; apply Hp).
  destruct (dict_lookup (lit "data") kv) as [dv|] eqn:Ed.
  - assert (Hk : has_key (lit "data") kv = true)
      by (unfold has_key; now rewrite Ed).
    assert (Hg : dict_get kv (lit "data") = dv)
      by (unfold dict_get; now rewrite Ed).
    rewrite Hk, Hg.
    destruct dv as [| | | |dl|inner]; cbn [is_dict is_list andb];
      try (destruct (has_key (lit "devices") kv
                     && is_list (dict_get kv (lit "devices"))) eqn:T;
           [apply list_test in T as (l' & Hl'); unfold dict_get; rewrite Hl';
            exists l', []; split; [constructor|reflexivity]
           |eexists _, _; split; [|reflexivity]; repeat constructor; apply Hp]).
    cbn [contains item].
    destruct (dict_lookup (lit "devices") inner) as [v|] eqn:Ev.
    + assert (Hk2 : has_key (lit "devices") inner = true)
        by (unfold has_key; now rewrite Ev).
      assert (Hg2 : dict_get inner (lit "devices") = v)
        by (unfold dict_get; now rewrite Ev).
      now rewrite Hk2, Hg2.
    + assert (Hk2 : has_key (lit "devices") inner = false)
        by (unfold has_key; now rewrite Ev).
      rewrite Hk2.
      destruct (has_key (lit "devices") kv
                && is_list (dict_get kv (lit "devices"))) eqn:T.
      * apply list_test in T as (l' & Hl'). unfold dict_get. rewrite Hl'.
        exists l', []. split; [constructor|reflexivity].
      * eexists _, _. split; [|reflexivity]. repeat constructor. apply Hp.
  - assert (Hk : has_key (lit "data") kv = false)
      by (unfold has_key; now rewrite Ed).
    rewrite Hk. cbn [andb].
    destruct (has_key (lit "devices") kv
              && is_list (dict_get kv (lit "devices"))) eqn:T.
    + apply list_test in T as (l' & Hl'). unfold dict_get. rewrite Hl'.
      exists l', []. split; [constructor|reflexivity].
    + eexists _, _. split; [|reflexivity]. repeat constructor. apply Hp.
Qed.

Variable get : World -> get_outcome * World.

Lemma fetch_request (w : World) :
  except_RequestException
    (bind (SESSION_get_json get) (fun data => ret (Some data)))
    (fun e => bind (print (WarnFetchFailed e)) (fun _ => ret None)) w
  = match fst (get w) with
    | GetBody data => (Returned (Some data), [HttpGet], snd (get w))
    | GetFailed e =>
        (Returned None, [HttpGet; Print (WarnFetchFailed e)], snd (get w))
    end.
Proof.
  unfold except_RequestException, bind, SESSION_get_json, print, ret.
  now destruct (get w) as [[data|e] w'].
Qed.

(** The run of [fetch_devices_from_api], by the answer and its shape. *)
Lemma fetch_cases (w : World) :
  match fst (get w) with
  | GetFailed e =>
      fetch_devices_from_api get w
      = (Returned [], [HttpGet; Print (WarnFetchFailed e)], snd (get w))
  | GetBody data =>
      match nested_devices data with
      | Some v =>
          if truthy v then
            if iterable v then
              exists records,
                fetch_devices_from_api get w
                = (Returned (flat_map record_devices records), [HttpGet],
                   snd (get w))
                /\ (is_list v = false -> flat_map record_devices records = [])
            else
              fetch_devices_from_api get w
              = (Raised TypeError, [HttpGet], snd (get w))
          else
            fetch_devices_from_api get w = (Returned [], [HttpGet], snd (get w))
      | None =>
          exists records t,
            Forall printed t
            /\ fetch_devices_from_api get w
               = (Returned (flat_map record_devices records), HttpGet :: t,
                  snd (get w))
      end
  end.
Proof.
  unfold fetch_devices_from_api.
  pose proof (fetch_request w) as Hreq.
  destruct (fst (get w)) as [data|e].
  - pose proof (devices_raw_of_cases data (snd (get w))) as Hraw.
    destruct (nested_devices data) as [v|].
    + unfold py_or in Hraw. destruct (truthy v) eqn:Et.
      * destruct v as [|b|z|s|l|kv]; cbn [iterable]; try discriminate Et.
        -- erewrite bind_returned by exact Hreq. cbv beta iota.
           erewrite bind_returned by exact Hraw. reflexivity.
        -- erewrite bind_returned by exact Hreq. cbv beta iota.
           erewrite bind_returned by exact Hraw. reflexivity.
        -- eexists. split.
           ++ erewrite bind_returned by exact Hreq. cbv beta iota.
              erewrite bind_returned by exact Hraw.
              unfold iterate. rewrite bind_ret_l, collect_devices_run.
              cbn [fst snd app]. reflexivity.
           ++ intros _. apply no_devices_from_chars.
        -- exists l. split; [|discriminate].
           erewrite bind_returned by exact Hreq. cbv beta iota.
           erewrite bind_returned by exact Hraw.
           unfold iterate. rewrite bind_ret_l, collect_devices_run.
           cbn [fst snd app]. reflexivity.
        -- eexists. split.
           ++ erewrite bind_returned by exact Hreq. cbv beta iota.
              erewrite bind_returned by exact Hraw.
              unfold iterate. rewrite bind_ret_l, collect_devices_run.
              cbn [fst snd app]. reflexivity.
           ++ intros _. apply no_devices_from_strings.
      * erewrite bind_returned by exact Hreq. cbv beta iota.
        erewrite bind_returned by exact Hraw.
        unfold iterate. rewrite bind_ret_l. reflexivity.
    + destruct Hraw as (l & t & Ht & Hraw). exists l, t. split; [assumption|].
      erewrite bind_returned by exact Hreq. cbv beta iota.
      erewrite bind_returned by exact Hraw.
      unfold iterate. rewrite bind_ret_l, collect_devices_run.
      cbn [fst snd app]. now rewrite app_nil_r.
  - erewrite bind_returned by exact Hreq. reflexivity.
Qed.

(** X9.  Every device discovery returns has a truthy identifier and a
    truthy model (never null, never an empty string), whatever the
    vendor answered. *)
Theorem fetch_devices_truthy (w : World) (i m : json) :
  In (i, m) (returned_list (fetch_devices_from_api get w)) ->
  truthy i = true /\ truthy m = true.
Proof.
  pose proof (fetch_cases w) as H. unfold returned_list.
  assert (Hrec : forall records,
            In (i, m) (flat_map record_devices records) ->
            truthy i = true /\ truthy m = true).
  { intros records Hin. apply in_flat_map in Hin as (d & _ & Hd).
    apply record_devices_truthy in Hd. tauto. }
  destruct (fst (get w)) as [data|e]; [|rewrite H; contradiction].
  destruct (nested_devices data) as [v|].
  - destruct (truthy v); [|rewrite H; contradiction].
    destruct (iterable v); [|rewrite H; contradiction].
    destruct H as (records & -> & _). apply Hrec.
  - destruct H as (records & t & _ & ->). apply Hrec.
Qed.

(** X10.  When discovery raises.  [fetch_devices_from_api] raises
    exactly when the response has a nested "devices" value that is
    truthy but cannot be iterated (a number or [true]), and then it is a
    [TypeError]: a failed request, and every other response, make it
    return. *)
Theorem fetch_devices_raises (w : World) (e : exn) :
  outcome (fetch_devices_from_api get w) = Raised e
  <-> e = TypeError
      /\ exists data v,
           fst (get w) = GetBody data
           /\ nested_devices data = Some v
           /\ truthy v = true /\ iterable v = false.
Proof.
  pose proof (fetch_cases w) as H. unfold outcome.
  assert (Hno : forall P : Prop,
            (forall data v, fst (get w) = GetBody data ->
               nested_devices data = Some v ->
               truthy v = true -> iterable v = false -> P) ->
            e = TypeError
            /\ (exists data v,
                  fst (get w) = GetBody data /\ nested_devices data = Some v
                  /\ truthy v = true /\ iterable v = false) -> P).
  { intros P HP (_ & data & v & Hd & Hn & Ht & Hi). now apply (HP data v). }
  destruct (fst (get w)) as [data|e'] eqn:Eg.
  - destruct (nested_devices data) as [v|] eqn:En.
    + destruct (truthy v) eqn:Et.
      * destruct (iterable v) eqn:Ei.
        -- destruct H as (records & -> & _). split; [discriminate|].
           apply Hno. intros d' v' [= <-] Hn. congruence.
        -- rewrite H. cbn [fst]. split.
           ++ intros [= <-]. split; [reflexivity|]. now exists data, v.
           ++ now intros (-> & _).
      * rewrite H. split; [discriminate|].
        apply Hno. intros d' v' [= <-] Hn. congruence.
    + destruct H as (records & t & _ & ->). split; [discriminate|].
      apply Hno. intros d' v' [= <-] Hn. congruence.
  - rewrite H. split; [discriminate|].
    apply Hno. intros d' v' Hd. discriminate Hd.
Qed.

(** X11.  No retry and no noise: a failed request gives an empty list
    after one request and one warning; and a nested "devices" value
    that is a non-empty string or object gives an empty list after one
    request, without any warning. *)
Theorem fetch_devices_silent (w : World) :
  (forall e, fst (get w) = GetFailed e ->
     fetch_devices_from_api get w
     = (Returned [], [HttpGet; Print (WarnFetchFailed e)], snd (get w)))
  /\ (forall data v,
        fst (get w) = GetBody data -> nested_devices data = Some v ->
        truthy v = true -> iterable v = true -> is_list v = false ->
        fetch_devices_from_api get w = (Returned [], [HttpGet], snd (get w))).
Proof.
  pose proof (fetch_cases w) as H. split.
  - intros e He. now rewrite He in H.
  - intros data v Hd Hn Ht Hi Hl. rewrite Hd, Hn, Ht, Hi in H.
    destruct H as (records & -> & Hnone). now rewrite Hnone.
Qed.

End DiscoveryMore.

(** ** More on the listening loop *)

Lemma puts_app (t1 t2 : list event) : puts (t1 ++ t2) = puts t1 ++ puts t2.
Proof. unfold puts. apply flat_map_app. Qed.

Section ListeningMore.

Context {World : Type}.
Variable put : World -> payload -> put_outcome * World.
Variable GOVEE_DEVICES : list Device.
Variable COOLDOWN_MS : Z.

(** The loop over a first read and the rest. *)
Lemma listen_step (raw : bytes) (now : Z) (reads : list (bytes * Z))
  (st st1 : loop_state) (w w1 : World) (t1 : list event) :
  listen_once put GOVEE_DEVICES COOLDOWN_MS raw now st w = (Returned st1, t1, w1) ->
  listen put GOVEE_DEVICES COOLDOWN_MS ((raw, now) :: reads) st w
  = (outcome (listen put GOVEE_DEVICES COOLDOWN_MS reads st1 w1),
     t1 ++ trace (listen put GOVEE_DEVICES COOLDOWN_MS reads st1 w1),
     world (listen put GOVEE_DEVICES COOLDOWN_MS reads st1 w1)).
Proof.
  intros E. unfold listen. simpl for_each. cbn [fst snd].
  erewrite bind_returned by exact E. reflexivity.
Qed.

(** A turn returns: it never raises. *)
Lemma listen_once_total (raw : bytes) (now : Z) (st : loop_state) (w : World) :
  exists st1 t1 w1,
    listen_once put GOVEE_DEVICES COOLDOWN_MS raw now st w = (Returned st1, t1, w1).
Proof.
  destruct (listen_once_returns put GOVEE_DEVICES COOLDOWN_MS raw now st w)
    as (st1 & H1).
  destruct (listen_once put GOVEE_DEVICES COOLDOWN_MS raw now st w)
    as [[r1 t1] w1].
  unfold outcome in H1. cbn [fst] in H1. subst r1. now exists st1, t1, w1.
Qed.

(** The loop never raises. *)
Lemma listen_total (reads : list (bytes * Z)) (st : loop_state) (w : World) :
  exists st' t' w',
    listen put GOVEE_DEVICES COOLDOWN_MS reads st w = (Returned st', t', w').
Proof.
  revert st w. induction reads as [|[raw now] reads IH]; intros st w.
  - now exists st, [], w.
  - destruct (listen_once_total raw now st w) as (st1 & t1 & w1 & E1).
    rewrite (listen_step raw now reads st st1 w w1 t1 E1).
    destruct (IH st1 w1) as (st' & t' & w' & ->).
    now exists st', (t1 ++ t'), w'.
Qed.

(** The loop over two runs of reads is the loop over the first, then
    the loop over the second from where the first ended. *)
Lemma listen_app (reads1 reads2 : list (bytes * Z)) (st st1 : loop_state)
  (w w1 : World) (t1 : list event) :
  listen put GOVEE_DEVICES COOLDOWN_MS reads1 st w = (Returned st1, t1, w1) ->
  listen put GOVEE_DEVICES COOLDOWN_MS (reads1 ++ reads2) st w
  = (outcome (listen put GOVEE_DEVICES COOLDOWN_MS reads2 st1 w1),
     t1 ++ trace (listen put GOVEE_DEVICES COOLDOWN_MS reads2 st1 w1),
     world (listen put GOVEE_DEVICES COOLDOWN_MS reads2 st1 w1)).
Proof.
  intros E. unfold listen in *. rewrite for_each_app.
  erewrite bind_returned by exact E. reflexivity.
Qed.

(** A turn with the gate closed or on a line that is no ON/OFF trigger
    sends nothing and keeps state and world. *)
Lemma listen_once_idle (raw : bytes) (now : Z) (st : loop_state) (w : World) :
  in_cooldown COOLDOWN_MS now st = true \/ switches (raw, now) = false ->
  exists t,
    listen_once put GOVEE_DEVICES COOLDOWN_MS raw now st w = (Returned st, t, w)
    /\ puts t = [].
Proof.
  intros H. rewrite listen_once_run. unfold switches in H. cbn [fst] in H.
  destruct (TriggerDecoder raw) as [[| |text]|];
    destruct (in_cooldown COOLDOWN_MS now st);
    try (eexists; split; reflexivity);
    destruct H as [H|H]; discriminate H.
Qed.

(** X12.  A burst gives one fan-out.  With a positive cooldown window,
    after an ON/OFF line acted on at time [t], no further line whose
    time lies less than the window after [t] sends anything, however
    many there are and whatever they say: the requests of the whole run
    are those of the first line, one per device, and the state is the
    one the first line set. *)
Theorem burst_dispatches_once (T1 : bytes) (c : Trigger) (t : Z)
  (rest : list (bytes * Z)) (st : loop_state) (w : World) :
  (0 < COOLDOWN_MS)%Z ->
  TriggerDecoder T1 = Some c -> switch c ->
  in_cooldown COOLDOWN_MS t st = false ->
  Forall (fun rd => (snd rd - t < COOLDOWN_MS)%Z) rest ->
  let run := listen put GOVEE_DEVICES COOLDOWN_MS ((T1, t) :: rest) st w in
  outcome run = Returned (LoopState (Some (lights_of c)) t)
  /\ puts (trace run) = map (payload_of (command_of c)) GOVEE_DEVICES
  /\ world run = world (govee_turn_all put GOVEE_DEVICES (command_of c) w).
Proof.
  intros HC D S Hopen Hrest run. subst run.
  set (st1 := LoopState (Some (lights_of c)) t).
  assert (Hturn : listen_once put GOVEE_DEVICES COOLDOWN_MS T1 t st w
                  = (Returned st1,
                     trace (govee_turn_all put GOVEE_DEVICES (command_of c) w),
                     world (govee_turn_all put GOVEE_DEVICES (command_of c) w))).
  { rewrite listen_once_run, D, Hopen.
    destruct c; [reflexivity|reflexivity|contradiction]. }
  rewrite (listen_step _ _ _ _ _ _ _ _ Hturn).
  assert (Hidle : forall w0,
            exists t0, listen put GOVEE_DEVICES COOLDOWN_MS rest st1 w0
                       = (Returned st1, t0, w0) /\ puts t0 = []).
  { induction Hrest as [|[raw now] rest Hnow _ IH]; intros w0.
    - exists []. split; reflexivity.
    - destruct (listen_once_idle raw now st1 w0) as (t1 & E1 & P1).
      { left. unfold in_cooldown. subst st1. cbn [last_action_ms snd] in *.
        apply andb_true_iff. split; apply Z.ltb_lt; lia. }
      rewrite (listen_step _ _ _ _ _ _ _ _ E1).
      destruct (IH w0) as (t2 & E2 & P2). rewrite E2.
      exists (t1 ++ t2). split; [reflexivity|]. now rewrite puts_app, P1, P2. }
  destruct (Hidle (world (govee_turn_all put GOVEE_DEVICES (command_of c) w)))
    as (t0 & E0 & P0).
  rewrite E0. unfold outcome, trace, world. cbn [fst snd].
  split; [reflexivity|]. split; [|reflexivity].
  rewrite puts_app, P0, app_nil_r.
  rewrite govee_turn_all_run. cbn [fst snd].
  apply puts_device_events. rewrite answers_length. apply length_map.
Qed.

(** X13.  Lines that are no ON/OFF trigger (timeouts, blank lines,
    passthrough text) never send a request and never change the state
    or the world, over a run of any length and with any cooldown. *)
Theorem quiet_reads_change_nothing (reads : list (bytes * Z))
  (st : loop_state) (w : World) :
  Forall (fun rd => switches rd = false) reads ->
  let run := listen put GOVEE_DEVICES COOLDOWN_MS reads st w in
  outcome run = Returned st /\ puts (trace run) = [] /\ world run = w.
Proof.
  intros H run. subst run. induction H as [|[raw now] reads Hq _ IH].
  - repeat split.
  - destruct (listen_once_idle raw now st w (or_intror Hq)) as (t1 & E1 & P1).
    rewrite (listen_step _ _ _ _ _ _ _ _ E1).
    destruct (listen put GOVEE_DEVICES COOLDOWN_MS reads st w) as [[r2 t2] w2].
    unfold outcome, trace, world in *. cbn [fst snd] in *.
    destruct IH as (I1 & I2 & I3).
    split; [exact I1|]. split; [|exact I3]. now rewrite puts_app, P1, I2.
Qed.

(** X14.  [lights_on_state] is written but never read: two runs over
    the same reads from states with the same time of the last action do
    the same, print and send the same, and end with the same time of the
    last action, whatever [lights_on_state] they started with. *)
Theorem lights_on_state_unused (reads : list (bytes * Z))
  (st st' : loop_state) (w : World) :
  last_action_ms st = last_action_ms st' ->
  let run := listen put GOVEE_DEVICES COOLDOWN_MS reads st w in
  let run' := listen put GOVEE_DEVICES COOLDOWN_MS reads st' w in
  trace run = trace run' /\ world run = world run'
  /\ exists s s', outcome run = Returned s /\ outcome run' = Returned s'
                  /\ last_action_ms s = last_action_ms s'.
Proof.
  intros Hlast run run'. subst run run'.
  revert st st' w Hlast.
  induction reads as [|[raw now] reads IH]; intros st st' w Hlast.
  - repeat split. now exists st, st'.
  - assert (Hsame : exists s1 s1' t1 w1,
      listen_once put GOVEE_DEVICES COOLDOWN_MS raw now st w
      = (Returned s1, t1, w1)
      /\ listen_once put GOVEE_DEVICES COOLDOWN_MS raw now st' w
         = (Returned s1', t1, w1)
      /\ last_action_ms s1 = last_action_ms s1').
    { rewrite !listen_once_run. unfold in_cooldown. rewrite <- Hlast.
      destruct (TriggerDecoder raw) as [[| |text]|];
        destruct ((0 <? COOLDOWN_MS)%Z
                  && (now - last_action_ms st <? COOLDOWN_MS)%Z);
        cbv zeta; eexists _, _, _, _;
        (split; [reflexivity|]); (split; [reflexivity|]);
        first [exact Hlast|reflexivity]. }
    destruct Hsame as (s1 & s1' & t1 & w1 & E & E' & Hl).
    rewrite (listen_step _ _ _ _ _ _ _ _ E), (listen_step _ _ _ _ _ _ _ _ E').
    destruct (IH s1 s1' w1 Hl) as (I1 & I2 & I3).
    destruct (listen put GOVEE_DEVICES COOLDOWN_MS reads s1 w1) as [[r2 t2] w2].
    destruct (listen put GOVEE_DEVICES COOLDOWN_MS reads s1' w1) as [[r3 t3] w3].
    unfold outcome, trace, world in *. cbn [fst snd] in *.
    split; [now rewrite I1|]. split; [exact I2|exact I3].
Qed.

(** X15.  Where the state comes from.  After any run the loop's state
    is the one it started with, or the one an ON/OFF line of the run
    set: the time of that read, and whether it was ON. *)
Theorem last_action_is_a_read (reads : list (bytes * Z)) (st : loop_state)
  (w : World) :
  exists st',
    outcome (listen put GOVEE_DEVICES COOLDOWN_MS reads st w) = Returned st'
    /\ (st' = st
        \/ exists raw now c,
             In (raw, now) reads /\ TriggerDecoder raw = Some c /\ switch c
             /\ st' = LoopState (Some (lights_of c)) now).
Proof.
  revert st w. induction reads as [|[raw now] reads IH]; intros st w.
  - exists st. split; [reflexivity|now left].
  - assert (Hturn : exists s1 t1 w1,
      listen_once put GOVEE_DEVICES COOLDOWN_MS raw now st w
      = (Returned s1, t1, w1)
      /\ (s1 = st
          \/ exists c, TriggerDecoder raw = Some c /\ switch c
                       /\ s1 = LoopState (Some (lights_of c)) now)).
    { rewrite listen_once_run.
      destruct (TriggerDecoder raw) as [[| |text]|] eqn:D;
        destruct (in_cooldown COOLDOWN_MS now st); cbv zeta;
        eexists _, _, _; (split; [reflexivity|]);
        first [now left | right; eexists; split; [reflexivity|]; now split]. }
    destruct Hturn as (s1 & t1 & w1 & E & Hs1).
    rewrite (listen_step _ _ _ _ _ _ _ _ E).
    destruct (IH s1 w1) as (st' & H' & Hfrom).
    exists st'. split; [exact H'|].
    destruct Hfrom as [->|(raw' & now' & c & Hin & D & S & ->)].
    + destruct Hs1 as [->|(c & D & S & ->)]; [now left|].
      right. exists raw, now, c. split; [now left|]. auto.
    + right. exists raw', now', c. split; [now right|]. auto.
Qed.

End ListeningMore.

(** ** Start-up *)

Section StartupMore.

Context {World : Type}.
Variable get : World -> get_outcome * World.
Variable str_upper : str -> str.
Variable py_int : str -> option Z.

(** Discovery raises nothing but a [TypeError]. *)
Lemma fetch_raises_type_error (w : World) (e : exn) :
  outcome (fetch_devices_from_api get w) = Raised e -> e = TypeError.
Proof.
  pose proof (fetch_cases get w) as H. unfold outcome.
  destruct (fst (get w)) as [data|e']; [|now rewrite H].
  destruct (nested_devices data) as [v|].
  - destruct (truthy v); [|now rewrite H].
    destruct (iterable v); [|rewrite H; now intros [= <-]].
    destruct H as (records & -> & _). discriminate.
  - destruct H as (records & t & _ & ->). discriminate.
Qed.

(** The statically configured devices all have text for a model. *)
Lemma static_textual (static : list Device) :
  forallb (fun dm => textual (snd dm)) (map as_tuple static) = true.
Proof. induction static as [|dm static IH]; [reflexivity|exact IH]. Qed.

(** What resolving the registry ends in. *)
Lemma resolve_devices_outcome (GOVEE_DEVICES_env ALLOWED_MODEL_env : option str)
  (w : World) :
  let static :=
    returned_list (parse_devices (strip (getenv GOVEE_DEVICES_env [])) w) in
  let fetching := fetch_devices_from_api get w in
  let ALLOWED_MODEL :=
    str_upper (strip (getenv ALLOWED_MODEL_env (lit "H6006"))) in
  let r :=
    outcome (resolve_devices get str_upper GOVEE_DEVICES_env
               ALLOWED_MODEL_env w) in
  match static with
  | [] =>
      match outcome fetching with
      | Raised e => r = Raised e
      | Returned [] => r = Raised (SystemExit 1)
      | Returned found =>
          match ALLOWED_MODEL with
          | [] => exists registry, r = Returned registry
          | _ =>
              if forallb (fun dm => textual (snd dm)) found
              then exists registry, r = Returned registry
              else r = Raised AttributeError
          end
      end
  | _ => exists registry, r = Returned registry
  end.
Proof.
  intros static fetching ALLOWED_MODEL r. subst r.
  rewrite resolve_devices_run.
  destruct (configured_devices_run get GOVEE_DEVICES_env w) as (_ & _ & ->).
  fold static fetching.
  assert (Hfilter : forall (ds : list (json * json)) (w' : World),
    match ALLOWED_MODEL with
    | [] =>
        exists registry,
          outcome (filter_allowed str_upper ALLOWED_MODEL_env ds w')
          = Returned registry
    | _ =>
        if forallb (fun dm => textual (snd dm)) ds
        then exists registry,
               outcome (filter_allowed str_upper ALLOWED_MODEL_env ds w')
               = Returned registry
        else outcome (filter_allowed str_upper ALLOWED_MODEL_env ds w')
             = Raised AttributeError
    end).
  { intros ds w'.
    pose proof (filter_allowed_ends str_upper ALLOWED_MODEL_env ds w') as He.
    cbv zeta in He. fold ALLOWED_MODEL in He.
    destruct He as [(kept & t & _ & H & Hc & _)|(Hne & T & H)].
    - assert (Hret : exists registry,
                outcome (filter_allowed str_upper ALLOWED_MODEL_env ds w')
                = Returned registry) by (exists kept; now rewrite H).
      destruct ALLOWED_MODEL; [exact Hret|].
      destruct Hc as [Hc|Hc]; [discriminate|]. now rewrite Hc.
    - destruct ALLOWED_MODEL; [congruence|]. now rewrite T, H. }
  destruct static as [|dm static'].
  - destruct (outcome fetching) as [[|f0 found]|e]; try reflexivity.
    cbn [outcome fst]. exact (Hfilter (f0 :: found) (world fetching)).
  - cbn [outcome fst].
    specialize (Hfilter (map as_tuple (dm :: static')) w).
    rewrite static_textual in Hfilter.
    destruct ALLOWED_MODEL; exact Hfilter.
Qed.

(** What start-up ends in, by the settings. *)
Lemma module_startup_outcome
  (SERIAL_PORT_env BAUDRATE_env GOVEE_API_KEY_env GOVEE_DEVICES_env
     COOLDOWN_MS_env ALLOWED_MODEL_env : option str) (w : World) :
  fst (fst (module_startup get str_upper py_int SERIAL_PORT_env BAUDRATE_env
              GOVEE_API_KEY_env GOVEE_DEVICES_env COOLDOWN_MS_env
              ALLOWED_MODEL_env w))
  = match py_int (getenv BAUDRATE_env (lit "115200")),
          py_int (getenv COOLDOWN_MS_env (lit "800")) with
    | Some BAUDRATE, Some COOLDOWN_MS =>
        match strip (getenv GOVEE_API_KEY_env []) with
        | [] => Raised (SystemExit 1)
        | _ =>
            match outcome (resolve_devices get str_upper GOVEE_DEVICES_env
                             ALLOWED_MODEL_env w) with
            | Returned registry =>
                Returned (Settings (getenv SERIAL_PORT_env (lit "COM5"))
                                   BAUDRATE COOLDOWN_MS registry)
            | Raised e => Raised e
            end
        end
    | _, _ => Raised ValueError
    end.
Proof.
  unfold module_startup, outcome.
  destruct (py_int (getenv BAUDRATE_env (lit "115200"))); [|reflexivity].
  destruct (py_int (getenv COOLDOWN_MS_env (lit "800"))); [|reflexivity].
  destruct (strip (getenv GOVEE_API_KEY_env [])); [reflexivity|].
  now destruct (resolve_devices get str_upper GOVEE_DEVICES_env
                  ALLOWED_MODEL_env w) as [[[ds|e] t] w'].
Qed.

#[local] Ltac no_integers Hv Ht :=
  rewrite Hv;
  split; [split; [intros _ [? ?]; congruence|reflexivity]|];
  split; [intros _; exact Ht|];
  split; [split; [discriminate|intros ([? ?] & _); congruence]|];
  split; [intros [? ?]; congruence|];
  split; [split; [discriminate|intros ([? ?] & _); congruence]|];
  split; [split; [discriminate|intros ([? ?] & _); congruence]|];
  split; [intros e [= <-]; tauto|discriminate].

(** X16.  How start-up ends.  A [BAUDRATE] or [COOLDOWN_MS] that is no
    integer ends it in a [ValueError] before anything is printed, also
    before the API key is looked at.  With both integers, it exits with
    code 1 exactly when the API key is missing, empty or only
    whitespace, or when the static configuration gives no device and
    discovery returns none; without a key only the error line is
    printed and nothing else is done.  Two more exceptions leave it,
    both only when nothing is configured statically: the [TypeError]
    discovery raises, and an [AttributeError] when discovery returned a
    device whose model is not text and the allow-list is not empty.  In
    every other case start-up returns, with the port name and the two
    integers as they were read. *)
Theorem module_startup_exit
  (SERIAL_PORT_env BAUDRATE_env GOVEE_API_KEY_env GOVEE_DEVICES_env
     COOLDOWN_MS_env ALLOWED_MODEL_env : option str) (w : World) :
  let baudrate := py_int (getenv BAUDRATE_env (lit "115200")) in
  let cooldown := py_int (getenv COOLDOWN_MS_env (lit "800")) in
  let key := strip (getenv GOVEE_API_KEY_env []) in
  let static :=
    returned_list (parse_devices (strip (getenv GOVEE_DEVICES_env [])) w) in
  let fetching := fetch_devices_from_api get w in
  let ALLOWED_MODEL :=
    str_upper (strip (getenv ALLOWED_MODEL_env (lit "H6006"))) in
  let run :=
    module_startup get str_upper py_int SERIAL_PORT_env BAUDRATE_env
      GOVEE_API_KEY_env GOVEE_DEVICES_env COOLDOWN_MS_env ALLOWED_MODEL_env w in
  let integers := baudrate <> None /\ cooldown <> None in
  (fst (fst run) = Raised ValueError <-> ~ integers)
  /\ (~ integers -> snd (fst run) = [] /\ snd run = w)
  /\ (fst (fst run) = Raised (SystemExit 1)
      <-> integers
          /\ (key = [] \/ (static = [] /\ outcome fetching = Returned [])))
  /\ (integers -> key = [] -> snd (fst run) = [PrintKeyMissing] /\ snd run = w)
  /\ (fst (fst run) = Raised TypeError
      <-> integers /\ key <> [] /\ static = []
          /\ outcome fetching = Raised TypeError)
  /\ (fst (fst run) = Raised AttributeError
      <-> integers /\ key <> [] /\ static = [] /\ ALLOWED_MODEL <> []
          /\ exists found,
               outcome fetching = Returned found
               /\ Exists (fun dm => textual (snd dm) = false) found)
  /\ (forall e, fst (fst run) = Raised e ->
        e = ValueError \/ e = SystemExit 1 \/ e = TypeError
        \/ e = AttributeError)
  /\ (forall s, fst (fst run) = Returned s ->
        the_SERIAL_PORT s = getenv SERIAL_PORT_env (lit "COM5")
        /\ baudrate = Some (the_BAUDRATE s)
        /\ cooldown = Some (the_COOLDOWN_MS s)).
Proof.
  intros baudrate cooldown key static fetching ALLOWED_MODEL run integers.
  assert (Hrun := module_startup_outcome SERIAL_PORT_env BAUDRATE_env
                    GOVEE_API_KEY_env GOVEE_DEVICES_env COOLDOWN_MS_env
                    ALLOWED_MODEL_env w).
  fold run baudrate cooldown key in Hrun.
  assert (Htrace :
    match baudrate, cooldown with
    | Some _, Some _ =>
        key = [] -> snd (fst run) = [PrintKeyMissing] /\ snd run = w
    | _, _ => snd (fst run) = [] /\ snd run = w
    end).
  { subst run. unfold module_startup. fold baudrate cooldown key.
    destruct baudrate; [|now split]. destruct cooldown; [|now split].
    intros ->. now split. }
  assert (Hres := resolve_devices_outcome GOVEE_DEVICES_env ALLOWED_MODEL_env w).
  cbv zeta in Hres. fold static fetching ALLOWED_MODEL in Hres.
  assert (Htype := fetch_raises_type_error w). fold fetching in Htype.
  assert (Hexists : forall found : list (json * json),
            forallb (fun dm => textual (snd dm)) found = false
            <-> Exists (fun dm => textual (snd dm) = false) found).
  { intros found. induction found as [|dm found IH].
    - split; [discriminate|]. intros H. inversion H.
    - cbn [forallb]. rewrite Exists_cons, <- IH.
      destruct (textual (snd dm)); cbn [andb]; intuition congruence. }
  subst integers.
  clearbody run baudrate cooldown key static fetching ALLOWED_MODEL.
  assert (Hnone : baudrate = None \/ cooldown = None ->
            fst (fst run) = Raised ValueError
            /\ snd (fst run) = [] /\ snd run = w).
  { intros [-> | ->]; [now split|].
    destruct baudrate; now split. }
  destruct baudrate as [b|].
  2:{ destruct Hnone as (Hv & Ht); [now left|]. no_integers Hv Ht. }
  destruct cooldown as [c|].
  2:{ destruct Hnone as (Hv & Ht); [now right|]. no_integers Hv Ht. }
  clear Hnone.
  assert (Hints : Some b <> None /\ Some c <> None) by (split; discriminate).
  destruct key as [|k0 k'].
  { rewrite Hrun.
    split; [split; [discriminate|intros H; exfalso; exact (H Hints)]|].
    split; [intros H; exfalso; exact (H Hints)|].
    split; [split; [intros _; split; [exact Hints|now left]|reflexivity]|].
    split; [intros _ _; now apply Htrace|].
    split; [split; [discriminate|intros (_ & H & _); congruence]|].
    split; [split; [discriminate|intros (_ & H & _); congruence]|].
    split; [intros e [= <-]; tauto|discriminate]. }
  assert (Hkey : k0 :: k' <> []) by discriminate.
  set (r := outcome (resolve_devices get str_upper GOVEE_DEVICES_env
                       ALLOWED_MODEL_env w)) in *.
  assert (Hreturns : (exists registry, r = Returned registry) ->
    (fst (fst run) = Raised ValueError <-> ~ (Some b <> None /\ Some c <> None))
    /\ (~ (Some b <> None /\ Some c <> None) -> snd (fst run) = [] /\ snd run = w)
    /\ (fst (fst run) <> Raised (SystemExit 1))
    /\ (fst (fst run) <> Raised TypeError)
    /\ (fst (fst run) <> Raised AttributeError)
    /\ (forall e, fst (fst run) = Raised e ->
          e = ValueError \/ e = SystemExit 1 \/ e = TypeError
          \/ e = AttributeError)
    /\ (forall s, fst (fst run) = Returned s ->
          the_SERIAL_PORT s = getenv SERIAL_PORT_env (lit "COM5")
          /\ Some b = Some (the_BAUDRATE s)
          /\ Some c = Some (the_COOLDOWN_MS s))).
  { intros (registry & Hr). rewrite Hrun, Hr.
    split; [split; [discriminate|tauto]|]. split; [tauto|].
    do 4 (split; [discriminate|]).
    intros s [= <-]. repeat split. }
  assert (Hraises : forall e, r = Raised e ->
    (fst (fst run) = Raised ValueError <-> e = ValueError)
    /\ (fst (fst run) = Raised (SystemExit 1) <-> e = SystemExit 1)
    /\ (fst (fst run) = Raised TypeError <-> e = TypeError)
    /\ (fst (fst run) = Raised AttributeError <-> e = AttributeError)
    /\ (forall e', fst (fst run) = Raised e' -> e' = e)
    /\ (forall s, fst (fst run) = Returned s ->
          the_SERIAL_PORT s = getenv SERIAL_PORT_env (lit "COM5")
          /\ Some b = Some (the_BAUDRATE s)
          /\ Some c = Some (the_COOLDOWN_MS s))).
  { intros e Hr. rewrite Hrun, Hr.
    do 4 (split; [split; [now intros [= ->]|now intros ->]|]).
    split; [now intros e' [= <-]|discriminate]. }
  destruct static as [|s0 static'].
  2:{ destruct (Hreturns Hres) as (R1 & R2 & R3 & R4 & R5 & R6 & R7).
      split; [exact R1|]. split; [exact R2|].
      split; [split; [contradiction|intros (_ & [H|[H _]]); congruence]|].
      split; [intros _ H; congruence|].
      split; [split; [contradiction|intros (_ & _ & H & _); discriminate H]|].
      split; [split; [contradiction|intros (_ & _ & H & _); discriminate H]|].
      split; [exact R6|exact R7]. }
  destruct (outcome fetching) as [[|f0 found]|e] eqn:Ef.
  - (* discovery returned no device *)
    destruct (Hraises _ Hres) as (R1 & R2 & R3 & R4 & R5 & R6).
    split; [rewrite R1; split; [discriminate|tauto]|].
    split; [tauto|].
    split; [rewrite R2; tauto|].
    split; [intros _ H; congruence|].
    split; [rewrite R3; split; [discriminate|intros (_ & _ & _ & H); discriminate H]|].
    split.
    { rewrite R4. split; [discriminate|].
      intros (_ & _ & _ & _ & fd & [= <-] & H). inversion H. }
    split; [intros e' He'; apply R5 in He'; tauto|exact R6].
  - (* discovery returned devices *)
    destruct ALLOWED_MODEL as [|a0 a'] eqn:Ea.
    + destruct (Hreturns Hres) as (R1 & R2 & R3 & R4 & R5 & R6 & R7).
      split; [exact R1|]. split; [exact R2|].
      split; [split; [contradiction|intros (_ & [H|[_ H]]); congruence]|].
      split; [intros _ H; congruence|].
      split; [split; [contradiction|intros (_ & _ & _ & H); discriminate H]|].
      split; [split; [contradiction|intros (_ & _ & _ & H & _); congruence]|].
      split; [exact R6|exact R7].
    + destruct (forallb (fun dm => textual (snd dm)) (f0 :: found)) eqn:T.
      * destruct (Hreturns Hres) as (R1 & R2 & R3 & R4 & R5 & R6 & R7).
        split; [exact R1|]. split; [exact R2|].
        split; [split; [contradiction|intros (_ & [H|[_ H]]); congruence]|].
        split; [intros _ H; congruence|].
        split; [split; [contradiction|intros (_ & _ & _ & H); discriminate H]|].
        split.
        { split; [contradiction|].
          intros (_ & _ & _ & _ & fd & [= <-] & H).
          apply Hexists in H. congruence. }
        split; [exact R6|exact R7].
      * destruct (Hraises _ Hres) as (R1 & R2 & R3 & R4 & R5 & R6).
        split; [rewrite R1; split; [discriminate|tauto]|].
        split; [tauto|].
        split; [rewrite R2; split; [discriminate|intros (_ & [H|[_ H]]); congruence]|].
        split; [intros _ H; congruence|].
        split; [rewrite R3; split; [discriminate|intros (_ & _ & _ & H); discriminate H]|].
        split.
        { rewrite R4. split; [intros _|reflexivity].
          repeat (split; [assumption || discriminate || reflexivity|]).
          exists (f0 :: found). split; [reflexivity|]. now apply Hexists. }
        split; [intros e' He'; apply R5 in He'; tauto|exact R6].
  - (* discovery raised *)
    assert (He : e = TypeError) by now apply Htype.
    subst e.
    destruct (Hraises _ Hres) as (R1 & R2 & R3 & R4 & R5 & R6).
    split; [rewrite R1; split; [discriminate|tauto]|].
    split; [tauto|].
    split; [rewrite R2; split; [discriminate|intros (_ & [H|[_ H]]); congruence]|].
    split; [intros _ H; congruence|].
    split; [rewrite R3; tauto|].
    split.
    { rewrite R4. split; [discriminate|].
      intros (_ & _ & _ & _ & fd & H & _). discriminate H. }
    split; [intros e' He'; apply R5 in He'; tauto|exact R6].
Qed.

End StartupMore.

(** ** The order of device resolution *)

Section ResolutionMore.

Context {World : Type}.
Variable get : World -> get_outcome * World.
Variable str_upper : str -> str.

(** Discovery is one request and lines: it does not call itself. *)
Lemma fetch_no_discovery (w : World) :
  discoveries (trace (fetch_devices_from_api get w)) = 0%nat.
Proof.
  pose proof (fetch_cases get w) as H.
  destruct (fst (get w)) as [data|e]; [|now rewrite H].
  destruct (nested_devices data) as [v|].
  - destruct (truthy v); [|now rewrite H].
    destruct (iterable v); [|now rewrite H].
    destruct H as (records & -> & _). reflexivity.
  - destruct H as (records & t & Ht & ->). unfold trace. cbn [fst snd].
    exact (printed_no_discovery t Ht).
Qed.

(** X20.  The order of device resolution.  The static configuration is
    parsed first (its trace comes first, and parsing always returns).
    If it gives a device, discovery is not called, the world is left
    alone and the registry is what the allow-list filter makes of the
    configured devices: resolution returns.  If it gives none,
    discovery is called exactly once; when discovery returns devices
    the registry is what the filter makes of them, with the filter's
    outcome, be it an exception.  Resolution exits with code 1 exactly
    when the static configuration gives no device and discovery returns
    none.  Whenever the registry resolution returns is empty, the
    warning has been printed and start-up goes on. *)
Theorem resolve_devices_order (GOVEE_DEVICES_env ALLOWED_MODEL_env : option str)
  (w : World) :
  let parsing := parse_devices (strip (getenv GOVEE_DEVICES_env [])) w in
  let static := returned_list parsing in
  let fetching := fetch_devices_from_api get w in
  let ALLOWED_MODEL :=
    str_upper (strip (getenv ALLOWED_MODEL_env (lit "H6006"))) in
  let run :=
    resolve_devices get str_upper GOVEE_DEVICES_env ALLOWED_MODEL_env w in
  outcome parsing = Returned static
  /\ (exists rest, trace run = trace parsing ++ rest)
  /\ (static <> [] ->
      discoveries (trace run) = 0%nat /\ world run = w
      /\ outcome run
         = outcome (filter_allowed str_upper ALLOWED_MODEL_env
                      (map as_tuple static) w)
      /\ exists registry, outcome run = Returned registry)
  /\ (static = [] ->
      discoveries (trace run) = 1%nat /\ world run = world fetching
      /\ forall found,
           outcome fetching = Returned found -> found <> [] ->
           outcome run
           = outcome (filter_allowed str_upper ALLOWED_MODEL_env found
                        (world fetching)))
  /\ (outcome run = Raised (SystemExit 1)
      <-> static = [] /\ outcome fetching = Returned [])
  /\ (forall registry,
        outcome run = Returned registry -> registry = [] ->
        In (Print (WarnNoDevicesOfModel ALLOWED_MODEL)) (trace run)).
Proof.
  intros parsing static fetching ALLOWED_MODEL run.
  destruct (configured_devices_run get GOVEE_DEVICES_env w)
    as (Hout & Hp & Hconf).
  fold parsing static fetching in Hout, Hp, Hconf.
  pose proof (resolve_devices_run get str_upper GOVEE_DEVICES_env
                ALLOWED_MODEL_env w) as Hrun.
  fold run in Hrun. rewrite Hconf in Hrun. clear Hconf.
  pose proof (fetch_no_discovery w) as Hnd. fold fetching in Hnd.
  pose proof (fetch_raises_type_error get w) as Htype. fold fetching in Htype.
  assert (Hfilter : forall (ds : list (json * json)) (w' : World),
    let filtering := filter_allowed str_upper ALLOWED_MODEL_env ds w' in
    world filtering = w'
    /\ Forall printed (trace filtering)
    /\ (forall e, outcome filtering = Raised e ->
          e = AttributeError
          /\ forallb (fun dm => textual (snd dm)) ds = false)
    /\ (outcome filtering = Returned [] ->
        In (Print (WarnNoDevicesOfModel ALLOWED_MODEL)) (trace filtering))).
  { intros ds w' filtering.
    pose proof (filter_allowed_ends str_upper ALLOWED_MODEL_env ds w') as He.
    cbv zeta in He. fold ALLOWED_MODEL filtering in He.
    destruct He as [(kept & t & Ht & H & _ & Hw)|(_ & T & H)]; rewrite H;
      unfold world, trace, outcome; cbn [fst snd].
    - split; [reflexivity|]. split; [exact Ht|].
      split; [discriminate|]. intros [= ->]. now apply Hw.
    - split; [reflexivity|]. split; [constructor|].
      split; [now intros e [= <-]|discriminate]. }
  clearbody parsing fetching run.
  destruct static as [|dm static'] eqn:Es.
  - (* nothing configured: discovery is called *)
    split; [exact Hout|].
    destruct (outcome fetching) as [[|f0 found]|e] eqn:Ef; subst run;
      unfold outcome, trace, world in *; cbn [fst snd] in *.
    + split; [eexists; reflexivity|]. split; [congruence|]. split.
      { intros _. split; [|split; [reflexivity|intros fd [= <-]; congruence]].
        rewrite discoveries_app, (printed_no_discovery _ Hp).
        change (discoveries (Print InfoTryingApi :: Discovery
                             :: snd (fst fetching) ++ [Print ErrNoDevices]))
          with (S (discoveries (snd (fst fetching) ++ [Print ErrNoDevices]))).
        rewrite discoveries_app, Hnd. reflexivity. }
      split; [tauto|]. discriminate.
    + destruct (Hfilter (f0 :: found) (snd fetching))
        as (Hw & Hpf & Hraise & Hwarn).
      unfold outcome, trace, world in *; cbn [fst snd] in *.
      split; [rewrite <- app_assoc; eexists; reflexivity|].
      split; [congruence|]. split.
      { intros _. split; [|split; [exact Hw|now intros fd [= <-] _]].
        rewrite !discoveries_app, (printed_no_discovery _ Hp),
          (printed_no_discovery _ Hpf).
        change (discoveries (Print InfoTryingApi :: Discovery
                             :: snd (fst fetching)
                                ++ [Print (InfoFetched (length (f0 :: found)))]))
          with (S (discoveries
                     (snd (fst fetching)
                        ++ [Print (InfoFetched (length (f0 :: found)))]))).
        rewrite discoveries_app, Hnd. reflexivity. }
      split.
      { split; [|intros [_ H]; discriminate H].
        intros H. apply Hraise in H as [H _]. discriminate H. }
      intros registry Hr ->. apply in_or_app. right. now apply Hwarn.
    + split; [eexists; reflexivity|]. split; [congruence|]. split.
      { intros _. split; [|split; [reflexivity|discriminate]].
        rewrite discoveries_app, (printed_no_discovery _ Hp).
        change (discoveries (Print InfoTryingApi :: Discovery
                             :: snd (fst fetching)))
          with (S (discoveries (snd (fst fetching)))).
        now rewrite Hnd. }
      split.
      { split; [|intros [_ H]; discriminate H].
        intros [= ->]. discriminate (Htype _ eq_refl). }
      discriminate.
  - (* devices are configured *)
    split; [exact Hout|].
    destruct (Hfilter (map as_tuple (dm :: static')) w)
      as (Hw & Hpf & Hraise & Hwarn).
    subst run. unfold outcome, trace, world in *; cbn [fst snd] in *.
    split; [eexists; reflexivity|]. split.
    { intros _. split.
      - now rewrite discoveries_app, (printed_no_discovery _ Hp),
          (printed_no_discovery _ Hpf).
      - split; [exact Hw|]. split; [reflexivity|].
        destruct (fst (fst (filter_allowed str_upper ALLOWED_MODEL_env
                              (map as_tuple (dm :: static')) w)))
          as [registry|e] eqn:Eo; [now exists registry|].
        destruct (Hraise e eq_refl) as [_ T].
        now rewrite static_textual in T. }
    split; [discriminate|]. split.
    { split; [|intros [H _]; discriminate H].
      intros H. apply Hraise in H as [H _]. discriminate H. }
    intros registry Hr ->. apply in_or_app. right. now apply Hwarn.
Qed.

End ResolutionMore.

(** ** The reconnecting loop *)

Lemma bridge_events_app (t1 t2 : list main_event) :
  bridge_events (t1 ++ t2) = bridge_events t1 ++ bridge_events t2.
Proof. unfold bridge_events. apply flat_map_app. Qed.

Lemma bridge_events_map (t : list event) : bridge_events (map Bridge t) = t.
Proof. induction t as [|e t IH]; [reflexivity|]. simpl. now rewrite IH. Qed.

Lemma count_no_bridge (f : main_event -> bool) (t : list event) :
  (forall e, f (Bridge e) = false) -> filter f (map Bridge t) = [].
Proof.
  intros H. induction t as [|e t IH]; [reflexivity|]. simpl. now rewrite H.
Qed.

Section MainMore.

Context {World : Type}.
Variable put : World -> payload -> put_outcome * World.
Variable SERIAL_PORT : str.
Variable BAUDRATE : Z.
Variable GOVEE_DEVICES : list Device.
Variable COOLDOWN_MS : Z.

#[local] Abbreviation loop := (reconnect_loop put GOVEE_DEVICES COOLDOWN_MS).
#[local] Abbreviation hear := (listen put GOVEE_DEVICES COOLDOWN_MS).

Lemma loop_open_fails (e : str) (rest : list attempt) (st : loop_state)
  (w : World) :
  loop (OpenFails e :: rest) st w
  = (fst (fst (loop rest st w)),
     Say (WarnSerial e) :: Sleep 3 :: snd (fst (loop rest st w)),
     snd (loop rest st w)).
Proof. simpl. now destruct (loop rest st w) as [[r t] w']. Qed.

Lemma loop_serial_error (reads : list (bytes * Z)) (e : str)
  (rest : list attempt) (st st1 : loop_state) (w w1 : World) (t : list event) :
  hear reads st w = (Returned st1, t, w1) ->
  loop (Session reads (SerialException e) :: rest) st w
  = (fst (fst (loop rest st1 w1)),
     SerialOpen :: Say InfoListening :: map Bridge t
       ++ SerialClose :: Say (WarnSerial e) :: Sleep 3
       :: snd (fst (loop rest st1 w1)),
     snd (loop rest st1 w1)).
Proof.
  intros E. simpl. rewrite E. now destruct (loop rest st1 w1) as [[r t'] w'].
Qed.

Lemma loop_interrupt (reads : list (bytes * Z)) (rest : list attempt)
  (st st1 : loop_state) (w w1 : World) (t : list event) :
  hear reads st w = (Returned st1, t, w1) ->
  loop (Session reads KeyboardInterrupt :: rest) st w
  = (Exited,
     SerialOpen :: Say InfoListening :: map Bridge t
       ++ [SerialClose; Say InfoExiting],
     w1).
Proof. intros E. simpl. now rewrite E. Qed.

Lemma loop_asleep (reads : list (bytes * Z)) (e : str) (rest : list attempt)
  (st st1 : loop_state) (w w1 : World) (t : list event) :
  hear reads st w = (Returned st1, t, w1) ->
  loop (Session reads (SerialExceptionThenInterrupt e) :: rest) st w
  = (Interrupted,
     SerialOpen :: Say InfoListening :: map Bridge t
       ++ [SerialClose; Say (WarnSerial e); Sleep 3],
     w1).
Proof. intros E. simpl. now rewrite E. Qed.

Lemma find_none_existsb {A} (f : A -> bool) (l : list A) :
  existsb f l = false -> find f l = None.
Proof.
  induction l as [|a l IH]; [reflexivity|]. cbn [existsb find].
  destruct (f a); [discriminate|exact IH].
Qed.

(** The loop, seen from the listening loop: what the turns do and where
    they leave state and world is what one listening loop over all the
    lines seen does. *)
Lemma loop_transparent (attempts : list attempt) (st : loop_state) (w : World) :
  exists st',
    hear (lines_seen attempts) st w
    = (Returned st', bridge_events (snd (fst (loop attempts st w))),
       snd (loop attempts st w))
    /\ fst (fst (loop attempts st w))
       = match find interrupts attempts with
         | None => Retrying st'
         | Some a => if interrupted_asleep a then Interrupted else Exited
         end.
Proof.
  revert st w. induction attempts as [|a rest IH]; intros st w.
  - exists st. split; reflexivity.
  - destruct a as [e|e| |reads [e|e|]].
    + rewrite loop_open_fails. cbn [fst snd lines_seen interrupts reads_of
                                      find app bridge_events flat_map].
      apply IH.
    + exists st. split; reflexivity.
    + exists st. split; reflexivity.
    + destruct (listen_total put GOVEE_DEVICES COOLDOWN_MS reads st w)
        as (st1 & t1 & w1 & E).
      rewrite (loop_serial_error reads e rest st st1 w w1 t1 E).
      cbn [fst snd lines_seen interrupts reads_of find].
      destruct (IH st1 w1) as (st' & H1 & H2).
      exists st'. split; [|exact H2].
      rewrite (listen_app put GOVEE_DEVICES COOLDOWN_MS reads
                 (lines_seen rest) st st1 w w1 t1 E).
      rewrite H1. unfold outcome, trace, world. cbn [fst snd].
      f_equal. f_equal.
      change (SerialOpen :: Say InfoListening :: map Bridge t1
              ++ SerialClose :: Say (WarnSerial e) :: Sleep 3
              :: snd (fst (loop rest st1 w1)))
        with ([SerialOpen; Say InfoListening] ++ map Bridge t1
              ++ [SerialClose; Say (WarnSerial e); Sleep 3]
              ++ snd (fst (loop rest st1 w1))).
      rewrite !bridge_events_app, bridge_events_map. reflexivity.
    + destruct (listen_total put GOVEE_DEVICES COOLDOWN_MS reads st w)
        as (st1 & t1 & w1 & E).
      rewrite (loop_asleep reads e rest st st1 w w1 t1 E).
      cbn [fst snd lines_seen interrupts interrupted_asleep reads_of find].
      exists st1. split; [|reflexivity]. rewrite E. f_equal. f_equal.
      change (SerialOpen :: Say InfoListening :: map Bridge t1
              ++ [SerialClose; Say (WarnSerial e); Sleep 3])
        with ([SerialOpen; Say InfoListening] ++ map Bridge t1
              ++ [SerialClose; Say (WarnSerial e); Sleep 3]).
      rewrite !bridge_events_app, bridge_events_map. cbn. now rewrite app_nil_r.
    + destruct (listen_total put GOVEE_DEVICES COOLDOWN_MS reads st w)
        as (st1 & t1 & w1 & E).
      rewrite (loop_interrupt reads rest st st1 w w1 t1 E).
      cbn [fst snd lines_seen interrupts interrupted_asleep reads_of find].
      exists st1. split; [|reflexivity]. rewrite E. f_equal. f_equal.
      change (SerialOpen :: Say InfoListening :: map Bridge t1
              ++ [SerialClose; Say InfoExiting])
        with ([SerialOpen; Say InfoListening] ++ map Bridge t1
              ++ [SerialClose; Say InfoExiting]).
      rewrite !bridge_events_app, bridge_events_map. cbn. now rewrite app_nil_r.
Qed.

(** X17.  Reconnecting is invisible to the lights.  Whatever the port
    does (failing to open, dropping the connection, any number of
    times), the turns of [main] are those of one listening loop over all
    the lines it saw, from the initial state: the state of the loop, so
    the cooldown, is carried across reconnects.  How [main] ends is
    decided by the first attempt that is interrupted, for an interrupt
    that arrives while the port is being opened, while a line is waited
    for, or during the sleep that follows a serial error.  In the first
    two cases [main] returns; in the third the interrupt leaves [main]
    uncaught.  When no attempt is interrupted [main] is still trying. *)
Theorem main_carries_state (attempts : list attempt) (w : World) :
  let run := main put SERIAL_PORT BAUDRATE GOVEE_DEVICES COOLDOWN_MS attempts w in
  let heard := hear (lines_seen attempts) initial_state w in
  bridge_events (snd (fst run)) = trace heard
  /\ snd run = world heard
  /\ exists st, outcome heard = Returned st
                /\ fst (fst run)
                   = match find interrupts attempts with
                     | None => Retrying st
                     | Some a =>
                         if interrupted_asleep a then Interrupted else Exited
                     end.
Proof.
  intros run heard. subst run heard. unfold main, initial_state.
  destruct (loop_transparent attempts (LoopState None 0) w) as (st' & H1 & H2).
  destruct (loop attempts (LoopState None 0) w) as [[r t] w'].
  cbn [fst snd] in *. rewrite H1. unfold outcome, trace, world. cbn [fst snd].
  split; [reflexivity|]. split; [reflexivity|]. now exists st'.
Qed.

(** The counts of a run of the loop. *)
Lemma loop_counts (attempts : list attempt) (st : loop_state) (w : World) :
  let t := snd (fst (loop attempts st w)) in
  opens t = closes t
  /\ (existsb interrupts attempts = false -> sleeps t = length attempts).
Proof.
  revert st w. induction attempts as [|a rest IH]; intros st w.
  - split; reflexivity.
  - destruct a as [e|e| |reads [e|e|]].
    + rewrite loop_open_fails. cbn [fst snd]. destruct (IH st w) as [I1 I2].
      split; [exact I1|]. intros H. cbn in H.
      unfold sleeps. cbn. f_equal. now apply I2.
    + split; [reflexivity|discriminate].
    + split; [reflexivity|discriminate].
    + destruct (listen_total put GOVEE_DEVICES COOLDOWN_MS reads st w)
        as (st1 & t1 & w1 & E).
      rewrite (loop_serial_error reads e rest st st1 w w1 t1 E).
      cbn [fst snd]. destruct (IH st1 w1) as [I1 I2].
      unfold opens, closes, sleeps in *. cbn [filter].
      rewrite !filter_app, !count_no_bridge by reflexivity.
      cbn [filter app length]. split; [now rewrite I1|].
      intros H. cbn in H. f_equal. now apply I2.
    + destruct (listen_total put GOVEE_DEVICES COOLDOWN_MS reads st w)
        as (st1 & t1 & w1 & E).
      rewrite (loop_asleep reads e rest st st1 w w1 t1 E).
      cbn [fst snd]. unfold opens, closes. cbn [filter].
      rewrite !filter_app, !count_no_bridge by reflexivity.
      split; [reflexivity|discriminate].
    + destruct (listen_total put GOVEE_DEVICES COOLDOWN_MS reads st w)
        as (st1 & t1 & w1 & E).
      rewrite (loop_interrupt reads rest st st1 w w1 t1 E).
      cbn [fst snd]. unfold opens, closes. cbn [filter].
      rewrite !filter_app, !count_no_bridge by reflexivity.
      split; [reflexivity|discriminate].
Qed.

(** X18.  [main] never gives up on the port: as long as no attempt ends
    in an interrupt it is still trying after every failure, it has slept
    its three seconds once per failed attempt, and it has closed the
    port as often as it opened it. *)
Theorem main_keeps_trying (attempts : list attempt) (w : World) :
  existsb interrupts attempts = false ->
  let run := main put SERIAL_PORT BAUDRATE GOVEE_DEVICES COOLDOWN_MS attempts w in
  (exists st, fst (fst run) = Retrying st)
  /\ sleeps (snd (fst run)) = length attempts
  /\ Forall (fun e => forall s, e = Sleep s -> s = 3%Z) (snd (fst run))
  /\ opens (snd (fst run)) = closes (snd (fst run)).
Proof.
  intros Hno run. subst run. unfold main.
  destruct (loop_transparent attempts (LoopState None 0) w) as (st' & _ & H2).
  destruct (loop_counts attempts (LoopState None 0) w) as [C1 C2].
  assert (Hsleep : forall st0 w0,
            Forall (fun e => forall s, e = Sleep s -> s = 3%Z)
                   (snd (fst (loop attempts st0 w0)))).
  { clear. induction attempts as [|a rest IH]; intros st0 w0; [constructor|].
    destruct a as [e|e| |reads [e|e|]].
    - rewrite loop_open_fails. cbn [fst snd].
      repeat constructor; try discriminate; [now intros s [= <-]|apply IH].
    - cbn. repeat constructor; try discriminate. now intros s [= <-].
    - cbn. repeat constructor; discriminate.
    - destruct (listen_total put GOVEE_DEVICES COOLDOWN_MS reads st0 w0)
        as (st1 & t1 & w1 & E).
      rewrite (loop_serial_error reads e rest st0 st1 w0 w1 t1 E).
      cbn [fst snd]. repeat (constructor; [discriminate|]).
      apply Forall_app. split.
      + apply Forall_forall. intros x Hx. apply in_map_iff in Hx as (b & <- & _).
        discriminate.
      + repeat constructor; try discriminate; [now intros s [= <-]|apply IH].
    - destruct (listen_total put GOVEE_DEVICES COOLDOWN_MS reads st0 w0)
        as (st1 & t1 & w1 & E).
      rewrite (loop_asleep reads e rest st0 st1 w0 w1 t1 E).
      cbn [fst snd]. repeat (constructor; [discriminate|]).
      apply Forall_app. split.
      + apply Forall_forall. intros x Hx. apply in_map_iff in Hx as (b & <- & _).
        discriminate.
      + repeat constructor; try discriminate. now intros s [= <-].
    - destruct (listen_total put GOVEE_DEVICES COOLDOWN_MS reads st0 w0)
        as (st1 & t1 & w1 & E).
      rewrite (loop_interrupt reads rest st0 st1 w0 w1 t1 E).
      cbn [fst snd]. repeat (constructor; [discriminate|]).
      apply Forall_app. split.
      + apply Forall_forall. intros x Hx. apply in_map_iff in Hx as (b & <- & _).
        discriminate.
      + repeat constructor; discriminate. }
  specialize (Hsleep (LoopState None 0) w).
  destruct (loop attempts (LoopState None 0) w) as [[r t] w'].
  cbn [fst snd] in *. rewrite (find_none_existsb _ _ Hno) in H2.
  split; [now exists st'|]. split; [now apply C2|]. split.
  - repeat (constructor; [discriminate|]). exact Hsleep.
  - exact C1.
Qed.

(** X19.  An interrupt ends [main]: it returns, the last things it does
    are closing the port and printing the exit line, and what the port
    would have done afterwards is never looked at. *)
Theorem main_stops_on_interrupt (before after : list attempt)
  (reads : list (bytes * Z)) (w : World) :
  existsb interrupts before = false ->
  let run :=
    main put SERIAL_PORT BAUDRATE GOVEE_DEVICES COOLDOWN_MS
      (before ++ Session reads KeyboardInterrupt :: after) w in
  run = main put SERIAL_PORT BAUDRATE GOVEE_DEVICES COOLDOWN_MS
          (before ++ [Session reads KeyboardInterrupt]) w
  /\ fst (fst run) = Exited
  /\ (exists t, snd (fst run) = t ++ [SerialClose; Say InfoExiting])
  /\ opens (snd (fst run)) = closes (snd (fst run)).
Proof.
  intros Hno run. subst run.
  assert (Hcut : forall st0 w0,
            loop (before ++ Session reads KeyboardInterrupt :: after) st0 w0
            = loop (before ++ [Session reads KeyboardInterrupt]) st0 w0
            /\ fst (fst (loop (before ++ [Session reads KeyboardInterrupt]) st0 w0))
               = Exited
            /\ exists t, snd (fst (loop (before ++ [Session reads KeyboardInterrupt])
                                     st0 w0))
                         = t ++ [SerialClose; Say InfoExiting]).
  { induction before as [|a rest IH]; intros st0 w0.
    - destruct (listen_total put GOVEE_DEVICES COOLDOWN_MS reads st0 w0)
        as (st1 & t1 & w1 & E).
      cbn [app]. rewrite !(loop_interrupt reads _ st0 st1 w0 w1 t1 E).
      split; [reflexivity|]. split; [reflexivity|].
      exists (SerialOpen :: Say InfoListening :: map Bridge t1). reflexivity.
    - cbn [existsb] in Hno. apply orb_false_iff in Hno as [Ha Hrest].
      specialize (IH Hrest). cbn [app].
      destruct a as [e|e| |rd [e|e|]]; try discriminate Ha.
      + rewrite !loop_open_fails. destruct (IH st0 w0) as (-> & I2 & t & I3).
        cbn [fst snd]. split; [reflexivity|]. split; [exact I2|].
        rewrite I3. now exists (Say (WarnSerial e) :: Sleep 3 :: t).
      + destruct (listen_total put GOVEE_DEVICES COOLDOWN_MS rd st0 w0)
          as (st1 & t1 & w1 & E).
        rewrite !(loop_serial_error rd e _ st0 st1 w0 w1 t1 E).
        destruct (IH st1 w1) as (-> & I2 & t & I3).
        cbn [fst snd]. split; [reflexivity|]. split; [exact I2|].
        rewrite I3.
        exists (SerialOpen :: Say InfoListening :: map Bridge t1
                ++ SerialClose :: Say (WarnSerial e) :: Sleep 3 :: t).
        cbn [app]. f_equal. f_equal. rewrite <- app_assoc. reflexivity. }
  unfold main.
  destruct (Hcut (LoopState None 0) w) as (-> & H2 & t & H3).
  destruct (loop_counts (before ++ [Session reads KeyboardInterrupt])
              (LoopState None 0) w) as [C1 _].
  destruct (loop (before ++ [Session reads KeyboardInterrupt])
              (LoopState None 0) w) as [[r t0] w'].
  cbn [fst snd] in *. split; [reflexivity|]. split; [exact H2|]. split.
  - rewrite H3.
    now exists (Say InfoStarting :: Say (InfoSerial SERIAL_PORT BAUDRATE)
                :: Say (InfoDevices GOVEE_DEVICES) :: Say InfoCommands :: t).
  - exact C1.
Qed.

End MainMore.

(** ** The further properties on concrete runs *)

Lemma normalize_line_padding_witness :
  Forall space_byte [CR; LF] /\ Forall space_byte (blit "  " ++ [CR; LF])
  /\ Forall ascii_byte (blit "42 cm") /\ trimmed (map Byte.to_N (blit "42 cm"))
  /\ normalize_line ([CR; LF] ++ blit "42 cm" ++ blit "  " ++ [CR; LF])
     = lit "42 cm"
  /\ TriggerDecoder ([CR; LF] ++ blit "LIGHTS_ON" ++ blit "  " ++ [CR; LF])
     = Some ON.
Proof.
  assert (H1 : Forall space_byte [CR; LF]) by (repeat constructor).
  assert (H2 : Forall space_byte (blit "  " ++ [CR; LF])) by (repeat constructor).
  assert (H3 : Forall ascii_byte (blit "42 cm")) by (repeat constructor).
  assert (H4 : trimmed (map Byte.to_N (blit "42 cm"))) by (split; reflexivity).
  destruct (normalize_line_padding [CR; LF] (blit "42 cm")
              (blit "  " ++ [CR; LF]) H1 H2 H3 H4) as (Hn & Hon & _).
  repeat split; assumption.
Defined.

Lemma normalize_line_utf8_witness :
  Forall scalar [0x20AC; 0x1F4A1; 0xE9]%N /\ Forall scalar (lit " ok ")
  /\ invalid_start xFF
  /\ decode_utf8_ignore (encode_utf8 [0x20AC; 0x1F4A1; 0xE9]%N)
     = [0x20AC; 0x1F4A1; 0xE9]%N
  /\ normalize_line (encode_utf8 (lit " ok ")) = lit "ok"
  /\ decode_utf8_ignore
       (encode_utf8 [0x20AC; 0x1F4A1; 0xE9]%N ++ xFF :: encode_utf8 (lit " ok "))
     = [0x20AC; 0x1F4A1; 0xE9]%N ++ lit " ok ".
Proof.
  assert (H1 : Forall scalar [0x20AC; 0x1F4A1; 0xE9]%N).
  { constructor; [left; reflexivity|].
    constructor; [right; split; [discriminate|reflexivity]|].
    constructor; [left; reflexivity|constructor]. }
  assert (H2 : Forall scalar (lit " ok "))
    by (repeat (constructor; [left; reflexivity|]); constructor).
  assert (H3 : invalid_start xFF) by (right; cbv; discriminate).
  destruct (normalize_line_utf8 [0x20AC; 0x1F4A1; 0xE9]%N (lit " ok ") xFF
              H1 H2 H3) as (Hd & _ & Hdrop).
  destruct (normalize_line_utf8 (lit " ok ") [] xFF H2 (Forall_nil _) H3)
    as (_ & Hn & _).
  repeat split; assumption.
Defined.

Lemma parse_devices_provenance_witness :
  In (lit "aa:bb:cc:dd:ee:ff", lit "H6104")
     (returned_list
        (parse_devices (lit "bad; aa:bb:cc:dd:ee:ff:H6104:x ;") tt))
  /\ exists entry rest,
       In entry (split (ch ";") (lit "bad; aa:bb:cc:dd:ee:ff:H6104:x ;"))
       /\ strip entry
          = lit "aa:bb:cc:dd:ee:ff" ++ ch ":" :: lit "H6104" ++ rest
       /\ (rest = [] \/ exists r, rest = ch ":" :: r).
Proof.
  assert (H : In (lit "aa:bb:cc:dd:ee:ff", lit "H6104")
                 (returned_list
                    (parse_devices (lit "bad; aa:bb:cc:dd:ee:ff:H6104:x ;") tt)))
    by (left; reflexivity).
  split; [exact H|].
  exact (parse_devices_provenance (lit "bad; aa:bb:cc:dd:ee:ff:H6104:x ;") tt
           (lit "aa:bb:cc:dd:ee:ff") (lit "H6104") H).
Defined.

Lemma parse_devices_blank_witness :
  Forall (fun c => isspace c = true \/ c = ch ";") (lit " ; ;;  ")
  /\ parse_devices (lit " ; ;;  ") tt = (Returned [], [], tt).
Proof.
  assert (H : Forall (fun c => isspace c = true \/ c = ch ";") (lit " ; ;;  "))
    by (repeat (constructor; [first [left; reflexivity|right; reflexivity]|]);
        constructor).
  split; [exact H|]. exact (parse_devices_blank (lit " ; ;;  ") tt H).
Defined.

Lemma fetch_devices_truthy_witness :
  In (JStr (lit "BB:02"), JStr (lit "H6003"))
     (returned_list (fetch_devices_from_api (get_body nested_listing) tt))
  /\ truthy (JStr (lit "BB:02")) = true /\ truthy (JStr (lit "H6003")) = true.
Proof.
  assert (H : In (JStr (lit "BB:02"), JStr (lit "H6003"))
                 (returned_list
                    (fetch_devices_from_api (get_body nested_listing) tt)))
    by (right; left; reflexivity).
  split; [exact H|].
  exact (fetch_devices_truthy (get_body nested_listing) tt _ _ H).
Defined.

Lemma fetch_devices_raises_witness :
  nested_devices (JDict [(lit "data", JDict [(lit "devices", JNum 7)])])
  = Some (JNum 7)
  /\ truthy (JNum 7) = true /\ iterable (JNum 7) = false
  /\ outcome (fetch_devices_from_api
                (get_body (JDict [(lit "data", JDict [(lit "devices", JNum 7)])]))
                tt)
     = Raised TypeError.
Proof.
  split; [reflexivity|]. split; [reflexivity|]. split; [reflexivity|].
  apply (fetch_devices_raises
           (get_body (JDict [(lit "data", JDict [(lit "devices", JNum 7)])]))
           tt TypeError).
  split; [reflexivity|].
  exists (JDict [(lit "data", JDict [(lit "devices", JNum 7)])]), (JNum 7).
  repeat split.
Defined.

Lemma fetch_devices_silent_witness :
  nested_devices
    (JDict [(lit "data", JDict [(lit "devices", JStr (lit "none"))])])
  = Some (JStr (lit "none"))
  /\ fetch_devices_from_api
       (get_body
          (JDict [(lit "data", JDict [(lit "devices", JStr (lit "none"))])])) tt
     = (Returned [], [HttpGet], tt)
  /\ fetch_devices_from_api (fun w : unit => (GetFailed (lit "timeout"), w)) tt
     = (Returned [], [HttpGet; Print (WarnFetchFailed (lit "timeout"))], tt).
Proof.
  split; [reflexivity|]. split.
  - destruct (fetch_devices_silent
                (get_body
                   (JDict [(lit "data",
                            JDict [(lit "devices", JStr (lit "none"))])])) tt)
      as (_ & H).
    exact (H _ (JStr (lit "none")) eq_refl eq_refl eq_refl eq_refl eq_refl).
  - destruct (fetch_devices_silent
                (fun w : unit => (GetFailed (lit "timeout"), w)) tt) as (H & _).
    exact (H (lit "timeout") eq_refl).
Defined.

Lemma burst_dispatches_once_witness :
  (0 < 800)%Z /\ TriggerDecoder (blit "LIGHTS_ON" ++ [LF]) = Some ON /\ switch ON
  /\ in_cooldown 800 1000 initial_state = false
  /\ Forall (fun rd => (snd rd - 1000 < 800)%Z)
       [(blit "LIGHTS_OFF" ++ [LF], 1100%Z); (blit "LIGHTS_ON" ++ [LF], 1500%Z);
        (blit "42cm" ++ [LF], 1799%Z)]
  /\ puts (trace (listen put_flaky two_lamps 800
                    [(blit "LIGHTS_ON" ++ [LF], 1000%Z);
                     (blit "LIGHTS_OFF" ++ [LF], 1100%Z);
                     (blit "LIGHTS_ON" ++ [LF], 1500%Z);
                     (blit "42cm" ++ [LF], 1799%Z)] initial_state 0%nat))
     = map (payload_of (lit "on")) two_lamps.
Proof.
  assert (H : Forall (fun rd => (snd rd - 1000 < 800)%Z)
                [(blit "LIGHTS_OFF" ++ [LF], 1100%Z);
                 (blit "LIGHTS_ON" ++ [LF], 1500%Z);
                 (blit "42cm" ++ [LF], 1799%Z)])
    by (repeat constructor).
  destruct (burst_dispatches_once put_flaky two_lamps 800
              (blit "LIGHTS_ON" ++ [LF]) ON 1000 _ initial_state 0%nat
              ltac:(lia) eq_refl I eq_refl H) as (_ & Hputs & _).
  split; [lia|]. split; [reflexivity|]. split; [exact I|].
  split; [reflexivity|]. split; [exact H|exact Hputs].
Defined.

Lemma quiet_reads_change_nothing_witness :
  Forall (fun rd => switches rd = false)
    [([], 0%Z); (blit "42cm" ++ [LF], 5%Z); (blit "  " ++ [CR; LF], 7%Z);
     (blit "lights_on" ++ [LF], 9%Z)]
  /\ outcome (listen put_flaky two_lamps 800
                [([], 0%Z); (blit "42cm" ++ [LF], 5%Z);
                 (blit "  " ++ [CR; LF], 7%Z); (blit "lights_on" ++ [LF], 9%Z)]
                (LoopState (Some true) 3) 0%nat)
     = Returned (LoopState (Some true) 3).
Proof.
  assert (H : Forall (fun rd => switches rd = false)
                [([], 0%Z); (blit "42cm" ++ [LF], 5%Z);
                 (blit "  " ++ [CR; LF], 7%Z); (blit "lights_on" ++ [LF], 9%Z)])
    by (repeat constructor).
  split; [exact H|].
  exact (proj1 (quiet_reads_change_nothing put_flaky two_lamps 800 _
                  (LoopState (Some true) 3) 0%nat H)).
Defined.

Lemma lights_on_state_unused_witness :
  last_action_ms (LoopState None 500) = last_action_ms (LoopState (Some true) 500)
  /\ trace (listen put_flaky two_lamps 800
              [(blit "LIGHTS_OFF" ++ [LF], 900%Z); (blit "LIGHTS_OFF" ++ [LF], 1300%Z)]
              (LoopState None 500) 0%nat)
     = trace (listen put_flaky two_lamps 800
                [(blit "LIGHTS_OFF" ++ [LF], 900%Z); (blit "LIGHTS_OFF" ++ [LF], 1300%Z)]
                (LoopState (Some true) 500) 0%nat).
Proof.
  split; [reflexivity|].
  exact (proj1 (lights_on_state_unused put_flaky two_lamps 800 _
                  (LoopState None 500) (LoopState (Some true) 500) 0%nat eq_refl)).
Defined.

Lemma module_startup_exit_witness :
  let blank_key :=
    module_startup (get_body nested_listing) upper_latin1 example_int
      None None (Some (lit "  ")) (Some (lit "aa:bb:cc:dd:ee:ff:H6006"))
      None None tt in
  let bad_baudrate :=
    module_startup (get_body nested_listing) upper_latin1 example_int
      None (Some (lit "fast")) None None None None tt in
  let numeric_model :=
    module_startup (get_body numeric_listing) upper_latin1 example_int
      None None (Some (lit "key")) None None None tt in
  let nothing_found :=
    module_startup (fun w : unit => (GetFailed (lit "timeout"), w))
      upper_latin1 example_int
      None None (Some (lit "key")) None None None tt in
  fst (fst blank_key) = Raised (SystemExit 1)
  /\ snd (fst blank_key) = [PrintKeyMissing]
  /\ fst (fst bad_baudrate) = Raised ValueError
  /\ snd (fst bad_baudrate) = []
  /\ fst (fst numeric_model) = Raised AttributeError
  /\ fst (fst nothing_found) = Raised (SystemExit 1).
Proof.
  intros blank_key bad_baudrate numeric_model nothing_found.
  assert (Hints : example_int (getenv None (lit "115200")) <> None
                  /\ example_int (getenv None (lit "800")) <> None)
    by (split; discriminate).
  destruct (module_startup_exit (get_body nested_listing) upper_latin1
              example_int None None (Some (lit "  "))
              (Some (lit "aa:bb:cc:dd:ee:ff:H6006")) None None tt)
    as (_ & _ & Hexit & Hkey & _).
  destruct (module_startup_exit (get_body nested_listing) upper_latin1
              example_int None (Some (lit "fast")) None None None None tt)
    as (Hvalue & Hquiet & _).
  destruct (module_startup_exit (get_body numeric_listing) upper_latin1
              example_int None None (Some (lit "key")) None None None tt)
    as (_ & _ & _ & _ & _ & Hattr & _).
  destruct (module_startup_exit (fun w : unit => (GetFailed (lit "timeout"), w))
              upper_latin1 example_int None None (Some (lit "key"))
              None None None tt)
    as (_ & _ & Hexit' & _).
  assert (Hbad : ~ (example_int (getenv (Some (lit "fast")) (lit "115200"))
                    <> None
                    /\ example_int (getenv None (lit "800")) <> None))
    by (intros [H _]; now apply H).
  split; [apply Hexit; split; [exact Hints|now left]|].
  split; [apply Hkey; [exact Hints|reflexivity]|].
  split; [apply Hvalue; exact Hbad|].
  split; [apply Hquiet; exact Hbad|].
  split.
  - apply Hattr. split; [exact Hints|]. split; [discriminate|].
    split; [reflexivity|]. split; [discriminate|].
    exists [(JStr (lit "AA:01"), JNum 6006)]. split; [reflexivity|].
    now constructor.
  - apply Hexit'. split; [exact Hints|]. right. split; reflexivity.
Defined.

Lemma resolve_devices_order_witness :
  let configured :=
    resolve_devices (get_body nested_listing) upper_latin1
      (Some (lit "aa:bb:cc:dd:ee:ff:H6006")) None tt in
  let discovered :=
    resolve_devices (get_body nested_listing) upper_latin1 None None tt in
  let nothing :=
    resolve_devices (fun w : unit => (GetFailed (lit "timeout"), w))
      upper_latin1 None None tt in
  discoveries (trace configured) = 0%nat
  /\ outcome configured
     = Returned [(JStr (lit "aa:bb:cc:dd:ee:ff"), JStr (lit "H6006"))]
  /\ discoveries (trace discovered) = 1%nat
  /\ outcome nothing = Raised (SystemExit 1).
Proof.
  intros configured discovered nothing.
  destruct (resolve_devices_order (get_body nested_listing) upper_latin1
              (Some (lit "aa:bb:cc:dd:ee:ff:H6006")) None tt)
    as (_ & _ & Hstatic & _).
  destruct (resolve_devices_order (get_body nested_listing) upper_latin1
              None None tt) as (_ & _ & _ & Hcalled & _).
  destruct (resolve_devices_order
              (fun w : unit => (GetFailed (lit "timeout"), w)) upper_latin1
              None None tt) as (_ & _ & _ & _ & Hexit & _).
  assert (Hsome : returned_list
                    (parse_devices
                       (strip (getenv (Some (lit "aa:bb:cc:dd:ee:ff:H6006")) []))
                       tt) <> []) by (cbv; discriminate).
  destruct (Hstatic Hsome) as (Hquiet & _ & Hfiltered & _).
  split; [exact Hquiet|]. split; [exact Hfiltered|].
  split; [apply Hcalled; reflexivity|].
  apply Hexit. split; reflexivity.
Defined.

Lemma main_carries_state_witness :
  let dropped :=
    [OpenFails (lit "no port");
     Session [(blit "LIGHTS_ON" ++ [LF], 1000%Z)]
       (SerialExceptionThenInterrupt (lit "gone"));
     OpenFails (lit "never")] in
  fst (fst (main put_flaky (lit "COM5") 115200 two_lamps 800 dropped 0%nat))
  = Interrupted
  /\ fst (fst (main put_flaky (lit "COM5") 115200 two_lamps 800
                 [OpenFails (lit "no port"); OpenInterrupted] 0%nat))
     = Exited
  /\ bridge_events
       (snd (fst (main put_flaky (lit "COM5") 115200 two_lamps 800 dropped
                    0%nat)))
     = trace (listen put_flaky two_lamps 800
                [(blit "LIGHTS_ON" ++ [LF], 1000%Z)] initial_state 0%nat).
Proof.
  intros dropped.
  destruct (main_carries_state put_flaky (lit "COM5") 115200 two_lamps 800
              dropped 0%nat) as (Hturns & _ & st & _ & Hend).
  destruct (main_carries_state put_flaky (lit "COM5") 115200 two_lamps 800
              [OpenFails (lit "no port"); OpenInterrupted] 0%nat)
    as (_ & _ & st' & _ & Hend').
  split; [exact Hend|]. split; [exact Hend'|exact Hturns].
Defined.

Lemma main_keeps_trying_witness :
  existsb interrupts
    [OpenFails (lit "no port");
     Session [(blit "LIGHTS_ON" ++ [LF], 1000%Z)] (SerialException (lit "gone"));
     OpenFails (lit "no port")] = false
  /\ sleeps (snd (fst (main put_flaky (lit "COM5") 115200 two_lamps 800
                        [OpenFails (lit "no port");
                         Session [(blit "LIGHTS_ON" ++ [LF], 1000%Z)]
                           (SerialException (lit "gone"));
                         OpenFails (lit "no port")] 0%nat)))
     = 3%nat.
Proof.
  split; [reflexivity|].
  destruct (main_keeps_trying put_flaky (lit "COM5") 115200 two_lamps 800
              [OpenFails (lit "no port");
               Session [(blit "LIGHTS_ON" ++ [LF], 1000%Z)]
                 (SerialException (lit "gone"));
               OpenFails (lit "no port")] 0%nat eq_refl) as (_ & H & _).
  exact H.
Defined.

Lemma main_stops_on_interrupt_witness :
  existsb interrupts [OpenFails (lit "no port")] = false
  /\ fst (fst (main put_flaky (lit "COM5") 115200 two_lamps 800
                 ([OpenFails (lit "no port")]
                  ++ Session [(blit "LIGHTS_ON" ++ [LF], 1000%Z)] KeyboardInterrupt
                  :: [OpenFails (lit "never")]) 0%nat))
     = Exited.
Proof.
  split; [reflexivity|].
  destruct (main_stops_on_interrupt put_flaky (lit "COM5") 115200 two_lamps 800
              [OpenFails (lit "no port")] [OpenFails (lit "never")]
              [(blit "LIGHTS_ON" ++ [LF], 1000%Z)] 0%nat eq_refl)
    as (_ & H & _).
  exact H.
Defined.
